(** * Ariel Sheets: cell addresses, grid store and formula evaluation

    A shallow embedding of the engine of [ArielSheets.py]: the address
    codec ([get_cell_id], [get_cell_from_id]), range resolution
    ([get_cells_in_range]), the evaluator ([evaluate_formula],
    [handle_special_function], [replace_cell_references]), input
    validation ([validate_cell_input]), tables ([create_table],
    [sort_table], [get_table_data], [update_table_data]), the clipboard
    ([copy_cells], [cut_cells], [paste_cells]), the content check
    ([has_unsaved_changes]) and the sheets that [save_file] writes and
    [open_file] reads.

    Conventions of the model.
    - A Python [str] is a [string] of 8-bit characters (code points below
      256).  On that alphabet [\d] is [0-9] and [A-Z] is the ASCII range.
    - A Python [int] is a [Z]; [str] and [int] between integers and
      decimal digits are total.
    - The table widget behind [self.spreadsheet] is the Grid Store of the
      specification: a finite map from (row, column) to the text of the
      item stored there.
    - Python exceptions are values of [exn]; a Python function is a state
      transformer over the grid that returns or raises.
    - [float] is read from a string exactly as far as its syntax goes;
      rounding, float arithmetic and [eval] belong to a [Runtime] that
      the statements range over. *)

From Stdlib Require Import ZArith String Ascii List Bool Lia.
From Stdlib Require Import DecimalString DecimalPos DecimalZ.
From stdpp Require Import gmap strings sorting.

Local Open Scope string_scope.
Local Open Scope list_scope.
Local Open Scope Z_scope.

(** ** Python values: exceptions, characters, decimal conversions *)

Inductive exn : Set :=
  | ValueError
  | AttributeError
  | ZeroDivisionError
  | NonLatin1.
  (* [NonLatin1] is not a Python exception: it marks a result that is a
     valid Python string outside the 8-bit alphabet of this model. *)

Inductive outcome (A : Type) : Type :=
  | Returned (a : A)
  | Raised (e : exn).
Arguments Returned {A} a.
Arguments Raised {A} e.

(** [ord(c)] *)
Definition ord (c : ascii) : Z := Z.of_N (N_of_ascii c).

(** [chr(k)]: [ValueError] outside [0, 0x10FFFF]. *)
Definition chr (k : Z) : outcome ascii :=
  if (k <? 0) || (1114111 <? k) then Raised ValueError
  else if k <? 256 then Returned (ascii_of_N (Z.to_N k))
  else Raised NonLatin1.

Definition is_upper (c : ascii) : bool := (65 <=? ord c) && (ord c <=? 90).
Definition is_digit (c : ascii) : bool := (48 <=? ord c) && (ord c <=? 57).

(** [str(n)] for an integer. *)
Definition str_int (n : Z) : string := NilZero.string_of_int (Z.to_int n).

(** [int(s)] on a string of decimal digits, most significant first. *)
Fixpoint int_digits (acc : Z) (s : string) : Z :=
  match s with
  | EmptyString => acc
  | String c t => int_digits (10 * acc + (ord c - 48)) t
  end.

Definition int_of_str (s : string) : Z := int_digits 0 s.

(** The longest prefix of decimal digits, as the greedy [\d+] takes it. *)
Fixpoint digits_prefix (s : string) : string :=
  match s with
  | String c t => if is_digit c then String c (digits_prefix t) else EmptyString
  | EmptyString => EmptyString
  end.

Definition nonempty (s : string) : bool :=
  match s with EmptyString => false | _ => true end.

(** [all(p(c) for c in s)] *)
Fixpoint all_chars (p : ascii -> bool) (s : string) : bool :=
  match s with
  | String c t => p c && all_chars p t
  | EmptyString => true
  end.

(** ** Address codec *)

(** [get_cell_id(row, col)]: [f"{chr(65 + col)}{row + 1}"]. *)
Definition get_cell_id (row col : Z) : outcome string :=
  match chr (65 + col) with
  | Returned c => Returned (String c (str_int (row + 1)))
  | Raised e => Raised e
  end.

(** [re.match(r"([A-Z])(\d+)", cell_id)] followed by the two conversions
    [col = ord(group 1) - 65] and [row = int(group 2) - 1].  The match is
    anchored at the start only. *)
Definition decode (cell_id : string) : option (Z * Z) :=
  match cell_id with
  | String c t =>
      if is_upper c && nonempty (digits_prefix t)
      then Some (int_of_str (digits_prefix t) - 1, ord c - 65)
      else None
  | EmptyString => None
  end.

(** ** Grid store *)

(** Modelled from the spec: the table widget behind [self.spreadsheet] is
    not part of the sources; it is the Grid Store of section 4.2, where
    [get] answers a text or absent and [set] overwrites or creates the
    cell.  An item is named by the coordinate it is stored at, so that a
    text read through an item is the text the grid holds there. *)
Abbreviation grid := (gmap (Z * Z) string).

Definition M (A : Type) : Type := grid -> outcome A * grid.

Definition ret {A} (a : A) : M A := fun g => (Returned a, g).
Definition raise {A} (e : exn) : M A := fun g => (Raised e, g).
Definition bind {A B} (m : M A) (k : A -> M B) : M B :=
  fun g =>
    match m g with
    | (Returned a, g') => k a g'
    | (Raised e, g') => (Raised e, g')
    end.
Definition lift {A} (o : outcome A) : M A := fun g => (o, g).

(** [try: m  except Exception as e: h e]; the exceptions a grid
    computation raises are all instances of [Exception]. *)
Definition try_except {A} (m : M A) (h : exn -> M A) : M A :=
  fun g =>
    match m g with
    | (Returned a, g') => (Returned a, g')
    | (Raised e, g') => h e g'
    end.

Notation "'let*' x ':=' m 'in' k" := (bind m (fun x => k))
  (at level 10, x pattern, m at level 100, k at level 200).

(** [self.spreadsheet.item(row, col)]: the item, or [None]. *)
Definition item (rc : Z * Z) : M (option (Z * Z)) :=
  fun g => (Returned (match g !! rc with Some _ => Some rc | None => None end), g).

(** [self.spreadsheet.setItem(row, col, QTableWidgetItem(text))] *)
Definition setItem (rc : Z * Z) (text : string) : M unit :=
  fun g => (Returned tt, <[rc := text]> g).

(** [item.text()] *)
Definition text (it : Z * Z) : M string :=
  fun g => (Returned (default EmptyString (g !! it)), g).

(** [get_cell_from_id(cell_id)]: the item at the decoded coordinate,
    created with empty text when the grid has none; [None] when the
    pattern does not match. *)
Definition get_cell_from_id (cell_id : string) : M (option (Z * Z)) :=
  match decode cell_id with
  | Some rc =>
      let* it := item rc in
      match it with
      | None => let* _ := setItem rc "" in ret (Some rc)
      | Some i => ret (Some i)
      end
  | None => ret None
  end.

(** ** Ranges *)

(** [s.split(sep)] for a one-character separator. *)
Fixpoint split_on (sep : ascii) (s : string) : list string :=
  match s with
  | EmptyString => [EmptyString]
  | String c t =>
      if Ascii.eqb c sep then EmptyString :: split_on sep t
      else match split_on sep t with
           | h :: r => String c h :: r
           | [] => [String c EmptyString]
           end
  end.

(** [range(lo, hi)] *)
Definition py_range (lo hi : Z) : list Z := seqZ lo (hi - lo).

(** A [for] loop that appends to a list. *)
Fixpoint collect {A B} (xs : list A) (body : A -> M (list B)) : M (list B) :=
  match xs with
  | [] => ret []
  | x :: r =>
      let* ys := body x in
      let* zs := collect r body in
      ret (ys ++ zs)
  end.

(** The loop body of [get_cells_in_range]. *)
Definition cell_or_zero (rc : Z * Z) : M (list (Z * Z)) :=
  let* it := item rc in
  match it with
  | None => let* _ := setItem rc "0" in ret [rc]
  | Some i => ret [i]
  end.

(** [get_cells_in_range(range_str)].  [start, end = range_str.split(':')]
    raises [ValueError] unless there are exactly two parts; [.row()] on
    [None] raises [AttributeError]. *)
Definition get_cells_in_range (range_str : string) : M (list (Z * Z)) :=
  match split_on ":" range_str with
  | [start; end_] =>
      let* start_item := get_cell_from_id start in
      let* end_item := get_cell_from_id end_ in
      match start_item, end_item with
      | Some (start_row, start_col), Some (end_row, end_col) =>
          collect (py_range (Z.min start_row end_row) (Z.max start_row end_row + 1))
            (fun row =>
               collect (py_range (Z.min start_col end_col) (Z.max start_col end_col + 1))
                 (fun col => cell_or_zero (row, col)))
      | _, _ => raise AttributeError
      end
  | _ => raise ValueError
  end.

(** ** Floats *)

(** What [float(s)] reads from a string, before rounding to a double:
    [Lit_dec neg m e] stands for [(-1)^neg * m * 10^e]. *)
Inductive float_lit : Set :=
  | Lit_nan (neg : bool)
  | Lit_inf (neg : bool)
  | Lit_dec (neg : bool) (mant : Z) (exp10 : Z).

Definition is_space (c : ascii) : bool :=
  let k := ord c in
  ((9 <=? k) && (k <=? 13)) || ((28 <=? k) && (k <=? 32)) || (k =? 133) || (k =? 160).

Fixpoint lstrip (s : string) : string :=
  match s with
  | String c t => if is_space c then lstrip t else s
  | EmptyString => EmptyString
  end.

Fixpoint rstrip (s : string) : string :=
  match s with
  | String c t =>
      let t' := rstrip t in
      if is_space c && negb (nonempty t') then EmptyString else String c t'
  | EmptyString => EmptyString
  end.

(** Underscores are dropped when each stands between two digits. *)
Fixpoint strip_underscores (prev : ascii) (s : string) : option string :=
  match s with
  | EmptyString => if Ascii.eqb prev "_" then None else Some EmptyString
  | String c t =>
      if Ascii.eqb c "_" then
        if is_digit prev then strip_underscores c t else None
      else if Ascii.eqb prev "_" && negb (is_digit c) then None
      else option_map (String c) (strip_underscores c t)
  end.

Fixpoint skip_digits (s : string) : string :=
  match s with
  | String c t => if is_digit c then skip_digits t else s
  | EmptyString => EmptyString
  end.

Definition to_lower (c : ascii) : ascii :=
  if is_upper c then ascii_of_N (N_of_ascii c + 32) else c.

Fixpoint lower (s : string) : string :=
  match s with
  | String c t => String (to_lower c) (lower t)
  | EmptyString => EmptyString
  end.

Definition split_sign (s : string) : bool * string :=
  match s with
  | String "-" t => (true, t)
  | String "+" t => (false, t)
  | _ => (false, s)
  end.

(** The exponent after [e]: an optional sign and at least one digit. *)
Definition parse_exponent (s : string) : option Z :=
  let '(neg, r) := split_sign s in
  if nonempty r && negb (nonempty (skip_digits r))
  then Some (if neg then - int_of_str r else int_of_str r)
  else None.

(** Digits, an optional point and digits, an optional exponent; at least
    one digit before the exponent; nothing may follow. *)
Definition parse_decimal (s : string) : option (Z * Z) :=
  let ip := digits_prefix s in
  let r1 := skip_digits s in
  let '(fp, r2) :=
    match r1 with
    | String "." t => (digits_prefix t, skip_digits t)
    | _ => (EmptyString, r1)
    end in
  if nonempty ip || nonempty fp then
    let mant := int_of_str (ip +:+ fp) in
    let e0 := - Z.of_nat (String.length fp) in
    match r2 with
    | EmptyString => Some (mant, e0)
    | String c t =>
        if Ascii.eqb c "e" || Ascii.eqb c "E"
        then option_map (fun e => (mant, e0 + e)) (parse_exponent t)
        else None
    end
  else None.

(** [float(s)] up to rounding: [None] is [ValueError]. *)
Definition float_of_str (s : string) : option float_lit :=
  match strip_underscores "000" (rstrip (lstrip s)) with
  | None => None
  | Some t =>
      let '(neg, r) := split_sign t in
      let low := lower r in
      if String.eqb low "inf" || String.eqb low "infinity" then Some (Lit_inf neg)
      else if String.eqb low "nan" then Some (Lit_nan neg)
      else option_map (fun '(m, e) => Lit_dec neg m e) (parse_decimal r)
  end.

(** The part of the Python runtime that the sources call and do not
    define: double precision arithmetic and [eval].  [py_eval s] is
    [str(eval(s))], or the message of the exception it raised.  Of the
    doubles the model keeps three facts about zero, and that [str] of a
    float has no capital letter. *)
Class Runtime := {
  float : Type;
  float_of_lit : float_lit -> float;
  float_of_int : Z -> float;
  float_sum : list float -> float;
  float_div : float -> float -> float;
  float_eqb : float -> float -> bool;
  float_ltb : float -> float -> bool;
  float_leb : float -> float -> bool;
  float_str : float -> string;
  py_eval : string -> string + string;
  float_zero_lit : forall neg e,
    float_eqb (float_of_lit (Lit_dec neg 0 e)) (float_of_int 0) = true;
  float_zero_int : float_eqb (float_of_int 0) (float_of_int 0) = true;
  float_small_lit : forall neg m, 0 < m < 2 ^ 53 ->
    float_eqb (float_of_lit (Lit_dec neg m 0)) (float_of_int 0) = false;
  float_str_lower : forall v,
    all_chars (fun c => negb (is_upper c)) (float_str v) = true
}.

(** ** Aggregate functions *)

Section Evaluator.
Context `{RT : Runtime}.

(** [float(cell.text() or 0)] *)
Definition float_or_zero (t : string) : outcome float :=
  if nonempty t then
    match float_of_str t with
    | Some l => Returned (float_of_lit l)
    | None => Raised ValueError
    end
  else Returned (float_of_int 0).

(** [[float(cell.text() or 0) for cell in cells]] *)
Fixpoint cell_values (cells : list (Z * Z)) : M (list float) :=
  match cells with
  | [] => ret []
  | c :: r =>
      let* t := text c in
      let* v := lift (float_or_zero t) in
      let* vs := cell_values r in
      ret (v :: vs)
  end.

(** [x / n] for a float and an integer *)
Definition truediv (x : float) (n : Z) : outcome float :=
  if n =? 0 then Raised ZeroDivisionError
  else Returned (float_div x (float_of_int n)).

(** [min(values)] and [max(values)] on a list with first element [v0] *)
Definition py_min (v0 : float) (rest : list float) : float :=
  fold_left (fun m v => if float_ltb v m then v else m) rest v0.
Definition py_max (v0 : float) (rest : list float) : float :=
  fold_left (fun m v => if float_ltb m v then v else m) rest v0.

(** [v != 0] *)
Definition nonzero (v : float) : bool := negb (float_eqb v (float_of_int 0)).

Fixpoint upper_prefix (s : string) : string :=
  match s with
  | String c t => if is_upper c then String c (upper_prefix t) else EmptyString
  | EmptyString => EmptyString
  end.

Fixpoint skip_upper (s : string) : string :=
  match s with
  | String c t => if is_upper c then skip_upper t else s
  | EmptyString => EmptyString
  end.

(** The text up to the first line feed: what the dot of the pattern can
    range over. *)
Fixpoint line_prefix (s : string) : string :=
  match s with
  | String c t => if Ascii.eqb c "010" then EmptyString else String c (line_prefix t)
  | EmptyString => EmptyString
  end.

(** The text before the last occurrence of [c], if there is one. *)
Fixpoint before_last (c : ascii) (s : string) : option string :=
  match s with
  | EmptyString => None
  | String x t =>
      match before_last c t with
      | Some r => Some (String x r)
      | None => if Ascii.eqb x c then Some EmptyString else None
      end
  end.

(** [re.match] of [formula] against capitals, an opening parenthesis, any
    text and a closing parenthesis: the greedy middle group ends at the
    last closing parenthesis of the first line. *)
Definition match_function (formula : string) : option (string * string) :=
  let name := upper_prefix formula in
  if nonempty name then
    match skip_upper formula with
    | String "(" t => option_map (fun r => (name, r)) (before_last ")" (line_prefix t))
    | _ => None
    end
  else None.

(** The body of the [try] of [handle_special_function]; [None] is the
    Python [None] of a function that ends without [return]. *)
Definition aggregate (func_name range_str : string) : M (option string) :=
  let* cells := get_cells_in_range range_str in
  let* values := cell_values cells in
  match values with
  | [] => ret (Some "0")
  | v0 :: rest =>
      if String.eqb func_name "SUM" then ret (Some (float_str (float_sum values)))
      else if String.eqb func_name "AVERAGE" then
        let* q := lift (truediv (float_sum values) (Z.of_nat (length values))) in
        ret (Some (float_str q))
      else if String.eqb func_name "MIN" then ret (Some (float_str (py_min v0 rest)))
      else if String.eqb func_name "MAX" then ret (Some (float_str (py_max v0 rest)))
      else if String.eqb func_name "COUNT" then
        ret (Some (str_int (Z.of_nat (length (List.filter nonzero values)))))
      else ret None
  end.

(** [handle_special_function(formula)] *)
Definition handle_special_function (formula : string) : M (option string) :=
  match match_function formula with
  | None => ret (Some "ERROR: Invalid function format")
  | Some (func_name, range_str) =>
      try_except (aggregate func_name range_str)
        (fun _ => ret (Some ("ERROR: Invalid " +:+ func_name +:+ " range")))
  end.

(** ** General arithmetic formulas *)

(** [re.findall(r'[A-Z]\d+', formula)].  After a match the scan goes on
    behind its digits; going on behind its letter finds the same matches,
    since no digit starts one. *)
Fixpoint findall_refs (s : string) : list string :=
  match s with
  | EmptyString => []
  | String c t =>
      if is_upper c && nonempty (digits_prefix t)
      then String c (digits_prefix t) :: findall_refs t
      else findall_refs t
  end.

(** [s.replace(old, new)] for a non-empty [old]: occurrences are taken
    left to right and do not overlap; [skip] counts the characters of the
    occurrence just replaced that are still to be passed over. *)
Fixpoint replace_from (skip : nat) (old new s : string) : string :=
  match s with
  | EmptyString => EmptyString
  | String c t =>
      match skip with
      | S k => replace_from k old new t
      | O =>
          if String.prefix old s
          then new +:+ replace_from (Nat.pred (String.length old)) old new t
          else String c (replace_from O old new t)
      end
  end.

Definition replace (old new s : string) : string := replace_from O old new s.

(** The loop of [replace_cell_references]. *)
Fixpoint replace_loop (refs : list string) (formula : string) : M string :=
  match refs with
  | [] => ret formula
  | cell_ref :: rest =>
      let* cell_item := get_cell_from_id cell_ref in
      let* cell_value :=
        match cell_item with
        | Some it => text it
        | None => ret "0"
        end in
      match float_of_str cell_value with
      | None => ret "ERROR: Invalid cell reference"
      | Some l =>
          replace_loop rest (replace cell_ref (float_str (float_of_lit l)) formula)
      end
  end.

(** [replace_cell_references(formula)] *)
Definition replace_cell_references (formula : string) : M string :=
  replace_loop (findall_refs formula) formula.

Definition allowed_char (c : ascii) : bool :=
  is_digit c || existsb (Ascii.eqb c) ["+"; "-"; "*"; "/"; "("; ")"; " "; "."]%char.

Definition is_aggregate (formula : string) : bool :=
  existsb (fun p => String.prefix p formula)
    ["SUM("; "AVERAGE("; "MIN("; "MAX("; "COUNT("].

(** [evaluate_formula(formula)] *)
Definition evaluate_formula (formula : string) : M (option string) :=
  match formula with
  | String "=" formula1 =>
      if is_aggregate formula1 then handle_special_function formula1
      else
        let* formula2 := replace_cell_references formula1 in
        if String.prefix "ERROR" formula2 then ret (Some formula2)
        else if negb (all_chars allowed_char formula2)
        then ret (Some "ERROR: Invalid characters in formula")
        else match py_eval formula2 with
             | inl result => ret (Some result)
             | inr e => ret (Some ("ERROR: Invalid formula (" +:+ e +:+ ")"))
             end
  | _ => ret (Some formula)
  end.

(** ** Validation rules *)

Record validation := {
  v_type : string;
  v_min : option string;
  v_max : option string
}.

(** [float(v) if v else float(inf)]: [None] and the empty string are
    false. *)
Definition bound_or (inf : float_lit) (v : option string) : option float_lit :=
  match v with
  | Some s => if nonempty s then float_of_str s else Some inf
  | None => Some inf
  end.

(** [validate_cell_input(item)]; the item is given by its row, column and
    text, the current sheet by its [cell_validations]. *)
Definition validate_cell_input
    (it : option (Z * Z * string))
    (sheet : option (gmap string validation)) : outcome bool :=
  match it, sheet with
  | None, _ => Returned true
  | _, None => Returned true
  | Some (row, col, value), Some cell_validations =>
      match get_cell_id row col with
      | Raised e => Raised e
      | Returned cell_id =>
          match cell_validations !! cell_id with
          | None => Returned true
          | Some validation =>
              if String.eqb (v_type validation) "Number Only" then
                match float_of_str value with
                | Some _ => Returned true
                | None => Returned false
                end
              else if String.eqb (v_type validation) "Text Only" then
                match float_of_str value with
                | Some _ => Returned false
                | None => Returned true
                end
              else if String.eqb (v_type validation) "Custom Range" then
                match float_of_str value with
                | None => Returned false
                | Some num =>
                    match bound_or (Lit_inf true) (v_min validation) with
                    | None => Returned false
                    | Some lo =>
                        match bound_or (Lit_inf false) (v_max validation) with
                        | None => Returned false
                        | Some hi =>
                            Returned
                              (float_leb (float_of_lit lo) (float_of_lit num)
                               && float_leb (float_of_lit num) (float_of_lit hi))
                        end
                    end
                end
              else Returned true
          end
      end
  end.

End Evaluator.

(** ** Table regions *)

Record table := {
  start_row : Z;
  start_col : Z;
  rows : Z;
  cols : Z
}.

Definition in_table (current_row current_col : Z) (t : table) : bool :=
  (start_row t <=? current_row) && (current_row <? start_row t + rows t)
  && (start_col t <=? current_col) && (current_col <? start_col t + cols t).

(** [data.sort(key=...)]: a stable ascending sort, the keys compared by
    [<] on strings ([String.ltb]: by code point, the first difference
    decides).  [sort_by] inserts each row in front of the sorted rows that
    come after it, behind those with a strictly smaller key. *)
Fixpoint insert_by {A} (key : A -> string) (x : A) (l : list A) : list A :=
  match l with
  | [] => [x]
  | y :: r => if String.ltb (key y) (key x) then y :: insert_by key x r else x :: l
  end.

Definition sort_by {A} (key : A -> string) (l : list A) : list A :=
  foldr (insert_by key) [] l.

(** [item.text() if item else ""] for one data row. *)
Definition read_row (g : grid) (t : table) (row : Z) : list string :=
  map (fun col => default EmptyString (g !! (start_row t + row + 1, start_col t + col)))
      (py_range 0 (cols t)).

(** The data rows: all rows of the table but the first. *)
Definition read_data (g : grid) (t : table) : list (list string) :=
  map (read_row g t) (py_range 0 (rows t - 1)).

(** [x[col_to_sort]]; the index is within every row read by [read_row]
    when the current column lies in the table. *)
Definition pivot (col_to_sort : Z) (x : list string) : string :=
  nth (Z.to_nat col_to_sort) x EmptyString.

(** The nested [enumerate] loops that write the rows back. *)
Fixpoint write_row (t : table) (row col : Z) (row_data : list string) (g : grid) : grid :=
  match row_data with
  | [] => g
  | cell_data :: r =>
      write_row t row (col + 1) r
        (<[(start_row t + row + 1, start_col t + col) := cell_data]> g)
  end.

Fixpoint write_data (t : table) (row : Z) (data : list (list string)) (g : grid) : grid :=
  match data with
  | [] => g
  | row_data :: r => write_data t (row + 1) r (write_row t row 0 row_data g)
  end.

(** [sort_table()]: the table is the first one that holds the current
    cell; without one the grid is left as it is. *)
Definition sort_table (tables : list table) (current_row current_col : Z) (g : grid) : grid :=
  match List.find (in_table current_row current_col) tables with
  | None => g
  | Some t =>
      let col_to_sort := current_col - start_col t in
      let data := read_data g t in
      write_data t 0 (sort_by (pivot col_to_sort) data) g
  end.

(** ** A runtime to run the model on

    Doubles restricted to integers, which is what they are on cell texts
    that are integers of at most fifteen digits; [eval] is left out. *)
#[refine] Instance int_runtime : Runtime := {|
  float := Z;
  float_of_lit l :=
    match l with
    | Lit_dec neg m e =>
        let v := if 0 <=? e then m * 10 ^ e else m / 10 ^ (- e) in
        if neg then - v else v
    | _ => 0
    end;
  float_of_int n := n;
  float_sum vs := fold_left Z.add vs 0;
  float_div := Z.div;
  float_eqb := Z.eqb;
  float_ltb := Z.ltb;
  float_leb := Z.leb;
  float_str v := str_int v +:+ ".0";
  py_eval _ := inr "eval is not part of this runtime"
|}.
Proof.
  - intros neg e. destruct neg, (0 <=? e); reflexivity.
  - reflexivity.
  - intros neg m Hm. change (0 <=? 0) with true. cbv iota.
    change (10 ^ 0) with 1. rewrite Z.mul_1_r.
    destruct neg; apply Z.eqb_neq; cbv zeta; lia.
  - intros v.
    assert (H0 : forall d,
      all_chars (fun c => negb (is_upper c)) (NilEmpty.string_of_uint d +:+ ".0") = true)
      by (induction d; simpl; auto).
    assert (H1 : forall d,
      all_chars (fun c => negb (is_upper c)) (NilZero.string_of_uint d +:+ ".0") = true)
      by (destruct d; try reflexivity; apply H0).
    destruct v; [reflexivity | apply H1 | apply H1].
Defined.

(** ** Notions used by the statements *)

(** A capital letter followed by one or more digits, and nothing else. *)
Definition is_address (s : string) : bool :=
  match s with
  | String c t => is_upper c && nonempty t && all_chars is_digit t
  | EmptyString => false
  end.

(** Two addresses with a colon between them. *)
Definition well_formed_range (range_str : string) : bool :=
  match split_on ":" range_str with
  | [a; b] => is_address a && is_address b
  | _ => false
  end.

(** [sep.join(parts)] *)
Fixpoint join (sep : ascii) (parts : list string) : string :=
  match parts with
  | [] => EmptyString
  | [x] => x
  | x :: r => x +:+ String sep (join sep r)
  end.

Definition not_lf (c : ascii) : bool := negb (Ascii.eqb c "010").

(** The two coordinates a range names, when both ends decode. *)
Definition range_bounds (range_str : string) : option ((Z * Z) * (Z * Z)) :=
  match split_on ":" range_str with
  | [a; b] =>
      match decode a, decode b with
      | Some x, Some y => Some (x, y)
      | _, _ => None
      end
  | _ => None
  end.

(** The coordinates between two corners, rows first. *)
Definition cells_between (x y : Z * Z) : list (Z * Z) :=
  flat_map
    (fun row => map (fun col => (row, col))
                    (py_range (Z.min (snd x) (snd y)) (Z.max (snd x) (snd y) + 1)))
    (py_range (Z.min (fst x) (fst y)) (Z.max (fst x) (fst y) + 1)).

(** Row-major order on coordinates. *)
Definition coord_lt (p q : Z * Z) : Prop :=
  fst p < fst q \/ (fst p = fst q /\ snd p < snd q).

(** Within the normalized bounds of two corners. *)
Definition within (x y rc : Z * Z) : Prop :=
  Z.min (fst x) (fst y) <= fst rc <= Z.max (fst x) (fst y) /\
  Z.min (snd x) (snd y) <= snd rc <= Z.max (snd x) (snd y).

(** Creating an item where the grid has none. *)
Definition materialize (t : string) (g : grid) (rc : Z * Z) : grid :=
  match g !! rc with
  | Some _ => g
  | None => <[rc := t]> g
  end.

(** The grid after the range with corners [x] and [y] has been resolved:
    the two corners are looked up first, then every cell of the range. *)
Definition resolved (x y : Z * Z) (g : grid) : grid :=
  fold_left (materialize "0") (cells_between x y)
    (materialize "" (materialize "" g x) y).

(** The names [evaluate_formula] hands to [handle_special_function]. *)
Definition aggregate_names : list string :=
  ["SUM"; "AVERAGE"; "MIN"; "MAX"; "COUNT"].

(** The text an item at [rc] shows: empty when the grid has no item. *)
Definition cell_text (g : grid) (rc : Z * Z) : string :=
  default EmptyString (g !! rc).

(** The values the comprehension of [handle_special_function] collects
    from a list of cells, or the exception of the first cell that does
    not coerce. *)
Fixpoint values_of `{RT : Runtime} (g : grid) (cells : list (Z * Z)) : outcome (list float) :=
  match cells with
  | [] => Returned []
  | c :: r =>
      match float_or_zero (cell_text g c) with
      | Raised e => Raised e
      | Returned v =>
          match values_of g r with
          | Raised e => Raised e
          | Returned vs => Returned (v :: vs)
          end
      end
  end.

(** A grid whose cells A1, A2 and A3 hold 0, 5 and 0. *)
Definition grid_0_5_0 : grid :=
  <[(2, 0) := "0"]> (<[(1, 0) := "5"]> (<[(0, 0) := "0"]> ∅)).

(** Rows in ascending order of their keys, the keys compared as strings. *)
Definition key_le {A} (key : A -> string) (x y : A) : Prop :=
  String.le (key x) (key y).

(** A table of a header row and two data rows, and a grid that fills it;
    the current cell is in its first column. *)
Definition table_3_2 : table :=
  {| start_row := 0; start_col := 0; rows := 3; cols := 2 |}.

Definition grid_table : grid :=
  <[(2, 1) := "y"]> (<[(2, 0) := "10"]> (<[(1, 1) := "x"]> (<[(1, 0) := "2"]>
    (<[(0, 1) := "h2"]> (<[(0, 0) := "h1"]> ∅))))).

Definition number_only : validation :=
  {| v_type := "Number Only"; v_min := None; v_max := None |}.

(** A grid whose cells A1 and A12 hold 2 and 3. *)
Definition grid_A1_A12 : grid := <[(11, 0) := "3"]> (<[(0, 0) := "2"]> ∅).

(** The error outcomes of evaluating the formula [= f1] in the grid [g]:
    a malformed aggregate call or range, a cell of the range or a
    referenced cell whose text is no number, a character that is not
    allowed, and a fault of the arithmetic evaluation. *)
Inductive evaluation_error `{RT : Runtime} (f1 : string) (g : grid) : Prop :=
  | malformed_call :
      is_aggregate f1 = true -> match_function f1 = None ->
      evaluation_error f1 g
  | malformed_range (name range_str : string) :
      is_aggregate f1 = true -> match_function f1 = Some (name, range_str) ->
      range_bounds range_str = None ->
      evaluation_error f1 g
  | non_numeric_cell (name range_str : string) (x y rc : Z * Z) (e : exn) :
      is_aggregate f1 = true -> match_function f1 = Some (name, range_str) ->
      range_bounds range_str = Some (x, y) -> within x y rc ->
      float_or_zero (cell_text g rc) = Raised e ->
      evaluation_error f1 g
  | non_numeric_reference (cell_ref : string) (rc : Z * Z) :
      is_aggregate f1 = false -> cell_ref ∈ findall_refs f1 ->
      decode cell_ref = Some rc -> float_of_str (cell_text g rc) = None ->
      evaluation_error f1 g
  | disallowed_character (f2 : string) (g1 : grid) :
      is_aggregate f1 = false ->
      replace_cell_references f1 g = (Returned f2, g1) ->
      all_chars allowed_char f2 = false ->
      evaluation_error f1 g
  | arithmetic_fault (f2 : string) (g1 : grid) (e : string) :
      is_aggregate f1 = false ->
      replace_cell_references f1 g = (Returned f2, g1) ->
      py_eval f2 = inr e ->
      evaluation_error f1 g.

(** ** Further notions used by the statements *)

(** The grid [g'] differs from [g] only by cells that [g] did not have
    and that hold the empty text or the text 0. *)
Definition only_created (g g' : grid) : Prop :=
  forall rc,
    g' !! rc = g !! rc \/
    (g !! rc = None /\ (g' !! rc = Some "" \/ g' !! rc = Some "0")).


Definition not_char (c : ascii) (x : ascii) : bool := negb (Ascii.eqb x c).

(** The runtime [RT] with another [eval]. *)
Definition with_eval (RT : Runtime) (ev : string -> string + string) : Runtime :=
  {| float := @float RT;
     float_of_lit := @float_of_lit RT;
     float_of_int := @float_of_int RT;
     float_sum := @float_sum RT;
     float_div := @float_div RT;
     float_eqb := @float_eqb RT;
     float_ltb := @float_ltb RT;
     float_leb := @float_leb RT;
     float_str := @float_str RT;
     py_eval := ev;
     float_zero_lit := @float_zero_lit RT;
     float_zero_int := @float_zero_int RT;
     float_small_lit := @float_small_lit RT;
     float_str_lower := @float_str_lower RT |}.

(** The grid after [get_cell_from_id] has looked up an end of a range:
    the end is created with the empty text when it decodes and is absent. *)
Definition touched (end_ : option (Z * Z)) (g : grid) : grid :=
  match end_ with
  | Some rc => materialize "" g rc
  | None => g
  end.

(** The grid after the two ends of a range have been looked up. *)
Definition ends_touched (range_str : string) (g : grid) : grid :=
  match split_on ":" range_str with
  | [a; b] => touched (decode b) (touched (decode a) g)
  | _ => g
  end.

(** What [handle_special_function] computes from the collected values. *)
Definition finish_aggregate `{RT : Runtime} (func_name : string)
    (values : outcome (list float)) : outcome (option string) :=
  match values with
  | Raised e => Raised e
  | Returned [] => Returned (Some "0")
  | Returned (v0 :: rest) =>
      if String.eqb func_name "SUM"
      then Returned (Some (float_str (float_sum (v0 :: rest))))
      else if String.eqb func_name "AVERAGE" then
        match truediv (float_sum (v0 :: rest)) (Z.of_nat (length (v0 :: rest))) with
        | Returned q => Returned (Some (float_str q))
        | Raised e => Raised e
        end
      else if String.eqb func_name "MIN" then Returned (Some (float_str (py_min v0 rest)))
      else if String.eqb func_name "MAX" then Returned (Some (float_str (py_max v0 rest)))
      else if String.eqb func_name "COUNT" then
        Returned (Some (str_int (Z.of_nat (length (List.filter nonzero (v0 :: rest))))))
      else Returned None
  end.

(** [int(s)] for a string: white space around, an optional sign, decimal
    digits that single underscores may separate.  [None] is
    [ValueError]. *)
Definition py_int (s : string) : option Z :=
  let '(neg, r) := split_sign (rstrip (lstrip s)) in
  match strip_underscores "000" r with
  | Some d =>
      if nonempty d && all_chars is_digit d
      then Some (if neg then - int_of_str d else int_of_str d)
      else None
  | None => None
  end.

(** The decoding of a saved cell id in [open_file]:
    [col = ord(cell_id[0]) - 65] and [row = int(cell_id[1:]) - 1].
    [None] is the [IndexError] or [ValueError] that [open_file] catches. *)
Definition open_cell_id (cell_id : string) : option (Z * Z) :=
  match cell_id with
  | EmptyString => None
  | String c t => option_map (fun n => (n - 1, ord c - 65)) (py_int t)
  end.

(** Digits without a leading zero, or the single digit 0. *)
Definition canonical_digits (ds : string) : bool :=
  match ds with
  | String c t => (negb (Ascii.eqb c "0") || negb (nonempty t)) && all_chars is_digit ds
  | EmptyString => false
  end.

(** What may follow an address: anything that does not go on with a
    digit. *)
Definition no_digit_first (s : string) : bool :=
  match s with
  | String c _ => negb (is_digit c)
  | EmptyString => true
  end.

(** ** Clipboard *)

(** One entry of [self.clipboard]: the position and the text of a copied
    item.  Fonts and backgrounds are not part of the grid. *)
Record clip := {
  clip_row : Z;
  clip_col : Z;
  clip_text : string
}.

(** [self.spreadsheet.selectedItems()]: the items of the selected cells,
    in the order the widget reports the cells; a selected cell without an
    item contributes none. *)
Definition selectedItems (selection : list (Z * Z)) (g : grid) : list (Z * Z) :=
  filter (fun rc => is_Some (g !! rc)) selection.

(** [copy_cells()]: the new value of [self.clipboard]. *)
Definition copy_cells (selection : list (Z * Z)) (g : grid) : list clip :=
  map (fun it => {| clip_row := fst it; clip_col := snd it; clip_text := cell_text g it |})
      (selectedItems selection g).

(** Where [paste_cells] starts: the first selected item, or the current
    cell when no item is selected; [None] when there is no current cell. *)
Definition paste_base (selection : list (Z * Z)) (current_row current_col : Z)
    (g : grid) : option (Z * Z) :=
  match selectedItems selection g with
  | [] =>
      if (current_row <? 0) || (current_col <? 0) then None
      else Some (current_row, current_col)
  | top_left :: _ => Some top_left
  end.

(** The body of the loop of [paste_cells]; [first] is
    [self.clipboard[0]]. *)
Definition paste_cell (rowCount columnCount : Z) (first : clip) (base : Z * Z)
    (g : grid) (cell : clip) : grid :=
  let row_offset := clip_row cell - clip_row first in
  let col_offset := clip_col cell - clip_col first in
  let new_row := fst base + row_offset in
  let new_col := snd base + col_offset in
  if (0 <=? new_row) && (new_row <? rowCount) && (0 <=? new_col) && (new_col <? columnCount)
  then <[(new_row, new_col) := clip_text cell]> g
  else g.

(** [paste_cells()]; the clipboard is [None] until the first copy. *)
Definition paste_cells (clipboard : option (list clip)) (selection : list (Z * Z))
    (current_row current_col rowCount columnCount : Z) (g : grid) : grid :=
  match clipboard with
  | None | Some [] => g
  | Some ((first :: _) as cells) =>
      match paste_base selection current_row current_col g with
      | None => g
      | Some base => fold_left (paste_cell rowCount columnCount first base) cells g
      end
  end.

(** [cut_cells()]: the new clipboard and the grid with the text of every
    selected item set to the empty text. *)
Definition cut_cells (selection : list (Z * Z)) (g : grid) : list clip * grid :=
  (copy_cells selection g,
   fold_left (fun g' it => <[it := EmptyString]> g') (selectedItems selection g) g).

(** The cell that [paste_cells] writes a copied cell to. *)
Definition paste_target (first base rc : Z * Z) : Z * Z :=
  (fst base + (fst rc - fst first), snd base + (snd rc - snd first)).

(** Within a sheet of the given numbers of rows and columns. *)
Definition in_sheet (rowCount columnCount : Z) (rc : Z * Z) : Prop :=
  0 <= fst rc < rowCount /\ 0 <= snd rc < columnCount.

(** A grid with the items A1, B1 and A2, and a selection of its first two
    rows and columns. *)
Definition grid_clip : grid :=
  <[(1, 0) := "c"]> (<[(0, 1) := "b"]> (<[(0, 0) := "a"]> ∅)).

Definition selection_2_2 : list (Z * Z) := [(0, 0); (0, 1); (1, 0); (1, 1)].

(** ** Saved sheets *)

(** [d[k] = v] on a dict, held as the list of its entries in the order
    of their insertion: an entry with the key keeps its place. *)
Fixpoint dict_set {A} (k : string) (v : A) (d : list (string * A)) : list (string * A) :=
  match d with
  | [] => [(k, v)]
  | (k', v') :: r =>
      if String.eqb k' k then (k', v) :: r else (k', v') :: dict_set k v r
  end.

(** The cells that the two loops of [save_file] and of
    [has_unsaved_changes] go through, rows first. *)
Definition sheet_cells (rowCount columnCount : Z) : list (Z * Z) :=
  flat_map (fun row => map (fun col => (row, col)) (py_range 0 columnCount))
           (py_range 0 rowCount).

Section Files.

(** Whether the background of the item at a cell has a valid colour. *)
Variable background_valid : Z * Z -> bool.

(** The body of the loops of [save_file] over one sheet; of the saved
    entry of a cell only its text is kept here. *)
Definition save_cell (g : grid) (cells : list (string * string)) (rc : Z * Z)
    : outcome (list (string * string)) :=
  match g !! rc with
  | Some t =>
      if nonempty t || background_valid rc then
        match get_cell_id (fst rc) (snd rc) with
        | Returned cell_id => Returned (dict_set cell_id t cells)
        | Raised e => Raised e
        end
      else Returned cells
  | None => Returned cells
  end.

Fixpoint save_loop (g : grid) (todo : list (Z * Z)) (cells : list (string * string))
    : outcome (list (string * string)) :=
  match todo with
  | [] => Returned cells
  | rc :: r =>
      match save_cell g cells rc with
      | Returned cells' => save_loop g r cells'
      | Raised e => Raised e
      end
  end.

(** [sheet_data['cells']] as [save_file] fills it for one sheet. *)
Definition save_cells (rowCount columnCount : Z) (g : grid)
    : outcome (list (string * string)) :=
  save_loop g (sheet_cells rowCount columnCount) [].

End Files.

(** The loop of [open_file] that restores the cells of one sheet into
    the grid of the new sheet; [None] is the exception of a cell id that
    does not decode, at which the loading stops. *)
Fixpoint open_cells (cells : list (string * string)) (g : grid) : option grid :=
  match cells with
  | [] => Some g
  | (cell_id, cell_text) :: r =>
      match open_cell_id cell_id with
      | Some (row, col) => open_cells r (<[(row, col) := cell_text]> g)
      | None => None
      end
  end.

(** The id of a cell in a column whose character is in the alphabet. *)
Definition cell_key (rc : Z * Z) : string :=
  String (ascii_of_N (Z.to_N (65 + snd rc))) (str_int (fst rc + 1)).

(** The cells that [save_file] writes, with their texts. *)
Definition saved (background_valid : Z * Z -> bool) (g : grid) (todo : list (Z * Z))
    : list ((Z * Z) * string) :=
  omap (fun rc =>
          match g !! rc with
          | Some t => if nonempty t || background_valid rc then Some (rc, t) else None
          | None => None
          end) todo.

(** ** Creating a table *)

(** The keys of [self.table_styles]. *)
Definition table_styles : list string := ["Simple"; "Striped"; "Professional"].

(** The loop that writes the header row. *)
Definition create_header (start_row start_col cols : Z) (g : grid) : grid :=
  fold_left
    (fun g' col => <[(start_row, start_col + col) := "Header " +:+ str_int (col + 1)]> g')
    (py_range 0 cols) g.

(** The loops that write the data cells. *)
Definition create_data (start_row start_col rows cols : Z) (g : grid) : grid :=
  fold_left
    (fun g' row =>
       fold_left (fun g'' col => <[(start_row + row + 1, start_col + col) := "Data"]> g'')
                 (py_range 0 cols) g')
    (py_range 0 (rows - 1)) g.

(** [create_table(start_row, start_col, rows, cols, style)]: the tables
    of the sheet and its grid afterwards.  [None] is the [KeyError] of a
    style that [table_styles] does not have; the style decides colours
    only, which are not part of the grid. *)
Definition create_table (start_row start_col rows cols : Z) (style : string)
    (tables : list table) (g : grid) : option (list table * grid) :=
  if existsb (String.eqb style) table_styles then
    Some (tables ++ [{| start_row := start_row; start_col := start_col;
                        rows := rows; cols := cols |}],
          create_data start_row start_col rows cols
            (create_header start_row start_col cols g))
  else None.

(** ** Workbooks *)

(** A sheet: its numbers of rows and columns, the texts of its items,
    whether the background of the item at a cell has a valid colour, its
    tables and its validation rules. *)
Record Sheet := {
  rowCount : Z;
  columnCount : Z;
  items : grid;
  valid_background : Z * Z -> bool;
  tables : list table;
  cell_validations : gmap string validation
}.


(** The value of [sheet_data] in [save_file]. *)
Record sheet_data := {
  saved_cells : list (string * string);
  saved_tables : list table;
  saved_validations : gmap string validation
}.

(** One turn of the loop of [save_file] over the tabs: the new values of
    [sheet_name] and [sheet_data]. *)
Definition save_sheet (tab : string * Sheet) : outcome (string * sheet_data) :=
  let '(sheet_name, sheet) := tab in
  match save_cells (valid_background sheet) (rowCount sheet) (columnCount sheet)
          (items sheet) with
  | Returned cells =>
      Returned (sheet_name,
                {| saved_cells := cells;
                   saved_tables := tables sheet;
                   saved_validations := cell_validations sheet |})
  | Raised e => Raised e
  end.

(** The loop over the tabs; [last] holds [sheet_name] and [sheet_data],
    which are unbound before the first turn. *)
Fixpoint save_tabs (tabs : list (string * Sheet)) (last : option (string * sheet_data))
    : outcome (option (string * sheet_data)) :=
  match tabs with
  | [] => Returned last
  | tab :: r =>
      match save_sheet tab with
      | Returned named => save_tabs r (Some named)
      | Raised e => Raised e
      end
  end.

(** [save_file()] once the file name is known: the value of
    [data['sheets']] that is written to the file.  The assignment
    [data['sheets'][sheet_name] = sheet_data] stands behind the loop over
    the tabs, not in it.  [None] is an exception, which [save_file]
    reports without writing the file: one raised in the loop, or the
    [NameError] of [sheet_name] when there is no tab. *)
Definition save_file (tabs : list (string * Sheet)) : option (list (string * sheet_data)) :=
  match save_tabs tabs None with
  | Returned (Some (sheet_name, data)) => Some (dict_set sheet_name data [])
  | Returned None => None
  | Raised _ => None
  end.

(** A workbook of two sheets. *)
Definition sheet_clip : Sheet :=
  {| rowCount := 2; columnCount := 2; items := grid_clip;
     valid_background := fun _ => false; tables := []; cell_validations := ∅ |}.

Definition sheet_table : Sheet :=
  {| rowCount := 3; columnCount := 2; items := grid_table;
     valid_background := fun _ => false; tables := [table_3_2]; cell_validations := ∅ |}.

(** ** Substitution of all references at once *)

(** Every capital of the text begins a reference: a digit follows it. *)
Fixpoint capitals_begin_refs (s : string) : bool :=
  match s with
  | EmptyString => true
  | String c t =>
      (negb (is_upper c) || nonempty (digits_prefix t)) && capitals_begin_refs t
  end.

(** No reference is the beginning of another, longer one. *)
Definition prefix_free (refs : list string) : Prop :=
  forall a b, a ∈ refs -> b ∈ refs -> String.prefix a b = true -> a = b.

(** The text with every reference replaced by its value, in one pass from
    left to right; [skip] counts the digits of the reference just
    replaced that are still to be passed over. *)
Fixpoint substitute (value : string -> string) (skip : nat) (s : string) : string :=
  match s with
  | EmptyString => EmptyString
  | String c t =>
      match skip with
      | S k => substitute value k t
      | O =>
          if is_upper c && nonempty (digits_prefix t)
          then value (String c (digits_prefix t))
               +:+ substitute value (String.length (digits_prefix t)) t
          else String c (substitute value O t)
      end
  end.

(** The text that [replace_cell_references] puts in the place of a
    reference to a cell that holds a number. *)
Definition cell_value `{RT : Runtime} (g : grid) (cell_ref : string) : string :=
  match decode cell_ref with
  | Some rc =>
      match float_of_str (cell_text g rc) with
      | Some l => float_str (float_of_lit l)
      | None => cell_ref
      end
  | None => cell_ref
  end.

(** A text cut into its references and what lies between them. *)
Inductive piece : Set :=
  | Plain (p : string)
  | Ref (r : string).

Definition piece_text (p : piece) : string :=
  match p with Plain s => s | Ref s => s end.

Fixpoint flat (ps : list piece) : string :=
  match ps with
  | [] => EmptyString
  | p :: r => piece_text p +:+ flat r
  end.

Fixpoint pieces (skip : nat) (s : string) : list piece :=
  match s with
  | EmptyString => []
  | String c t =>
      match skip with
      | S k => pieces k t
      | O =>
          if is_upper c && nonempty (digits_prefix t)
          then Ref (String c (digits_prefix t)) :: pieces (String.length (digits_prefix t)) t
          else Plain (String c EmptyString) :: pieces O t
      end
  end.

(** One reference turned into its value, and all of them. *)
Definition resolve_one (old new : string) (p : piece) : piece :=
  match p with
  | Ref r => if String.eqb r old then Plain new else p
  | Plain _ => p
  end.

Definition resolve_all (value : string -> string) (p : piece) : piece :=
  match p with
  | Ref r => Plain (value r)
  | Plain _ => p
  end.

Definition no_capital (s : string) : bool :=
  all_chars (fun c => negb (is_upper c)) s.

Fixpoint drop_chars (k : nat) (s : string) : string :=
  match k, s with
  | S k', String _ t => drop_chars k' t
  | _, _ => s
  end.

(** A grid whose cells A1 and B2 hold 2 and 3. *)
Definition grid_A1_B2 : grid := <[(1, 1) := "3"]> (<[(0, 0) := "2"]> ∅).
(** ** Decimal conversions agree *)

Lemma int_digits_acc (d : Decimal.uint) (acc : positive) :
  int_digits (Z.pos acc) (NilEmpty.string_of_uint d) = Z.pos (Pos.of_uint_acc d acc).
Proof.
  revert acc; induction d; intros acc; simpl; try reflexivity;
    rewrite <- IHd; f_equal; unfold ord; simpl; lia.
Qed.

Lemma int_digits_of_uint (d : Decimal.uint) :
  int_digits 0 (NilEmpty.string_of_uint d) = Z.of_N (Pos.of_uint d).
Proof.
  induction d; simpl; try reflexivity; try assumption;
    apply int_digits_acc.
Qed.

Lemma is_digit_string_of_uint (d : Decimal.uint) :
  digits_prefix (NilEmpty.string_of_uint d) = NilEmpty.string_of_uint d.
Proof. induction d; simpl; try reflexivity; now rewrite IHd. Qed.

Lemma str_int_pos (p : positive) :
  str_int (Z.pos p) = NilEmpty.string_of_uint (Pos.to_uint p).
Proof.
  unfold str_int; simpl. unfold NilZero.string_of_uint.
  pose proof (Unsigned.to_uint_nonnil p) as Hn.
  destruct (Pos.to_uint p); [contradiction | reflexivity ..].
Qed.

Lemma int_of_str_str_int (n : Z) : 0 <= n -> int_of_str (str_int n) = n.
Proof.
  intros Hn. destruct n as [|p|p]; [reflexivity | | lia].
  rewrite str_int_pos. unfold int_of_str.
  rewrite int_digits_of_uint, Unsigned.of_to. reflexivity.
Qed.

Lemma digits_prefix_str_int (n : Z) : 0 <= n -> digits_prefix (str_int n) = str_int n.
Proof.
  intros Hn. destruct n as [|p|p]; [reflexivity | | lia].
  rewrite str_int_pos. apply is_digit_string_of_uint.
Qed.

Lemma nonempty_str_int (n : Z) : nonempty (str_int n) = true.
Proof.
  destruct n as [|p|p]; [reflexivity | | reflexivity].
  rewrite str_int_pos. pose proof (Unsigned.to_uint_nonnil p) as Hn.
  destruct (Pos.to_uint p); [contradiction | reflexivity ..].
Qed.

(** ** Characters *)

Lemma ord_ascii_of_N (k : Z) : 0 <= k < 256 -> ord (ascii_of_N (Z.to_N k)) = k.
Proof.
  intros Hk. unfold ord. rewrite N_ascii_embedding by lia. lia.
Qed.

Lemma chr_latin1 (k : Z) : 0 <= k < 256 -> chr k = Returned (ascii_of_N (Z.to_N k)).
Proof.
  intros Hk. unfold chr.
  destruct (k <? 0) eqn:E1; [lia|]. destruct (1114111 <? k) eqn:E2; [lia|].
  destruct (k <? 256) eqn:E3; [reflexivity | lia].
Qed.

Lemma get_cell_id_latin1 (row col : Z) :
  -65 <= col <= 190 ->
  get_cell_id row col = Returned (String (ascii_of_N (Z.to_N (65 + col))) (str_int (row + 1))).
Proof. intros Hc. unfold get_cell_id. rewrite chr_latin1 by lia. reflexivity. Qed.

Lemma decode_letter_digits (c : ascii) (n : Z) :
  is_upper c = true -> 0 <= n -> decode (String c (str_int n)) = Some (n - 1, ord c - 65).
Proof.
  intros Hc Hn. unfold decode.
  rewrite Hc, digits_prefix_str_int, nonempty_str_int, int_of_str_str_int by assumption.
  reflexivity.
Qed.

(** ** Address codec: round trip *)

(** C1. For every row >= 0 and column in [0,25], [get_cell_id] returns an
    address, and the address decodes to the same coordinate: [decode]
    answers [(row, column)], and [get_cell_from_id] hands out the item at
    that coordinate in every grid. *)
Theorem decode_get_cell_id (row col : Z) :
  0 <= row -> 0 <= col <= 25 ->
  exists cell_id,
    get_cell_id row col = Returned cell_id /\
    decode cell_id = Some (row, col) /\
    forall g : grid, fst (get_cell_from_id cell_id g) = Returned (Some (row, col)).
Proof.
  intros Hr Hc. eexists. split; [apply get_cell_id_latin1; lia|].
  assert (Hd : decode (String (ascii_of_N (Z.to_N (65 + col))) (str_int (row + 1)))
               = Some (row, col)).
  { rewrite decode_letter_digits.
    - rewrite ord_ascii_of_N by lia. f_equal. f_equal; lia.
    - unfold is_upper. rewrite ord_ascii_of_N by lia. lia.
    - lia. }
  split; [exact Hd|].
  intros g. unfold get_cell_from_id. rewrite Hd.
  unfold bind, item, setItem, ret. destruct (g !! (row, col)); reflexivity.
Qed.

Lemma decode_get_cell_id_witness :
  exists cell_id,
    get_cell_id 11 2 = Returned cell_id /\
    decode cell_id = Some (11, 2) /\
    forall g : grid, fst (get_cell_from_id cell_id g) = Returned (Some (11, 2)).
Proof. apply (decode_get_cell_id 11 2); lia. Defined.

(** ** Address codec: no range check *)

(** C7, as the claim states it, fails: column 26 is encoded and nothing is
    raised. *)
Lemma get_cell_id_column_26 : get_cell_id 0 26 = Returned "[1".
Proof. reflexivity. Qed.

(** C7, amended. For every row >= 0 and column in [0,25], [get_cell_id]
    returns the column letter followed by row + 1.  There is no range
    check: for every column in [26,190] it returns a string as well, the
    character of code 65 + column, which is no capital letter, followed
    by row + 1. *)
Theorem get_cell_id_unchecked (row col : Z) :
  0 <= row -> 0 <= col <= 190 ->
  exists c,
    ord c = 65 + col /\
    is_upper c = (col <=? 25) /\
    get_cell_id row col = Returned (String c (str_int (row + 1))).
Proof.
  intros Hr Hc. exists (ascii_of_N (Z.to_N (65 + col))).
  split; [apply ord_ascii_of_N; lia|].
  split; [|apply get_cell_id_latin1; lia].
  unfold is_upper. rewrite ord_ascii_of_N by lia.
  destruct (col <=? 25) eqn:E; lia.
Qed.

Lemma get_cell_id_unchecked_witness :
  exists c,
    ord c = 65 + 26 /\
    is_upper c = (26 <=? 25) /\
    get_cell_id 0 26 = Returned (String c (str_int (0 + 1))).
Proof. apply (get_cell_id_unchecked 0 26); lia. Defined.

(** ** Range resolution *)

Lemma get_cell_from_id_decode (s : string) (rc : Z * Z) (g : grid) :
  decode s = Some rc ->
  get_cell_from_id s g = (Returned (Some rc), materialize "" g rc).
Proof.
  intros Hd. unfold get_cell_from_id, materialize. rewrite Hd.
  unfold bind, item, setItem, ret. destruct (g !! rc); reflexivity.
Qed.

Lemma get_cell_from_id_no_match (s : string) (g : grid) :
  decode s = None -> get_cell_from_id s g = (Returned None, g).
Proof. intros Hd. unfold get_cell_from_id. rewrite Hd. reflexivity. Qed.

Lemma cell_or_zero_materialize (rc : Z * Z) (g : grid) :
  cell_or_zero rc g = (Returned [rc], materialize "0" g rc).
Proof.
  unfold cell_or_zero, materialize, bind, item, setItem, ret.
  destruct (g !! rc); reflexivity.
Qed.

Lemma collect_row (row : Z) (cs : list Z) (g : grid) :
  collect cs (fun col => cell_or_zero (row, col)) g =
  (Returned (map (fun col => (row, col)) cs),
   fold_left (materialize "0") (map (fun col => (row, col)) cs) g).
Proof.
  revert g; induction cs as [|c cs IH]; intros g; [reflexivity|].
  cbn [collect map fold_left]. unfold bind at 1.
  rewrite cell_or_zero_materialize. unfold bind at 1. rewrite IH. reflexivity.
Qed.

Lemma collect_rows (rs cs : list Z) (g : grid) :
  let cells := flat_map (fun row => map (fun col => (row, col)) cs) rs in
  collect rs (fun row => collect cs (fun col => cell_or_zero (row, col))) g =
  (Returned cells, fold_left (materialize "0") cells g).
Proof.
  revert g; induction rs as [|r rs IH]; intros g; [reflexivity|].
  cbn [collect flat_map]. unfold bind at 1. rewrite collect_row.
  unfold bind at 1. cbv zeta in IH. rewrite IH.
  unfold ret. rewrite fold_left_app. reflexivity.
Qed.

Lemma get_cells_in_range_bounds (range_str : string) (x y : Z * Z) (g : grid) :
  range_bounds range_str = Some (x, y) ->
  get_cells_in_range range_str g = (Returned (cells_between x y), resolved x y g).
Proof.
  unfold range_bounds, get_cells_in_range.
  destruct (split_on ":" range_str) as [|a [|b [|? ?]]]; try discriminate.
  destruct (decode a) as [x'|] eqn:Ha; [|discriminate].
  destruct (decode b) as [y'|] eqn:Hb; [|discriminate].
  intros [= -> ->].
  unfold bind at 1. rewrite (get_cell_from_id_decode a x) by assumption.
  unfold bind at 1. rewrite (get_cell_from_id_decode b y) by assumption.
  destruct x as [r1 c1], y as [r2 c2]. apply collect_rows.
Qed.

Lemma get_cells_in_range_raises (range_str : string) (g : grid) :
  range_bounds range_str = None ->
  exists e g', get_cells_in_range range_str g = (Raised e, g').
Proof.
  unfold range_bounds, get_cells_in_range.
  destruct (split_on ":" range_str) as [|a [|b [|? ?]]];
    try (intros _; eexists _, _; reflexivity).
  destruct (decode a) as [x|] eqn:Ha, (decode b) as [y|] eqn:Hb; try discriminate;
    intros _; unfold bind;
    rewrite ?(get_cell_from_id_decode _ _ _ Ha), ?(get_cell_from_id_no_match _ _ Ha);
    rewrite ?(get_cell_from_id_decode _ _ _ Hb), ?(get_cell_from_id_no_match _ _ Hb);
    try destruct x; try destruct y; eexists _, _; reflexivity.
Qed.

Lemma lookup_materialize (t : string) (g : grid) (rc rc' : Z * Z) :
  materialize t g rc !! rc' =
  match g !! rc' with
  | Some u => Some u
  | None => if decide (rc = rc') then Some t else None
  end.
Proof.
  unfold materialize. destruct (g !! rc) as [u|] eqn:E.
  - destruct (g !! rc') eqn:E'; [reflexivity|].
    case_decide; [congruence | reflexivity].
  - rewrite lookup_insert. case_decide as Heq.
    + subst rc'. rewrite E. reflexivity.
    + destruct (g !! rc'); reflexivity.
Qed.

Lemma lookup_fold_materialize (t : string) (l : list (Z * Z)) (g : grid) (rc : Z * Z) :
  fold_left (materialize t) l g !! rc =
  match g !! rc with
  | Some u => Some u
  | None => if decide (rc ∈ l) then Some t else None
  end.
Proof.
  revert g; induction l as [|a l IH]; intros g; cbn [fold_left].
  - destruct (g !! rc); [reflexivity|]. case_decide as H; [inversion H | reflexivity].
  - rewrite IH, lookup_materialize. destruct (g !! rc); [reflexivity|].
    destruct (decide (a = rc)) as [E1|E1], (decide (rc ∈ l)) as [E2|E2],
      (decide (rc ∈ a :: l)) as [E3|E3];
      try reflexivity; exfalso; apply E3 || (apply elem_of_cons in E3 as [E3|E3]);
      solve [ subst; constructor | now constructor | congruence | tauto ].
Qed.

Lemma elem_of_cells_between (x y rc : Z * Z) :
  rc ∈ cells_between x y <-> within x y rc.
Proof.
  unfold cells_between, within, py_range. destruct rc as [r c].
  rewrite list_elem_of_In, in_flat_map. split.
  - intros (row & Hrow & Hin). apply in_map_iff in Hin as (col & [= <- <-] & Hcol).
    apply list_elem_of_In, elem_of_seqZ in Hrow, Hcol. cbn. lia.
  - cbn. intros [Hr Hc]. exists r. split.
    + apply list_elem_of_In, elem_of_seqZ. lia.
    + apply in_map_iff. exists c. split; [reflexivity|].
      apply list_elem_of_In, elem_of_seqZ. lia.
Qed.

Lemma cells_between_corners (x y : Z * Z) :
  x ∈ cells_between x y /\ y ∈ cells_between x y.
Proof. rewrite !elem_of_cells_between. unfold within. lia. Qed.

Lemma cells_between_nonempty (x y : Z * Z) : cells_between x y <> [].
Proof.
  intros H. pose proof (cells_between_corners x y) as [Hx _].
  rewrite H in Hx. inversion Hx.
Qed.

Lemma StronglySorted_seqZ (m n : Z) : StronglySorted Z.lt (seqZ m n).
Proof.
  destruct (Z_le_gt_dec n 0) as [Hn|Hn]; [rewrite seqZ_nil by lia; constructor|].
  rewrite <- (Z2Nat.id n) by lia. generalize (Z.to_nat n) as k. clear.
  intros k; revert m; induction k as [|k IH]; intros m.
  - constructor.
  - rewrite seqZ_cons by lia. constructor.
    + replace (Z.pred (Z.of_nat (S k))) with (Z.of_nat k) by lia. apply IH.
    + apply Forall_seqZ. lia.
Qed.

Lemma StronglySorted_row_major (rs cs : list Z) :
  StronglySorted Z.lt rs -> StronglySorted Z.lt cs ->
  StronglySorted coord_lt (flat_map (fun row => map (fun col => (row, col)) cs) rs).
Proof.
  intros Hrs Hcs. induction Hrs as [|r rs Hrs IH Hall]; [constructor|].
  cbn [flat_map]. apply StronglySorted_app_2; [| | exact IH].
  - intros p q Hp Hq. apply list_elem_of_In, in_map_iff in Hp as (c1 & <- & _).
    apply list_elem_of_In, in_flat_map in Hq as (r' & Hr' & Hq).
    apply in_map_iff in Hq as (c2 & <- & _). left. cbn.
    rewrite Forall_forall in Hall. apply Hall, list_elem_of_In, Hr'.
  - clear -Hcs. induction Hcs as [|c cs' Hcs' IHc Hallc]; cbn [map]; constructor.
    + exact IHc.
    + apply Forall_forall. intros p Hp. apply list_elem_of_In, in_map_iff in Hp.
      destruct Hp as (c' & <- & Hc'). right. cbn. split; [reflexivity|].
      rewrite Forall_forall in Hallc. apply Hallc, list_elem_of_In, Hc'.
Qed.

Lemma StronglySorted_cells_between (x y : Z * Z) :
  StronglySorted coord_lt (cells_between x y).
Proof. apply StronglySorted_row_major; apply StronglySorted_seqZ. Qed.

(** ** Strings *)

Lemma split_on_cons (sep : ascii) (s : string) :
  exists h r, split_on sep s = h :: r.
Proof.
  induction s as [|c s (h & r & IH)]; cbn [split_on]; [eauto|].
  destruct (Ascii.eqb c sep); [eauto|]. rewrite IH. eauto.
Qed.

Lemma join_cons (sep : ascii) (c : ascii) (h : string) (r : list string) :
  join sep (String c h :: r) = String c (join sep (h :: r)).
Proof. destruct r; reflexivity. Qed.

Lemma join_split_on (sep : ascii) (s : string) : join sep (split_on sep s) = s.
Proof.
  induction s as [|c s IH]; cbn [split_on]; [reflexivity|].
  destruct (split_on_cons sep s) as (h & r & E). rewrite E in *.
  destruct (Ascii.eqb c sep) eqn:Ec.
  - apply Ascii.eqb_eq in Ec as ->.
    change (join sep (EmptyString :: h :: r)) with (String sep (join sep (h :: r))).
    rewrite IH. reflexivity.
  - rewrite join_cons, IH. reflexivity.
Qed.

Lemma split_on_two (sep : ascii) (s a b : string) :
  split_on sep s = [a; b] -> s = a +:+ String sep b.
Proof. intros E. rewrite <- (join_split_on sep s), E. reflexivity. Qed.

Lemma all_chars_app (p : ascii -> bool) (s t : string) :
  all_chars p (s +:+ t) = all_chars p s && all_chars p t.
Proof.
  induction s as [|c s IH]; simpl; [reflexivity|].
  rewrite IH. apply andb_assoc.
Qed.

Lemma all_chars_impl (p q : ascii -> bool) (s : string) :
  (forall c, p c = true -> q c = true) ->
  all_chars p s = true -> all_chars q s = true.
Proof.
  intros Hpq. induction s as [|c s IH]; cbn; [reflexivity|].
  intros [Hc Hs]%andb_prop. rewrite (Hpq c Hc), (IH Hs). reflexivity.
Qed.

Lemma digits_prefix_all (t : string) :
  all_chars is_digit t = true -> digits_prefix t = t.
Proof.
  induction t as [|c t IH]; cbn; [reflexivity|].
  intros [Hc Ht]%andb_prop. rewrite Hc, (IH Ht). reflexivity.
Qed.

Lemma is_upper_not_lf (c : ascii) : is_upper c = true -> not_lf c = true.
Proof.
  unfold not_lf. destruct (Ascii.eqb_spec c "010") as [->|]; [discriminate | reflexivity].
Qed.

Lemma is_digit_not_lf (c : ascii) : is_digit c = true -> not_lf c = true.
Proof.
  unfold not_lf. destruct (Ascii.eqb_spec c "010") as [->|]; [discriminate | reflexivity].
Qed.

Lemma line_prefix_no_lf (s : string) : all_chars not_lf s = true -> line_prefix s = s.
Proof.
  induction s as [|c s IH]; cbn; [reflexivity|].
  intros [Hc Hs]%andb_prop. unfold not_lf in Hc.
  destruct (Ascii.eqb c "010"); [discriminate|]. rewrite (IH Hs). reflexivity.
Qed.

Lemma before_last_snoc (c : ascii) (s : string) :
  before_last c (s +:+ String c EmptyString) = Some s.
Proof.
  induction s as [|x s IH]; simpl.
  - rewrite Ascii.eqb_refl. reflexivity.
  - rewrite IH. reflexivity.
Qed.

Lemma prefix_app (p s : string) :
  String.prefix p s = true -> exists r, s = p +:+ r.
Proof.
  revert s; induction p as [|c p IH]; intros [|c' s]; simpl; eauto; try discriminate.
  destruct (ascii_dec c c') as [<-|]; [|discriminate].
  intros (r & ->)%IH. eauto.
Qed.

(** ** Addresses and well-formed ranges *)

Lemma is_address_decode (a : string) :
  is_address a = true -> exists rc, decode a = Some rc.
Proof.
  destruct a as [|c t]; [discriminate|]. cbn [is_address decode].
  intros [[Hc Hn]%andb_prop Hd]%andb_prop.
  rewrite (digits_prefix_all t Hd), Hc, Hn. eauto.
Qed.

Lemma is_address_no_lf (a : string) :
  is_address a = true -> all_chars not_lf a = true.
Proof.
  destruct a as [|c t]; [discriminate|]. cbn [is_address all_chars].
  intros [[Hc Hn]%andb_prop Hd]%andb_prop.
  rewrite (is_upper_not_lf c Hc). apply (all_chars_impl is_digit); [|exact Hd].
  apply is_digit_not_lf.
Qed.

Lemma well_formed_range_bounds (range_str : string) :
  well_formed_range range_str = true ->
  exists x y, range_bounds range_str = Some (x, y).
Proof.
  unfold well_formed_range, range_bounds.
  destruct (split_on ":" range_str) as [|a [|b [|? ?]]]; try discriminate.
  intros [(x & ->)%is_address_decode (y & ->)%is_address_decode]%andb_prop. eauto.
Qed.

Lemma well_formed_range_no_lf (range_str : string) :
  well_formed_range range_str = true -> all_chars not_lf range_str = true.
Proof.
  unfold well_formed_range.
  destruct (split_on ":" range_str) as [|a [|b [|? ?]]] eqn:E; try discriminate.
  intros [Ha%is_address_no_lf Hb%is_address_no_lf]%andb_prop.
  rewrite (split_on_two _ _ _ _ E), all_chars_app. cbn [all_chars].
  rewrite Ha, Hb. reflexivity.
Qed.

Lemma match_function_call (name range_str : string) :
  nonempty name = true -> all_chars is_upper name = true ->
  all_chars not_lf range_str = true ->
  match_function (name +:+ "(" +:+ range_str +:+ ")") = Some (name, range_str).
Proof.
  intros Hn Hu Hl. unfold match_function.
  assert (Hp : forall r, upper_prefix (name +:+ String "(" r) = name
                         /\ skip_upper (name +:+ String "(" r) = String "(" r).
  { intros r. clear Hn. induction name as [|c n IH]; simpl; [auto|].
    simpl in Hu. apply andb_prop in Hu as [Hc Hu]. rewrite Hc.
    destruct (IH Hu) as [-> ->]. auto. }
  change (name +:+ "(" +:+ range_str +:+ ")")
    with (name +:+ String "(" (range_str +:+ ")")).
  destruct (Hp (range_str +:+ ")")) as [-> ->]. rewrite Hn.
  rewrite line_prefix_no_lf, before_last_snoc; [reflexivity|].
  rewrite all_chars_app, Hl. reflexivity.
Qed.

(** ** Range resolution materializes cells *)

(** C6, as the claim states it, fails: in the empty grid A1 is absent and
    lies in A1:A3, and after the range is resolved A1 holds the empty
    text, not the text 0. *)
Lemma range_start_holds_empty_text :
  (∅ : grid) !! (0, 0) = None /\
  within (0, 0) (2, 0) (0, 0) /\
  range_bounds "A1:A3" = Some ((0, 0), (2, 0)) /\
  snd (get_cells_in_range "A1:A3" ∅) !! (0, 0) = Some "" /\
  snd (get_cells_in_range "A1:A3" ∅) !! (0, 0) <> Some "0".
Proof.
  split; [reflexivity|]. split; [unfold within; cbn; lia|].
  split; [reflexivity|]. split; [reflexivity | discriminate].
Qed.

Lemma lookup_resolved (x y : Z * Z) (g : grid) (rc : Z * Z) :
  resolved x y g !! rc =
  match g !! rc with
  | Some t => Some t
  | None => if decide (x = rc) then Some ""
            else if decide (y = rc) then Some ""
            else if decide (rc ∈ cells_between x y) then Some "0" else None
  end.
Proof.
  unfold resolved. rewrite lookup_fold_materialize, !lookup_materialize.
  destruct (g !! rc); [reflexivity|].
  destruct (decide (x = rc)); [reflexivity|].
  destruct (decide (y = rc)); reflexivity.
Qed.

(** C6, amended. For every well-formed range, range resolution returns
    the cells within the normalized bounds in row-major ascending order,
    each once.  As a side effect every absent cell of the range is
    created: the two cells the range names with the empty text, every
    other one with the text 0.  Cells that were present keep their text,
    cells outside the range stay as they were, and afterwards no cell of
    the range is absent. *)
Theorem get_cells_in_range_materializes (range_str : string) (g : grid) :
  well_formed_range range_str = true ->
  exists x y cells g',
    range_bounds range_str = Some (x, y) /\
    get_cells_in_range range_str g = (Returned cells, g') /\
    (forall rc, rc ∈ cells <-> within x y rc) /\
    StronglySorted coord_lt cells /\
    (forall rc t, g !! rc = Some t -> g' !! rc = Some t) /\
    (forall rc, g !! rc = None -> rc = x \/ rc = y -> g' !! rc = Some "") /\
    (forall rc, g !! rc = None -> rc <> x -> rc <> y -> within x y rc ->
                g' !! rc = Some "0") /\
    (forall rc, g !! rc = None -> ~ within x y rc -> g' !! rc = None) /\
    (forall rc, within x y rc -> is_Some (g' !! rc)).
Proof.
  intros Hwf. destruct (well_formed_range_bounds _ Hwf) as (x & y & Hb).
  exists x, y, (cells_between x y). eexists.
  split; [exact Hb|]. split; [apply get_cells_in_range_bounds, Hb|].
  split; [apply elem_of_cells_between|].
  split; [apply StronglySorted_cells_between|].
  pose proof (lookup_resolved x y g) as L.
  pose proof (cells_between_corners x y) as [Hx Hy].
  repeat split.
  - intros rc t Hg. rewrite L, Hg. reflexivity.
  - intros rc Hg [-> | ->]; rewrite L, Hg.
    + rewrite decide_True by reflexivity. reflexivity.
    + destruct (decide (x = y)); [reflexivity|].
      rewrite decide_True by reflexivity. reflexivity.
  - intros rc Hg Hnx Hny Hw. rewrite L, Hg.
    rewrite !decide_False by congruence.
    rewrite decide_True by (apply elem_of_cells_between, Hw). reflexivity.
  - intros rc Hg Hw. rewrite L, Hg.
    destruct (decide (x = rc)) as [<-|]; [destruct Hw; apply elem_of_cells_between, Hx|].
    destruct (decide (y = rc)) as [<-|]; [destruct Hw; apply elem_of_cells_between, Hy|].
    rewrite decide_False; [reflexivity|]. rewrite elem_of_cells_between. exact Hw.
  - intros rc Hw. rewrite L. destruct (g !! rc); [eauto|].
    destruct (decide (x = rc)); [eauto|]. destruct (decide (y = rc)); [eauto|].
    rewrite decide_True by (apply elem_of_cells_between, Hw). eauto.
Qed.

Lemma get_cells_in_range_materializes_witness :
  exists x y cells g',
    range_bounds "B2:A1" = Some (x, y) /\
    get_cells_in_range "B2:A1" ∅ = (Returned cells, g') /\
    (forall rc, rc ∈ cells <-> within x y rc) /\
    StronglySorted coord_lt cells /\
    (forall rc t, (∅ : grid) !! rc = Some t -> g' !! rc = Some t) /\
    (forall rc, (∅ : grid) !! rc = None -> rc = x \/ rc = y -> g' !! rc = Some "") /\
    (forall rc, (∅ : grid) !! rc = None -> rc <> x -> rc <> y -> within x y rc ->
                g' !! rc = Some "0") /\
    (forall rc, (∅ : grid) !! rc = None -> ~ within x y rc -> g' !! rc = None) /\
    (forall rc, within x y rc -> is_Some (g' !! rc)).
Proof. apply (get_cells_in_range_materializes "B2:A1" ∅). reflexivity. Defined.

(** ** Collected values *)

Section Values.
Context `{RT : Runtime}.

Lemma cell_values_values_of (cells : list (Z * Z)) (g : grid) :
  cell_values cells g = (values_of g cells, g).
Proof.
  induction cells as [|c r IH]; [reflexivity|].
  cbn [cell_values values_of]. unfold bind at 1. unfold text at 1.
  fold (cell_text g c). unfold bind at 1, lift at 1.
  destruct (float_or_zero (cell_text g c)); [|reflexivity].
  unfold bind. rewrite IH. destruct (values_of g r); reflexivity.
Qed.

Lemma values_of_length (g : grid) (cells : list (Z * Z)) (vs : list float) :
  values_of g cells = Returned vs -> length vs = length cells.
Proof.
  revert vs; induction cells as [|c r IH]; intros vs; cbn [values_of].
  - intros [= <-]. reflexivity.
  - destruct (float_or_zero (cell_text g c)); [|discriminate].
    destruct (values_of g r) as [ws|]; [|discriminate].
    intros [= <-]. cbn. f_equal. apply IH. reflexivity.
Qed.

Lemma values_of_total (g : grid) (cells : list (Z * Z)) :
  (forall c, c ∈ cells -> exists v, float_or_zero (cell_text g c) = Returned v) ->
  exists vs, values_of g cells = Returned vs.
Proof.
  induction cells as [|c r IH]; intros H; cbn [values_of]; [eauto|].
  destruct (H c) as (v & ->); [left|].
  destruct IH as (vs & ->); [intros c' Hc'; apply H; now right|]. eauto.
Qed.

Lemma values_of_raises (g : grid) (cells : list (Z * Z)) (c : Z * Z) (e : exn) :
  c ∈ cells -> float_or_zero (cell_text g c) = Raised e ->
  exists e', values_of g cells = Raised e'.
Proof.
  intros Hc He. induction cells as [|c' r IH]; [inversion Hc|].
  cbn [values_of]. apply elem_of_cons in Hc as [<- | Hc].
  - rewrite He. eexists; reflexivity.
  - destruct (float_or_zero (cell_text g c')); [|eexists; reflexivity].
    destruct (IH Hc) as (e' & ->). eexists; reflexivity.
Qed.

(** The texts of a range after resolution all coerce when those that
    were present before do. *)
Lemma values_of_range (x y : Z * Z) (g : grid) :
  (forall rc t, within x y rc -> g !! rc = Some t ->
                exists v, float_or_zero t = Returned v) ->
  exists vs, values_of (resolved x y g) (cells_between x y) = Returned vs.
Proof.
  intros H. apply values_of_total. intros rc Hrc.
  unfold cell_text, resolved. rewrite lookup_fold_materialize, !lookup_materialize.
  destruct (g !! rc) as [t|] eqn:Hg.
  - apply (H rc t); [apply elem_of_cells_between, Hrc | exact Hg].
  - destruct (decide (x = rc)); [cbn; eauto|].
    destruct (decide (y = rc)); [cbn; eauto|].
    rewrite decide_True by exact Hrc. cbn. eauto.
Qed.

End Values.

(** ** Aggregate functions over a range *)

Section Aggregates.
Context `{RT : Runtime}.

Lemma prefix_append (p r : string) : String.prefix p (p +:+ r) = true.
Proof.
  induction p as [|c p IH]; simpl; [destruct r; reflexivity|].
  destruct (ascii_dec c c); [exact IH | congruence].
Qed.

Lemma is_aggregate_call (name r : string) :
  name ∈ aggregate_names -> is_aggregate (name +:+ "(" +:+ r) = true.
Proof.
  intros Hn. unfold is_aggregate. apply existsb_exists.
  exists (name +:+ "("). split.
  - unfold aggregate_names in Hn. apply list_elem_of_In.
    repeat (apply elem_of_cons in Hn as [-> | Hn]; [set_solver|]). inversion Hn.
  - replace (name +:+ "(" +:+ r) with ((name +:+ "(") +:+ r); [apply prefix_append|].
    clear. induction name as [|c n IH]; [reflexivity|].
    change (String c ((n +:+ "(") +:+ r) = String c (n +:+ "(" +:+ r)).
    now rewrite IH.
Qed.

Lemma aggregate_names_upper (name : string) :
  name ∈ aggregate_names -> nonempty name = true /\ all_chars is_upper name = true.
Proof.
  unfold aggregate_names. intros Hn.
  repeat (apply elem_of_cons in Hn as [-> | Hn]; [split; reflexivity|]). inversion Hn.
Qed.

Lemma evaluate_call (name range_str : string) (g : grid) :
  name ∈ aggregate_names -> all_chars not_lf range_str = true ->
  evaluate_formula (String "=" (name +:+ "(" +:+ range_str +:+ ")")) g =
  try_except (aggregate name range_str)
    (fun _ => ret (Some ("ERROR: Invalid " +:+ name +:+ " range"))) g.
Proof.
  intros Hn Hl. cbn [evaluate_formula].
  rewrite (is_aggregate_call name (range_str +:+ ")") Hn).
  unfold handle_special_function.
  destruct (aggregate_names_upper name Hn) as [H1 H2].
  rewrite (match_function_call name range_str H1 H2 Hl). reflexivity.
Qed.

Lemma aggregate_returned (name range_str : string) (x y : Z * Z) (g : grid)
    (vs : list float) :
  range_bounds range_str = Some (x, y) ->
  values_of (resolved x y g) (cells_between x y) = Returned vs ->
  exists v0 rest, vs = v0 :: rest /\
    aggregate name range_str g =
    (if String.eqb name "SUM" then ret (Some (float_str (float_sum vs)))
     else if String.eqb name "AVERAGE" then
       let* q := lift (truediv (float_sum vs) (Z.of_nat (length vs))) in
       ret (Some (float_str q))
     else if String.eqb name "MIN" then ret (Some (float_str (py_min v0 rest)))
     else if String.eqb name "MAX" then ret (Some (float_str (py_max v0 rest)))
     else if String.eqb name "COUNT" then
       ret (Some (str_int (Z.of_nat (length (List.filter nonzero vs)))))
     else ret None) (resolved x y g).
Proof.
  intros Hb Hvs. pose proof (values_of_length _ _ _ Hvs) as Hlen.
  destruct vs as [|v0 rest].
  { destruct (cells_between x y) eqn:E; [|discriminate].
    now apply cells_between_nonempty in E. }
  exists v0, rest. split; [reflexivity|].
  unfold aggregate. unfold bind at 1. rewrite (get_cells_in_range_bounds _ _ _ _ Hb).
  unfold bind at 1. rewrite cell_values_values_of, Hvs. reflexivity.
Qed.

Lemma truediv_length (x : float) (v0 : float) (rest : list float) :
  truediv x (Z.of_nat (length (v0 :: rest))) =
  Returned (float_div x (float_of_int (Z.of_nat (length (v0 :: rest))))).
Proof.
  unfold truediv. destruct (Z.of_nat (length (v0 :: rest)) =? 0) eqn:E; [|reflexivity].
  apply Z.eqb_eq in E. cbn [length] in E. lia.
Qed.

End Aggregates.

(** C10. For every well-formed range, range resolution returns a list of
    cells that is not empty; the values collected from it are as many and
    so not empty either: the branch for an empty list of values is not
    taken, the division of AVERAGE is by a length that is not zero and
    raises nothing, and AVERAGE returns the quotient. *)
Theorem range_cells_never_empty `{RT : Runtime} (range_str : string) (g : grid) :
  well_formed_range range_str = true ->
  exists cells g1,
    get_cells_in_range range_str g = (Returned cells, g1) /\
    cells <> [] /\
    forall vs g2, cell_values cells g1 = (Returned vs, g2) ->
      vs <> [] /\
      Z.of_nat (length vs) <> 0 /\
      truediv (float_sum vs) (Z.of_nat (length vs)) =
        Returned (float_div (float_sum vs) (float_of_int (Z.of_nat (length vs)))) /\
      aggregate "AVERAGE" range_str g =
        (Returned (Some (float_str
           (float_div (float_sum vs) (float_of_int (Z.of_nat (length vs)))))), g2).
Proof.
  intros Hwf. destruct (well_formed_range_bounds _ Hwf) as (x & y & Hb).
  exists (cells_between x y), (resolved x y g).
  split; [apply get_cells_in_range_bounds, Hb|].
  split; [apply cells_between_nonempty|].
  intros vs g2. rewrite cell_values_values_of. intros [= Hvs <-].
  destruct (aggregate_returned "AVERAGE" _ _ _ _ _ Hb Hvs) as (v0 & rest & -> & Hagg).
  split; [discriminate|]. split; [cbn [length]; lia|].
  split; [apply truediv_length|].
  rewrite Hagg. cbn [String.eqb Ascii.eqb Bool.eqb]. unfold bind, lift.
  rewrite truediv_length. reflexivity.
Qed.

Lemma range_cells_never_empty_witness :
  exists cells g1,
    get_cells_in_range "A1:B2" ∅ = (Returned cells, g1) /\
    cells <> [] /\
    forall vs g2, cell_values (RT := int_runtime) cells g1 = (Returned vs, g2) ->
      vs <> [] /\
      Z.of_nat (length vs) <> 0 /\
      truediv (float_sum vs) (Z.of_nat (length vs)) =
        Returned (float_div (float_sum vs) (float_of_int (Z.of_nat (length vs)))) /\
      aggregate "AVERAGE" "A1:B2" ∅ =
        (Returned (Some (float_str
           (float_div (float_sum vs) (float_of_int (Z.of_nat (length vs)))))), g2).
Proof. apply (range_cells_never_empty (RT := int_runtime) "A1:B2" ∅). reflexivity. Defined.

(** C5. For every well-formed range whose cells all coerce to floats,
    evaluating COUNT over the range returns the decimal string of the
    number of collected values that differ from zero, whatever the number
    of cells with a text; over the values 0, 5, 0 it returns 1. *)
Theorem count_counts_nonzero_values `{RT : Runtime} (range_str : string) (g : grid) :
  well_formed_range range_str = true ->
  (forall x y rc t, range_bounds range_str = Some (x, y) -> within x y rc ->
     g !! rc = Some t -> exists v, float_or_zero t = Returned v) ->
  (exists x y vs,
     range_bounds range_str = Some (x, y) /\
     values_of (resolved x y g) (cells_between x y) = Returned vs /\
     evaluate_formula ("=COUNT(" +:+ range_str +:+ ")") g =
       (Returned (Some (str_int (Z.of_nat (length (List.filter nonzero vs))))),
        resolved x y g)) /\
  evaluate_formula "=COUNT(A1:A3)" grid_0_5_0 = (Returned (Some "1"), grid_0_5_0).
Proof.
  assert (G : forall rs g0 x y vs,
    well_formed_range rs = true -> range_bounds rs = Some (x, y) ->
    values_of (resolved x y g0) (cells_between x y) = Returned vs ->
    evaluate_formula ("=COUNT(" +:+ rs +:+ ")") g0 =
      (Returned (Some (str_int (Z.of_nat (length (List.filter nonzero vs))))),
       resolved x y g0)).
  { intros rs g0 x y vs Hwf Hb Hvs.
    change ("=COUNT(" +:+ rs +:+ ")") with (String "=" ("COUNT" +:+ "(" +:+ rs +:+ ")")).
    rewrite evaluate_call;
      [| unfold aggregate_names; set_solver | apply well_formed_range_no_lf, Hwf].
    unfold try_except.
    destruct (aggregate_returned "COUNT" _ _ _ _ _ Hb Hvs) as (v0 & rest & -> & ->).
    reflexivity. }
  intros Hwf Hco. split.
  - destruct (well_formed_range_bounds _ Hwf) as (x & y & Hb).
    destruct (values_of_range x y g (fun rc t => Hco x y rc t Hb)) as (vs & Hvs).
    exists x, y, vs. split; [exact Hb|]. split; [exact Hvs|]. now apply G.
  - change "=COUNT(A1:A3)" with ("=COUNT(" +:+ "A1:A3" +:+ ")").
    rewrite (G "A1:A3" grid_0_5_0 (0, 0) (2, 0)
               [float_of_lit (Lit_dec false 0 0); float_of_lit (Lit_dec false 5 0);
                float_of_lit (Lit_dec false 0 0)]); try reflexivity.
    cbn [List.filter]. unfold nonzero.
    rewrite float_zero_lit, float_small_lit by lia. cbn [negb length].
    reflexivity.
Qed.

Lemma count_counts_nonzero_values_witness :
  (exists x y vs,
     range_bounds "A1:A3" = Some (x, y) /\
     values_of (RT := int_runtime) (resolved x y ∅) (cells_between x y) = Returned vs /\
     evaluate_formula ("=COUNT(" +:+ "A1:A3" +:+ ")") ∅ =
       (Returned (Some (str_int (Z.of_nat (length (List.filter nonzero vs))))),
        resolved x y ∅)) /\
  evaluate_formula (RT := int_runtime) "=COUNT(A1:A3)" grid_0_5_0 =
    (Returned (Some "1"), grid_0_5_0).
Proof.
  apply (count_counts_nonzero_values (RT := int_runtime) "A1:A3" ∅).
  - reflexivity.
  - intros x y rc t _ _ H. rewrite lookup_empty in H. discriminate.
Defined.

(** ** Reference substitution *)

Section Substitution.
Context `{RT : Runtime}.

Lemma cell_text_materialize_empty (g : grid) (rc rc' : Z * Z) :
  cell_text (materialize "" g rc) rc' = cell_text g rc'.
Proof.
  unfold cell_text. rewrite lookup_materialize.
  destruct (g !! rc'); [reflexivity|]. destruct (decide (rc = rc')); reflexivity.
Qed.

(** One turn of the loop of [replace_cell_references]. *)
Lemma replace_loop_step (cell_ref : string) (rest : list string)
    (formula : string) (g : grid) :
  replace_loop (cell_ref :: rest) formula g =
  match decode cell_ref with
  | Some rc =>
      match float_of_str (cell_text g rc) with
      | None => (Returned "ERROR: Invalid cell reference", materialize "" g rc)
      | Some l =>
          replace_loop rest (replace cell_ref (float_str (float_of_lit l)) formula)
            (materialize "" g rc)
      end
  | None =>
      replace_loop rest
        (replace cell_ref (float_str (float_of_lit (Lit_dec false 0 0))) formula) g
  end.
Proof.
  cbn [replace_loop]. unfold bind at 1.
  destruct (decode cell_ref) as [rc|] eqn:Hd.
  - rewrite (get_cell_from_id_decode _ _ _ Hd). unfold bind at 1, text at 1.
    fold (cell_text (materialize "" g rc) rc). rewrite cell_text_materialize_empty.
    destruct (float_of_str (cell_text g rc)); reflexivity.
  - rewrite (get_cell_from_id_no_match _ _ Hd). reflexivity.
Qed.

Lemma replace_loop_returns (refs : list string) (formula : string) (g : grid) :
  exists s g', replace_loop refs formula g = (Returned s, g').
Proof.
  revert formula g; induction refs as [|r rest IH]; intros formula g.
  - eexists _, _; reflexivity.
  - rewrite replace_loop_step. destruct (decode r) as [rc|]; [|apply IH].
    destruct (float_of_str (cell_text g rc)); [apply IH | eexists _, _; reflexivity].
Qed.

(** A reference to a cell whose text is no number, in particular to an
    absent cell, ends the loop with the error text. *)
Lemma replace_loop_bad_ref (refs : list string) (formula : string) (g : grid)
    (cell_ref : string) (rc : Z * Z) :
  cell_ref ∈ refs -> decode cell_ref = Some rc ->
  float_of_str (cell_text g rc) = None ->
  exists g', replace_loop refs formula g = (Returned "ERROR: Invalid cell reference", g').
Proof.
  intros Hin Hd Hbad. revert formula g Hbad.
  induction refs as [|r rest IH]; intros formula g Hbad; [inversion Hin|].
  rewrite replace_loop_step. apply elem_of_cons in Hin as [<- | Hin].
  - rewrite Hd, Hbad. eexists; reflexivity.
  - destruct (decode r) as [rc0|]; [|apply IH; assumption].
    destruct (float_of_str (cell_text g rc0)); [|eexists; reflexivity].
    apply IH; [assumption|]. rewrite cell_text_materialize_empty. exact Hbad.
Qed.

Lemma replace_without_first_char (c : ascii) (old new s : string) :
  all_chars (fun x => negb (Ascii.eqb x c)) s = true ->
  replace (String c old) new s = s.
Proof.
  unfold replace. induction s as [|x s IH]; [reflexivity|].
  cbn [all_chars]. intros [Hx Hs]%andb_prop. cbn [replace_from String.prefix].
  destruct (ascii_dec c x) as [->|].
  - rewrite Ascii.eqb_refl in Hx. discriminate.
  - rewrite (IH Hs). reflexivity.
Qed.

Lemma no_upper_no_A (s : string) :
  all_chars (fun c => negb (is_upper c)) s = true ->
  all_chars (fun x => negb (Ascii.eqb x "A")) s = true.
Proof.
  apply all_chars_impl. intros c Hc.
  destruct (Ascii.eqb_spec c "A") as [->|]; [discriminate | reflexivity].
Qed.

End Substitution.

(** The loop changes the grid only by creating absent cells with the
    empty text. *)
Lemma replace_loop_grid `{RT : Runtime} (refs : list string) (formula s : string)
    (g g' : grid) (rc : Z * Z) :
  replace_loop refs formula g = (Returned s, g') ->
  g' !! rc = g !! rc \/ (g !! rc = None /\ g' !! rc = Some "").
Proof.
  revert formula g; induction refs as [|r rest IH]; intros formula g.
  - intros [= _ <-]. left. reflexivity.
  - rewrite replace_loop_step.
    assert (Hm : forall rc0, materialize "" g rc0 !! rc = g !! rc \/
                             (g !! rc = None /\ materialize "" g rc0 !! rc = Some "")).
    { intros rc0. rewrite lookup_materialize. destruct (g !! rc); [now left|].
      destruct (decide (rc0 = rc)); [now right | now left]. }
    destruct (decide_rel (=) (decode r) None) as [-> | Hd]; [apply IH|].
    destruct (decode r) as [rc0|]; [|contradiction].
    destruct (float_of_str (cell_text g rc0)).
    + intros [H | [H1 H2]]%IH.
      * rewrite H. apply Hm.
      * destruct (Hm rc0) as [E | [E1 E2]]; [|congruence].
        right. rewrite <- E. split; assumption.
    + intros [= _ <-]. apply Hm.
Qed.

(** C3, on the code: a formula of the arithmetic kind that refers to an
    absent cell evaluates to the error text, and the cell is not given the
    text 0: it stays absent or holds the empty text.  The claim has the
    cell created with the text 0 and the value 0 used for it.  The formula
    =A1+1 in the empty grid is such an input. *)
Theorem absent_reference_is_an_error `{RT : Runtime}
    (f1 cell_ref : string) (rc : Z * Z) (g : grid) :
  is_aggregate f1 = false ->
  cell_ref ∈ findall_refs f1 -> decode cell_ref = Some rc -> g !! rc = None ->
  (exists g',
     evaluate_formula (String "=" f1) g =
       (Returned (Some "ERROR: Invalid cell reference"), g') /\
     (g' !! rc = None \/ g' !! rc = Some "") /\
     g' !! rc <> Some "0") /\
  evaluate_formula "=A1+1" ∅ =
    (Returned (Some "ERROR: Invalid cell reference"), <[(0, 0) := ""]> ∅).
Proof.
  intros Hagg Hin Hd Hg. split; [|reflexivity].
  assert (Hbad : float_of_str (cell_text g rc) = None)
    by (unfold cell_text; rewrite Hg; reflexivity).
  destruct (replace_loop_bad_ref _ f1 g _ _ Hin Hd Hbad) as (g' & Hr).
  exists g'. split.
  - cbn [evaluate_formula]. rewrite Hagg. unfold bind, replace_cell_references.
    rewrite Hr. reflexivity.
  - destruct (replace_loop_grid _ _ _ _ _ rc Hr) as [E | [_ E]]; rewrite E, ?Hg;
      split; auto; discriminate.
Qed.

Lemma absent_reference_is_an_error_witness :
  (exists g',
     evaluate_formula (RT := int_runtime) (String "=" "A1+1") ∅ =
       (Returned (Some "ERROR: Invalid cell reference"), g') /\
     (g' !! (0, 0) = None \/ g' !! (0, 0) = Some "") /\
     g' !! (0, 0) <> Some "0") /\
  evaluate_formula (RT := int_runtime) "=A1+1" ∅ =
    (Returned (Some "ERROR: Invalid cell reference"), <[(0, 0) := ""]> ∅).
Proof.
  apply (absent_reference_is_an_error (RT := int_runtime) "A1+1" "A1" (0, 0) ∅);
    try reflexivity.
  left.
Defined.

(** C4, at the failing input: the formula A1+A12 where A1 holds 2 and A12
    holds 3.  Replacing A1 also rewrites the first two characters of A12;
    the token A12 is gone when its turn comes, and what stands in its
    place is the text of the value of A1 followed by the digit 2, not the
    text of the value of A12. *)
Theorem replace_cell_references_prefix_collision `{RT : Runtime} :
  let s1 := float_str (float_of_lit (Lit_dec false 2 0)) in
  findall_refs "A1+A12" = ["A1"; "A12"] /\
  cell_text grid_A1_A12 (0, 0) = "2" /\
  cell_text grid_A1_A12 (11, 0) = "3" /\
  replace_cell_references "A1+A12" grid_A1_A12 =
    (Returned (s1 +:+ "+" +:+ s1 +:+ "2"), grid_A1_A12).
Proof.
  intros s1. split; [reflexivity|]. split; [reflexivity|]. split; [reflexivity|].
  unfold replace_cell_references.
  change (findall_refs "A1+A12") with ["A1"; "A12"].
  rewrite replace_loop_step.
  change (decode "A1") with (Some (0, 0)). cbv iota.
  change (float_of_str (cell_text grid_A1_A12 (0, 0))) with (Some (Lit_dec false 2 0)).
  cbv iota. fold s1.
  change (materialize "" grid_A1_A12 (0, 0)) with grid_A1_A12.
  change (replace "A1" s1 "A1+A12") with (s1 +:+ String "+" (s1 +:+ "2")).
  rewrite replace_loop_step.
  change (decode "A12") with (Some (11, 0)). cbv iota.
  change (float_of_str (cell_text grid_A1_A12 (11, 0))) with (Some (Lit_dec false 3 0)).
  cbv iota.
  change (materialize "" grid_A1_A12 (11, 0)) with grid_A1_A12.
  rewrite replace_without_first_char; [reflexivity|].
  pose proof (no_upper_no_A s1 (float_str_lower _)) as H1.
  rewrite all_chars_app. cbn [all_chars]. rewrite all_chars_app, H1. reflexivity.
Qed.

(** On integer cells the substituted text is 2.0+2.02, where the claim has
    2.0+3.0. *)
Example replace_cell_references_A1_A12 :
  replace_cell_references (RT := int_runtime) "A1+A12" grid_A1_A12 =
    (Returned "2.0+2.02", grid_A1_A12).
Proof. reflexivity. Qed.

(** ** The evaluator returns a string *)

Section Returns.
Context `{RT : Runtime}.

Lemma evaluate_formula_literal (formula : string) (g : grid) :
  (forall f1, formula <> String "=" f1) ->
  evaluate_formula formula g = (Returned (Some formula), g).
Proof.
  intros H. destruct formula as [|c f]; [reflexivity|].
  destruct c as [[] [] [] [] [] [] [] []]; try reflexivity.
  exfalso. apply (H f). reflexivity.
Qed.

Lemma is_aggregate_match_function (f1 name range_str : string) :
  is_aggregate f1 = true -> match_function f1 = Some (name, range_str) ->
  name ∈ aggregate_names.
Proof.
  unfold is_aggregate. intros (p & Hp & Hpre)%existsb_exists.
  apply prefix_app in Hpre as (r & ->). unfold match_function, aggregate_names.
  cbn [In] in Hp.
  destruct Hp as [<- | [<- | [<- | [<- | [<- | []]]]]]; simpl;
    (destruct (before_last ")" (line_prefix (EmptyString +:+ r))); [|discriminate]);
    intros [= <- <-]; set_solver.
Qed.

Lemma aggregate_some (name range_str : string) (g g' : grid) (o : option string) :
  name ∈ aggregate_names ->
  aggregate name range_str g = (Returned o, g') -> exists s, o = Some s.
Proof.
  intros Hn. unfold aggregate, bind.
  destruct (get_cells_in_range range_str g) as [[cells|e] g1]; [|discriminate].
  destruct (cell_values cells g1) as [[[|v0 rest]|e] g2]; [| |discriminate].
  { intros [= <- _]. eauto. }
  unfold aggregate_names in Hn.
  repeat (apply elem_of_cons in Hn as [-> | Hn]);
    [ | | | | | inversion Hn ];
    cbn [String.eqb Ascii.eqb Bool.eqb]; unfold ret, lift;
    intros [= <- _]; eauto.
Qed.

Lemma handle_special_function_returns (f1 : string) (g : grid) :
  is_aggregate f1 = true ->
  exists s g', handle_special_function f1 g = (Returned (Some s), g').
Proof.
  intros Hagg. unfold handle_special_function.
  destruct (match_function f1) as [[name range_str]|] eqn:Hm;
    [|eexists _, _; reflexivity].
  pose proof (is_aggregate_match_function _ _ _ Hagg Hm) as Hn.
  unfold try_except.
  destruct (aggregate name range_str g) as [[o|e] g'] eqn:Ha;
    [|eexists _, _; reflexivity].
  destruct (aggregate_some _ _ _ _ _ Hn Ha) as (s & ->). eauto.
Qed.

Lemma aggregate_raises_error (name range_str : string) (g : grid) :
  (exists e g', aggregate name range_str g = (Raised e, g')) ->
  exists s g',
    try_except (aggregate name range_str)
      (fun _ => ret (Some ("ERROR: Invalid " +:+ name +:+ " range"))) g =
    (Returned (Some s), g') /\ String.prefix "ERROR" s = true.
Proof.
  intros (e & g' & Ha). unfold try_except. rewrite Ha.
  eexists _, _. split; reflexivity.
Qed.

Lemma aggregate_malformed_range (name range_str : string) (g : grid) :
  range_bounds range_str = None ->
  exists e g', aggregate name range_str g = (Raised e, g').
Proof.
  intros Hb. destruct (get_cells_in_range_raises _ g Hb) as (e & g' & Hr).
  unfold aggregate, bind. rewrite Hr. eauto.
Qed.

Lemma aggregate_non_numeric (name range_str : string) (x y rc : Z * Z)
    (g : grid) (e : exn) :
  range_bounds range_str = Some (x, y) -> within x y rc ->
  float_or_zero (cell_text g rc) = Raised e ->
  exists e' g', aggregate name range_str g = (Raised e', g').
Proof.
  intros Hb Hw He.
  assert (Ht : cell_text (resolved x y g) rc = cell_text g rc).
  { unfold cell_text. rewrite lookup_resolved.
    destruct (g !! rc) eqn:Hg; [reflexivity|].
    unfold cell_text in He. rewrite Hg in He. discriminate. }
  rewrite <- Ht in He.
  destruct (values_of_raises _ _ _ _ (proj2 (elem_of_cells_between x y rc) Hw) He)
    as (e' & Hv).
  unfold aggregate, bind. rewrite (get_cells_in_range_bounds _ _ _ _ Hb).
  rewrite cell_values_values_of, Hv. eauto.
Qed.

End Returns.

(** C2. For every input string and every grid, [evaluate_formula] returns
    a string and raises nothing.  Every error outcome is returned as a
    string that begins with ERROR: a malformed aggregate call or range, a
    cell of a range or a referenced cell whose text is no number, a
    character that is not allowed, and a fault of the arithmetic
    evaluation such as a division by zero or a malformed expression. *)
Theorem evaluate_formula_returns_string `{RT : Runtime} (formula : string) (g : grid) :
  exists s g',
    evaluate_formula formula g = (Returned (Some s), g') /\
    forall f1, formula = String "=" f1 -> evaluation_error f1 g ->
               String.prefix "ERROR" s = true.
Proof.
  destruct formula as [|c f1].
  { exists EmptyString, g. split; [reflexivity | discriminate]. }
  destruct (ascii_dec c "=") as [-> | Hc].
  2: { exists (String c f1), g. split.
       - apply evaluate_formula_literal. congruence.
       - intros f [= -> ->]. contradiction. }
  cbn [evaluate_formula]. destruct (is_aggregate f1) eqn:Hagg.
  - destruct (handle_special_function_returns f1 g Hagg) as (s & g' & Hs).
    exists s, g'. split; [exact Hs|]. intros f [= <-] Herr.
    unfold handle_special_function in Hs.
    destruct Herr as [_ Hm | name rs _ Hm Hb | name rs x y rc e _ Hm Hb Hw He
                      | ? ? H | ? ? H | ? ? ? H]; try congruence; rewrite Hm in Hs.
    + injection Hs as <- _. reflexivity.
    + destruct (aggregate_raises_error name rs g (aggregate_malformed_range _ _ _ Hb))
        as (s' & g'' & E & P).
      rewrite E in Hs. injection Hs as <- _. exact P.
    + destruct (aggregate_raises_error name rs g
                  (aggregate_non_numeric _ _ _ _ _ _ _ Hb Hw He))
        as (s' & g'' & E & P).
      rewrite E in Hs. injection Hs as <- _. exact P.
  - unfold bind, replace_cell_references.
    destruct (replace_loop_returns (findall_refs f1) f1 g) as (f2 & g1 & Hr).
    rewrite Hr. destruct (String.prefix "ERROR" f2) eqn:Hp.
    { exists f2, g1. split; [reflexivity | intros; exact Hp]. }
    destruct (all_chars allowed_char f2) eqn:Hall; cbn [negb].
    2: { eexists _, g1. split; reflexivity. }
    destruct (py_eval f2) as [res|e] eqn:He.
    2: { eexists _, g1. split; reflexivity. }
    exists res, g1. split; [reflexivity|]. intros f [= <-] Herr. exfalso.
    destruct Herr as [H | ? ? H | ? ? ? ? ? ? H
                      | cell_ref rc _ Hin Hd Hbad | f2' g1' _ Hr' Hall'
                      | f2' g1' e _ Hr' He']; try congruence.
    + destruct (replace_loop_bad_ref _ f1 g _ _ Hin Hd Hbad) as (g2 & Hr2).
      rewrite Hr2 in Hr. injection Hr as <- _. discriminate.
    + unfold replace_cell_references in Hr'. congruence.
    + unfold replace_cell_references in Hr'. congruence.
Qed.

Lemma evaluate_formula_returns_string_witness :
  exists s g',
    evaluate_formula (RT := int_runtime) "=A1+1" ∅ = (Returned (Some s), g') /\
    String.prefix "ERROR" s = true.
Proof.
  destruct (evaluate_formula_returns_string (RT := int_runtime) "=A1+1" ∅)
    as (s & g' & E & H).
  exists s, g'. split; [exact E|]. apply (H "A1+1" eq_refl).
  apply (non_numeric_reference "A1+1" ∅ "A1" (0, 0)); try reflexivity.
  left.
Defined.

(** ** Validation: number only *)

(** C8, as the claim states it, fails: under a rule of type Number Only
    the text inf is accepted, and it parses to an infinity, not to a
    finite number.  The branch does not use the runtime. *)
Lemma number_only_accepts_inf :
  validate_cell_input (RT := int_runtime) (Some (0, 0, "inf"))
    (Some (<["A1" := number_only]> ∅)) = Returned true /\
  float_of_str "inf" = Some (Lit_inf false) /\
  (forall neg m e, float_of_str "inf" <> Some (Lit_dec neg m e)).
Proof. split; [reflexivity|]. split; [reflexivity | discriminate]. Qed.

(** C8, amended. For every cell that carries a rule of type Number Only
    and every proposed text, the check accepts the text if and only if
    [float] reads it: a finite decimal number, or an infinity or a NaN
    such as inf and nan, which are accepted as well; a text that [float]
    does not read is rejected. *)
Theorem number_only_accepts_what_float_reads `{RT : Runtime}
    (row col : Z) (value cell_id : string)
    (cell_validations : gmap string validation) (rule : validation) :
  get_cell_id row col = Returned cell_id ->
  cell_validations !! cell_id = Some rule ->
  v_type rule = "Number Only" ->
  exists accepted,
    validate_cell_input (Some (row, col, value)) (Some cell_validations)
      = Returned accepted /\
    (accepted = true <-> exists l, float_of_str value = Some l) /\
    float_of_str "inf" = Some (Lit_inf false) /\
    float_of_str "nan" = Some (Lit_nan false).
Proof.
  intros Hid Hrule Hty. unfold validate_cell_input. rewrite Hid, Hrule, Hty.
  cbn [String.eqb Ascii.eqb Bool.eqb].
  destruct (float_of_str value) as [l|].
  - exists true. repeat split; eauto.
  - exists false. repeat split; try discriminate. intros (l & [=]).
Qed.

Lemma number_only_accepts_what_float_reads_witness :
  exists accepted,
    validate_cell_input (RT := int_runtime) (Some (0, 0, "12.5"))
      (Some (<["A1" := number_only]> ∅)) = Returned accepted /\
    (accepted = true <-> exists l, float_of_str "12.5" = Some l) /\
    float_of_str "inf" = Some (Lit_inf false) /\
    float_of_str "nan" = Some (Lit_nan false).
Proof.
  apply (number_only_accepts_what_float_reads (RT := int_runtime) 0 0 "12.5" "A1"
           (<["A1" := number_only]> ∅) number_only); reflexivity.
Defined.

(** ** Sorting a table region *)

Lemma ltb_leb (a b : string) : String.ltb a b = negb (String.leb b a).
Proof.
  unfold String.ltb, String.leb. rewrite (String.compare_antisym b a).
  destruct (String.compare a b); reflexivity.
Qed.

Section Sort.
Context {A : Type} (key : A -> string).

Lemma key_le_trans (x y z : A) : key_le key x y -> key_le key y z -> key_le key x z.
Proof. unfold key_le. apply transitivity. Qed.

Lemma insert_by_Permutation (x : A) (l : list A) : insert_by key x l ≡ₚ x :: l.
Proof.
  induction l as [|y r IH]; cbn [insert_by]; [reflexivity|].
  destruct (String.ltb (key y) (key x)); [|reflexivity].
  rewrite IH. apply Permutation_swap.
Qed.

Lemma sort_by_Permutation (l : list A) : sort_by key l ≡ₚ l.
Proof.
  induction l as [|x l IH]; [reflexivity|].
  unfold sort_by in *. cbn [foldr]. rewrite insert_by_Permutation, IH. reflexivity.
Qed.

Lemma HdRel_insert_by (y x : A) (l : list A) :
  HdRel (key_le key) y l -> key_le key y x -> HdRel (key_le key) y (insert_by key x l).
Proof.
  intros Hl Hx. destruct l as [|z r]; cbn [insert_by]; [constructor; exact Hx|].
  destruct (String.ltb (key z) (key x)); constructor; [|exact Hx].
  inversion Hl; assumption.
Qed.

Lemma Sorted_insert_by (x : A) (l : list A) :
  Sorted (key_le key) l -> Sorted (key_le key) (insert_by key x l).
Proof.
  induction 1 as [|y r Hr IH Hy]; cbn [insert_by]; [repeat constructor|].
  destruct (String.ltb (key y) (key x)) eqn:E.
  - constructor; [exact IH|]. apply HdRel_insert_by; [exact Hy|].
    unfold key_le, String.le. rewrite ltb_leb in E.
    destruct (String.leb_total (key y) (key x)) as [H|H]; [now rewrite H|].
    rewrite H in E. discriminate.
  - constructor; [constructor; assumption|]. constructor.
    unfold key_le, String.le. rewrite ltb_leb in E.
    destruct (String.leb (key x) (key y)); [exact I | discriminate].
Qed.

Lemma StronglySorted_sort_by (l : list A) : StronglySorted (key_le key) (sort_by key l).
Proof.
  apply Sorted_StronglySorted; [exact key_le_trans|].
  induction l as [|x l IH]; [constructor|]. apply Sorted_insert_by, IH.
Qed.

End Sort.

Lemma lookup_write_row (t : table) (row col : Z) (row_data : list string)
    (g : grid) (r c : Z) :
  write_row t row col row_data g !! (r, c) =
  if decide (r = start_row t + row + 1 /\
             start_col t + col <= c < start_col t + col + Z.of_nat (length row_data))
  then row_data !! Z.to_nat (c - start_col t - col)
  else g !! (r, c).
Proof.
  revert col g; induction row_data as [|x rd IH]; intros col g; cbn [write_row length].
  - rewrite decide_False by lia. reflexivity.
  - rewrite IH. destruct (decide (r = start_row t + row + 1 /\
        start_col t + (col + 1) <= c < start_col t + (col + 1) + Z.of_nat (length rd)))
      as [[-> Hc]|Hn].
    + rewrite decide_True by lia.
      replace (Z.to_nat (c - start_col t - col))
        with (S (Z.to_nat (c - start_col t - (col + 1)))) by lia.
      reflexivity.
    + destruct (decide ((start_row t + row + 1, start_col t + col) = (r, c)))
        as [[= <- <-]|Hne].
      * rewrite lookup_insert_eq, decide_True by lia.
        replace (Z.to_nat (start_col t + col - start_col t - col)) with O by lia.
        reflexivity.
      * rewrite lookup_insert_ne by exact Hne. rewrite decide_False; [reflexivity|].
        intros [-> Hc]. destruct (decide (c = start_col t + col)) as [->|];
          [apply Hne; reflexivity | apply Hn; lia].
Qed.

Lemma lookup_write_data (t : table) (n : nat) (row : Z) (data : list (list string))
    (g : grid) (r c : Z) :
  Forall (fun row_data => length row_data = n) data ->
  write_data t row data g !! (r, c) =
  if decide (start_row t + row + 1 <= r < start_row t + row + 1 + Z.of_nat (length data) /\
             start_col t <= c < start_col t + Z.of_nat n)
  then data !! Z.to_nat (r - start_row t - row - 1)
         ≫= (fun row_data => row_data !! Z.to_nat (c - start_col t))
  else g !! (r, c).
Proof.
  intros Hall. revert row g; induction Hall as [|rd data Hrd Hall IH]; intros row g;
    cbn [write_data length].
  - rewrite decide_False by lia. reflexivity.
  - rewrite IH, lookup_write_row, Hrd.
    destruct (decide (start_row t + (row + 1) + 1 <= r <
                        start_row t + (row + 1) + 1 + Z.of_nat (length data) /\
                      start_col t <= c < start_col t + Z.of_nat n)) as [[Hr Hc]|Hn].
    + rewrite decide_True by lia.
      replace (Z.to_nat (r - start_row t - row - 1))
        with (S (Z.to_nat (r - start_row t - (row + 1) - 1))) by lia.
      reflexivity.
    + destruct (decide (r = start_row t + row + 1 /\
                        start_col t + 0 <= c < start_col t + 0 + Z.of_nat n))
        as [[-> Hc]|Hn'].
      * rewrite decide_True by lia.
        replace (Z.to_nat (start_row t + row + 1 - start_row t - row - 1)) with O by lia.
        cbn. f_equal. lia.
      * rewrite decide_False by lia. reflexivity.
Qed.

Lemma read_data_shape (g : grid) (t : table) :
  length (read_data g t) = Z.to_nat (rows t - 1) /\
  Forall (fun row_data => length row_data = Z.to_nat (cols t)) (read_data g t).
Proof.
  unfold read_data, read_row, py_range. split.
  - rewrite length_map, length_seqZ. f_equal. lia.
  - apply Forall_forall. intros rd (row & <- & _)%list_elem_of_In%in_map_iff.
    rewrite length_map, length_seqZ. f_equal. lia.
Qed.

Lemma read_data_lookup (g : grid) (t : table) (i j : nat) :
  Z.of_nat i < rows t - 1 -> Z.of_nat j < cols t ->
  exists row_data,
    read_data g t !! i = Some row_data /\
    row_data !! j =
      Some (cell_text g (start_row t + Z.of_nat i + 1, start_col t + Z.of_nat j)).
Proof.
  intros Hi Hj. unfold read_data, py_range. eexists. split.
  - rewrite list_lookup_fmap, lookup_seqZ_lt by lia. reflexivity.
  - unfold read_row, py_range. rewrite list_lookup_fmap, lookup_seqZ_lt by lia.
    reflexivity.
Qed.

(** C9. For every table region that holds the current cell, taken first
    among the registered ones, [sort_table] reads the data rows, all rows
    but the first, as lists of texts; sorts them in ascending order of the
    text in the column of the current cell, the texts compared as strings,
    so that 10 comes before 2; writes the rows back in that order; and
    leaves every cell outside the data rows, the header row among them, as
    it was. *)
Theorem sort_table_sorts_data_rows (tables : list table) (current_row current_col : Z)
    (g : grid) (t : table) :
  List.find (in_table current_row current_col) tables = Some t ->
  let key := pivot (current_col - start_col t) in
  let data := read_data g t in
  let sorted := sort_by key data in
  let g' := sort_table tables current_row current_col g in
  0 <= current_col - start_col t < cols t /\
  (forall i j : nat, Z.of_nat i < rows t - 1 -> Z.of_nat j < cols t ->
     exists row_data,
       data !! i = Some row_data /\
       row_data !! j =
         Some (cell_text g (start_row t + Z.of_nat i + 1, start_col t + Z.of_nat j))) /\
  sorted ≡ₚ data /\
  StronglySorted (key_le key) sorted /\
  (forall (i j : nat) row_data cell,
     sorted !! i = Some row_data -> row_data !! j = Some cell ->
     g' !! (start_row t + Z.of_nat i + 1, start_col t + Z.of_nat j) = Some cell) /\
  (forall r c,
     ~ (start_row t + 1 <= r < start_row t + rows t /\
        start_col t <= c < start_col t + cols t) ->
     g' !! (r, c) = g !! (r, c)) /\
  (forall c, g' !! (start_row t, c) = g !! (start_row t, c)) /\
  String.ltb "10" "2" = true.
Proof.
  intros Hfind key data sorted g'.
  pose proof (find_some _ _ Hfind) as [_ Hin]. unfold in_table in Hin.
  destruct (read_data_shape g t) as [Hlen Hall]. fold data in Hlen, Hall.
  pose proof (sort_by_Permutation key data) as Hperm. fold sorted in Hperm.
  assert (Hall' : Forall (fun rd => length rd = Z.to_nat (cols t)) sorted)
    by (rewrite Hperm; exact Hall).
  assert (Hlen' : length sorted = Z.to_nat (rows t - 1))
    by (rewrite Hperm; exact Hlen).
  assert (Hg' : forall r c, g' !! (r, c) =
    if decide (start_row t + 0 + 1 <= r < start_row t + 0 + 1 + Z.of_nat (length sorted) /\
               start_col t <= c < start_col t + Z.of_nat (Z.to_nat (cols t)))
    then sorted !! Z.to_nat (r - start_row t - 0 - 1)
           ≫= (fun row_data => row_data !! Z.to_nat (c - start_col t))
    else g !! (r, c)).
  { intros r c. unfold g', sort_table. rewrite Hfind.
    apply lookup_write_data. exact Hall'. }
  split; [lia|]. split; [intros i j; apply read_data_lookup|].
  split; [exact Hperm|]. split; [apply StronglySorted_sort_by|].
  split; [|split; [|split; [|reflexivity]]].
  - intros i j rd cell Hi Hj. rewrite Hg'.
    pose proof (lookup_lt_Some _ _ _ Hi) as Hi'.
    pose proof (lookup_lt_Some _ _ _ Hj) as Hj'.
    rewrite Forall_forall in Hall'.
    rewrite (Hall' rd) in Hj' by (apply list_elem_of_lookup; eauto).
    rewrite decide_True by lia.
    replace (Z.to_nat (start_row t + Z.of_nat i + 1 - start_row t - 0 - 1)) with i by lia.
    rewrite Hi. cbn.
    replace (Z.to_nat (start_col t + Z.of_nat j - start_col t)) with j by lia.
    exact Hj.
  - intros r c Hout. rewrite Hg', decide_False; [reflexivity|]. lia.
  - intros c. rewrite Hg', decide_False; [reflexivity|]. lia.
Qed.

Lemma sort_table_sorts_data_rows_witness :
  let key := pivot (0 - start_col table_3_2) in
  let data := read_data grid_table table_3_2 in
  let sorted := sort_by key data in
  let g' := sort_table [table_3_2] 1 0 grid_table in
  0 <= 0 - start_col table_3_2 < cols table_3_2 /\
  (forall i j : nat, Z.of_nat i < rows table_3_2 - 1 -> Z.of_nat j < cols table_3_2 ->
     exists row_data,
       data !! i = Some row_data /\
       row_data !! j =
         Some (cell_text grid_table
                 (start_row table_3_2 + Z.of_nat i + 1, start_col table_3_2 + Z.of_nat j))) /\
  sorted ≡ₚ data /\
  StronglySorted (key_le key) sorted /\
  (forall (i j : nat) row_data cell,
     sorted !! i = Some row_data -> row_data !! j = Some cell ->
     g' !! (start_row table_3_2 + Z.of_nat i + 1, start_col table_3_2 + Z.of_nat j)
       = Some cell) /\
  (forall r c,
     ~ (start_row table_3_2 + 1 <= r < start_row table_3_2 + rows table_3_2 /\
        start_col table_3_2 <= c < start_col table_3_2 + cols table_3_2) ->
     g' !! (r, c) = grid_table !! (r, c)) /\
  (forall c, g' !! (start_row table_3_2, c) = grid_table !! (start_row table_3_2, c)) /\
  String.ltb "10" "2" = true.
Proof. apply (sort_table_sorts_data_rows [table_3_2] 1 0 grid_table table_3_2). reflexivity. Defined.

(** The rows 2 and 10 of the first column come back as 10 and 2. *)
Example sort_table_is_lexical :
  read_data grid_table table_3_2 = [["2"; "x"]; ["10"; "y"]] /\
  read_data (sort_table [table_3_2] 1 0 grid_table) table_3_2 = [["10"; "y"]; ["2"; "x"]].
Proof. split; reflexivity. Qed.

(** * Further properties of the code *)

(** ** Ranges: order of the ends, number of cells *)

Lemma split_on_no_sep (sep : ascii) (s : string) :
  all_chars (not_char sep) s = true -> split_on sep s = [s].
Proof.
  induction s as [|c s IH]; [reflexivity|]. cbn [all_chars split_on].
  intros [Hc Hs]%andb_prop. unfold not_char in Hc.
  destruct (Ascii.eqb c sep); [discriminate|]. rewrite (IH Hs). reflexivity.
Qed.

Lemma split_on_app (sep : ascii) (a b : string) :
  all_chars (not_char sep) a = true ->
  split_on sep (a +:+ String sep b) = a :: split_on sep b.
Proof.
  induction a as [|c a IH]; simpl.
  - intros _. rewrite Ascii.eqb_refl. reflexivity.
  - intros [Hc Ha]%andb_prop. unfold not_char in Hc.
    destruct (Ascii.eqb c sep); [discriminate|]. rewrite (IH Ha). reflexivity.
Qed.

Lemma is_address_no_colon (a : string) :
  is_address a = true -> all_chars (not_char ":") a = true.
Proof.
  destruct a as [|c t]; [discriminate|]. cbn [is_address all_chars].
  intros [[Hc Hn]%andb_prop Hd]%andb_prop. apply andb_true_intro. split.
  - unfold not_char. destruct (Ascii.eqb_spec c ":") as [->|]; [discriminate | reflexivity].
  - apply (all_chars_impl is_digit); [|exact Hd]. intros x Hx. unfold not_char.
    destruct (Ascii.eqb_spec x ":") as [->|]; [discriminate | reflexivity].
Qed.

Lemma split_on_range (a b : string) :
  is_address a = true -> is_address b = true ->
  split_on ":" (a +:+ ":" +:+ b) = [a; b].
Proof.
  intros Ha Hb. change (a +:+ ":" +:+ b) with (a +:+ String ":" b).
  rewrite split_on_app by (apply is_address_no_colon, Ha).
  rewrite split_on_no_sep by (apply is_address_no_colon, Hb). reflexivity.
Qed.

Lemma range_bounds_addresses (a b : string) (x y : Z * Z) :
  is_address a = true -> is_address b = true ->
  decode a = Some x -> decode b = Some y ->
  range_bounds (a +:+ ":" +:+ b) = Some (x, y).
Proof.
  intros Ha Hb Hx Hy. unfold range_bounds.
  rewrite (split_on_range a b Ha Hb), Hx, Hy. reflexivity.
Qed.

Lemma cells_between_comm (x y : Z * Z) : cells_between x y = cells_between y x.
Proof.
  unfold cells_between.
  rewrite (Z.min_comm (fst x)), (Z.max_comm (fst x)),
          (Z.min_comm (snd x)), (Z.max_comm (snd x)). reflexivity.
Qed.

Lemma resolved_comm (x y : Z * Z) (g : grid) : resolved x y g = resolved y x g.
Proof.
  apply map_eq. intros rc. rewrite !lookup_resolved, (cells_between_comm y x).
  destruct (g !! rc); [reflexivity|].
  destruct (decide (x = rc)), (decide (y = rc)); reflexivity.
Qed.

(** X1. The two ends of a range may be given in either order: the cells
    returned and the grid left behind are the same. *)
Theorem get_cells_in_range_ends_commute (a b : string) (g : grid) :
  is_address a = true -> is_address b = true ->
  get_cells_in_range (a +:+ ":" +:+ b) g = get_cells_in_range (b +:+ ":" +:+ a) g.
Proof.
  intros Ha Hb.
  destruct (is_address_decode a Ha) as (x & Hx).
  destruct (is_address_decode b Hb) as (y & Hy).
  rewrite (get_cells_in_range_bounds _ x y g (range_bounds_addresses a b x y Ha Hb Hx Hy)).
  rewrite (get_cells_in_range_bounds _ y x g (range_bounds_addresses b a y x Hb Ha Hy Hx)).
  rewrite cells_between_comm, resolved_comm. reflexivity.
Qed.

Lemma get_cells_in_range_ends_commute_witness :
  get_cells_in_range ("B2" +:+ ":" +:+ "A1") grid_0_5_0 =
  get_cells_in_range ("A1" +:+ ":" +:+ "B2") grid_0_5_0.
Proof. apply get_cells_in_range_ends_commute; reflexivity. Defined.



Lemma StronglySorted_coord_lt_NoDup (l : list (Z * Z)) :
  StronglySorted coord_lt l -> NoDup l.
Proof.
  induction 1 as [|p l Hl IH Hall]; constructor; [|exact IH].
  intros Hin. rewrite Forall_forall in Hall. specialize (Hall p Hin).
  unfold coord_lt in Hall. lia.
Qed.



(** ** Evaluation and the grid *)

Lemma only_created_refl (g : grid) : only_created g g.
Proof. intros rc. left. reflexivity. Qed.

Lemma only_created_trans (g1 g2 g3 : grid) :
  only_created g1 g2 -> only_created g2 g3 -> only_created g1 g3.
Proof.
  intros H12 H23 rc. destruct (H12 rc) as [E | [E1 E2]], (H23 rc) as [F | [F1 F2]].
  - left. congruence.
  - right. split; [congruence | exact F2].
  - right. split; [exact E1 | rewrite F; exact E2].
  - destruct E2; congruence.
Qed.

Lemma only_created_materialize (t : string) (g : grid) (rc : Z * Z) :
  t = "" \/ t = "0" -> only_created g (materialize t g rc).
Proof.
  intros Ht rc'. rewrite lookup_materialize. destruct (g !! rc'); [now left|].
  destruct (decide (rc = rc')); [|now left].
  right. split; [reflexivity|]. destruct Ht as [-> | ->]; auto.
Qed.

Lemma only_created_touched (o : option (Z * Z)) (g : grid) :
  only_created g (touched o g).
Proof.
  destruct o; [apply only_created_materialize; now left | apply only_created_refl].
Qed.

Lemma only_created_ends_touched (range_str : string) (g : grid) :
  only_created g (ends_touched range_str g).
Proof.
  unfold ends_touched.
  destruct (split_on ":" range_str) as [|a [|b [|? ?]]]; try apply only_created_refl.
  eapply only_created_trans; apply only_created_touched.
Qed.

Lemma only_created_resolved (x y : Z * Z) (g : grid) : only_created g (resolved x y g).
Proof.
  intros rc. rewrite lookup_resolved. destruct (g !! rc); [now left|].
  destruct (decide (x = rc)); [right; auto|].
  destruct (decide (y = rc)); [right; auto|].
  destruct (decide (rc ∈ cells_between x y)); [right; auto | now left].
Qed.

Lemma materialize_present (t : string) (g : grid) (rc : Z * Z) :
  is_Some (g !! rc) -> materialize t g rc = g.
Proof. intros [u Hu]. unfold materialize. rewrite Hu. reflexivity. Qed.

Lemma materialize_idem (t : string) (g : grid) (rc : Z * Z) :
  materialize t (materialize t g rc) rc = materialize t g rc.
Proof.
  apply materialize_present. rewrite lookup_materialize.
  destruct (g !! rc); [eauto|]. rewrite decide_True by reflexivity. eauto.
Qed.

Lemma touched_touched (o1 o2 : option (Z * Z)) (g : grid) :
  touched o2 (touched o1 (touched o2 (touched o1 g))) = touched o2 (touched o1 g).
Proof.
  apply map_eq. intros rc. destruct o1 as [a|], o2 as [b|]; cbn [touched];
    rewrite ?lookup_materialize; try reflexivity;
    destruct (g !! rc); try reflexivity;
    repeat (match goal with |- context [decide (?p = rc)] => destruct (decide (p = rc)) end;
            try reflexivity).
Qed.

Lemma ends_touched_idem (range_str : string) (g : grid) :
  ends_touched range_str (ends_touched range_str g) = ends_touched range_str g.
Proof.
  unfold ends_touched.
  destruct (split_on ":" range_str) as [|a [|b [|? ?]]]; try reflexivity.
  apply touched_touched.
Qed.

Lemma resolved_idem (x y : Z * Z) (g : grid) :
  resolved x y (resolved x y g) = resolved x y g.
Proof.
  apply map_eq. intros rc. rewrite !lookup_resolved.
  destruct (g !! rc); [reflexivity|].
  destruct (decide (x = rc)); [reflexivity|].
  destruct (decide (y = rc)); [reflexivity|].
  destruct (decide (rc ∈ cells_between x y)); reflexivity.
Qed.

Lemma get_cell_from_id_touched (s : string) (g : grid) :
  get_cell_from_id s g = (Returned (decode s), touched (decode s) g).
Proof.
  destruct (decode s) as [rc|] eqn:Hd.
  - apply get_cell_from_id_decode, Hd.
  - apply get_cell_from_id_no_match, Hd.
Qed.

(** A range that does not decode to two corners raises, after its ends
    have been looked up. *)
Lemma get_cells_in_range_failure (range_str : string) (g : grid) :
  range_bounds range_str = None ->
  exists e, get_cells_in_range range_str g = (Raised e, ends_touched range_str g).
Proof.
  unfold range_bounds, get_cells_in_range, ends_touched.
  destruct (split_on ":" range_str) as [|a [|b [|? ?]]];
    try (intros _; eexists; reflexivity).
  intros Hb. unfold bind. rewrite !get_cell_from_id_touched.
  destruct (decode a) as [[? ?]|], (decode b) as [[? ?]|]; try discriminate;
    eexists; reflexivity.
Qed.

Section Grid.
Context `{RT : Runtime}.

(** The body of the [try] in two cases. *)
Lemma aggregate_bounds (name range_str : string) (x y : Z * Z) (g : grid) :
  range_bounds range_str = Some (x, y) ->
  aggregate name range_str g =
  (finish_aggregate name (values_of (resolved x y g) (cells_between x y)),
   resolved x y g).
Proof.
  intros Hb. unfold aggregate, bind.
  rewrite (get_cells_in_range_bounds _ _ _ _ Hb), cell_values_values_of.
  unfold finish_aggregate.
  destruct (values_of (resolved x y g) (cells_between x y)) as [[|v0 rest]|e];
    try reflexivity.
  destruct (String.eqb name "SUM"); [reflexivity|].
  destruct (String.eqb name "AVERAGE").
  { unfold lift. destruct (truediv _ _); reflexivity. }
  destruct (String.eqb name "MIN"); [reflexivity|].
  destruct (String.eqb name "MAX"); [reflexivity|].
  destruct (String.eqb name "COUNT"); reflexivity.
Qed.

Lemma aggregate_failure (name range_str : string) (g : grid) :
  range_bounds range_str = None ->
  exists e, aggregate name range_str g = (Raised e, ends_touched range_str g).
Proof.
  intros Hb. destruct (get_cells_in_range_failure _ g Hb) as (e & He).
  exists e. unfold aggregate, bind. rewrite He. reflexivity.
Qed.

Lemma aggregate_idem (name range_str : string) (g g1 : grid)
    (o : outcome (option string)) :
  aggregate name range_str g = (o, g1) -> aggregate name range_str g1 = (o, g1).
Proof.
  destruct (range_bounds range_str) as [[x y]|] eqn:Hb.
  - rewrite (aggregate_bounds _ _ _ _ g Hb). intros [= <- <-].
    rewrite (aggregate_bounds _ _ _ _ _ Hb), resolved_idem. reflexivity.
  - destruct (aggregate_failure name _ g Hb) as (e & He). rewrite He.
    intros [= <- <-].
    destruct (aggregate_failure name _ (ends_touched range_str g) Hb) as (e' & He').
    rewrite He', ends_touched_idem. f_equal.
    rewrite ends_touched_idem in He'.
    (* the exception is decided by the strings alone *)
    clear -He He' Hb. unfold aggregate, bind, get_cells_in_range in He, He'.
    unfold range_bounds in Hb.
    destruct (split_on ":" range_str) as [|a [|b [|? ?]]];
      try (injection He as <-; injection He' as <-; reflexivity).
    unfold bind in He, He'. rewrite !get_cell_from_id_touched in He, He'.
    destruct (decode a) as [[? ?]|], (decode b) as [[? ?]|]; try discriminate;
      injection He as <-; injection He' as <-; reflexivity.
Qed.

Lemma only_created_aggregate (name range_str : string) (g : grid) :
  only_created g (snd (aggregate name range_str g)).
Proof.
  destruct (range_bounds range_str) as [[x y]|] eqn:Hb.
  - rewrite (aggregate_bounds _ _ _ _ g Hb). apply only_created_resolved.
  - destruct (aggregate_failure name _ g Hb) as (e & ->). apply only_created_ends_touched.
Qed.

Lemma numeric_cell_present (g : grid) (rc : Z * Z) (l : float_lit) :
  float_of_str (cell_text g rc) = Some l -> is_Some (g !! rc).
Proof.
  unfold cell_text. destruct (g !! rc); [eauto | discriminate].
Qed.

Lemma replace_loop_idem (refs : list string) (formula s : string) (g g1 : grid) :
  replace_loop refs formula g = (Returned s, g1) ->
  replace_loop refs formula g1 = (Returned s, g1).
Proof.
  revert formula g; induction refs as [|r rest IH]; intros formula g.
  - intros [= <- <-]. reflexivity.
  - rewrite !replace_loop_step. destruct (decode r) as [rc|] eqn:Hd; [|apply IH].
    destruct (float_of_str (cell_text g rc)) as [l|] eqn:Hl.
    + rewrite (materialize_present _ g rc (numeric_cell_present _ _ _ Hl)).
      intros Hrun. pose proof (IH _ _ Hrun) as Hagain.
      destruct (replace_loop_grid _ _ _ _ _ rc Hrun) as [E | [E _]].
      * assert (Ht : cell_text g1 rc = cell_text g rc) by (unfold cell_text; now rewrite E).
        rewrite Ht, Hl.
        rewrite materialize_present; [exact Hagain|].
        rewrite E. apply (numeric_cell_present _ _ _ Hl).
      * destruct (numeric_cell_present _ _ _ Hl) as [u Hu]. congruence.
    + intros [= <- <-]. rewrite cell_text_materialize_empty, Hl, materialize_idem.
      reflexivity.
Qed.

End Grid.

(** X3. Evaluating a formula never changes or removes the text of a cell
    the grid holds; whatever the outcome, errors included, the only
    change is that cells the grid did not hold may have been created with
    the empty text or the text 0. *)
Theorem evaluate_formula_only_creates `{RT : Runtime} (formula : string) (g : grid) :
  only_created g (snd (evaluate_formula formula g)) /\
  forall rc t, g !! rc = Some t -> snd (evaluate_formula formula g) !! rc = Some t.
Proof.
  assert (H : only_created g (snd (evaluate_formula formula g))).
  { destruct formula as [|c f1]; [apply only_created_refl|].
    destruct (ascii_dec c "=") as [-> | Hc].
    2: { rewrite evaluate_formula_literal by congruence. apply only_created_refl. }
    cbn [evaluate_formula]. destruct (is_aggregate f1).
    - unfold handle_special_function.
      destruct (match_function f1) as [[name rs]|]; [|apply only_created_refl].
      pose proof (only_created_aggregate name rs g) as Ha. unfold try_except.
      destruct (aggregate name rs g) as [[o|e] g1]; exact Ha.
    - unfold bind, replace_cell_references.
      destruct (replace_loop_returns (findall_refs f1) f1 g) as (f2 & g1 & Hr).
      rewrite Hr.
      assert (Hg : only_created g g1).
      { intros rc. destruct (replace_loop_grid _ _ _ _ _ rc Hr) as [E | [E1 E2]]; auto. }
      destruct (String.prefix "ERROR" f2); [exact Hg|].
      destruct (negb (all_chars allowed_char f2)); [exact Hg|].
      destruct (py_eval f2); exact Hg. }
  split; [exact H|]. intros rc t Hg. destruct (H rc) as [E | [E _]]; congruence.
Qed.

(** X4. Evaluating a formula a second time, in the grid the first
    evaluation left, returns the same outcome and changes nothing more:
    the side effects of an evaluation happen once. *)
Theorem evaluate_formula_again `{RT : Runtime} (formula : string) (g g1 : grid)
    (o : outcome (option string)) :
  evaluate_formula formula g = (o, g1) -> evaluate_formula formula g1 = (o, g1).
Proof.
  destruct formula as [|c f1]; [intros [= <- <-]; reflexivity|].
  destruct (ascii_dec c "=") as [-> | Hc].
  2: { rewrite !evaluate_formula_literal by congruence. intros [= <- <-]. reflexivity. }
  cbn [evaluate_formula]. destruct (is_aggregate f1).
  - unfold handle_special_function.
    destruct (match_function f1) as [[name rs]|]; [|intros [= <- <-]; reflexivity].
    unfold try_except.
    destruct (aggregate name rs g) as [[r|e] g2] eqn:Ha.
    + intros [= <- <-]. rewrite (aggregate_idem _ _ _ _ _ Ha). reflexivity.
    + intros [= <- <-]. rewrite (aggregate_idem _ _ _ _ _ Ha). reflexivity.
  - unfold bind, replace_cell_references.
    destruct (replace_loop_returns (findall_refs f1) f1 g) as (f2 & g2 & Hr).
    rewrite Hr. intros Hres.
    assert (Hg : g1 = g2).
    { destruct (String.prefix "ERROR" f2); [now injection Hres|].
      destruct (negb (all_chars allowed_char f2)); [now injection Hres|].
      destruct (py_eval f2); now injection Hres. }
    subst g2. rewrite (replace_loop_idem _ _ _ _ _ Hr). exact Hres.
Qed.

Lemma evaluate_formula_again_witness :
  evaluate_formula (RT := int_runtime) "=SUM(A1:B2)"
    (snd (evaluate_formula (RT := int_runtime) "=SUM(A1:B2)" grid_0_5_0))
  = evaluate_formula (RT := int_runtime) "=SUM(A1:B2)" grid_0_5_0.
Proof.
  rewrite (evaluate_formula_again (RT := int_runtime) "=SUM(A1:B2)" grid_0_5_0
             (snd (evaluate_formula (RT := int_runtime) "=SUM(A1:B2)" grid_0_5_0))
             (fst (evaluate_formula (RT := int_runtime) "=SUM(A1:B2)" grid_0_5_0)));
    reflexivity.
Defined.

Lemma evaluate_formula_only_creates_witness :
  snd (evaluate_formula (RT := int_runtime) "=SUM(A1:B3)" grid_0_5_0) !! (1, 0) = Some "5".
Proof.
  apply (proj2 (evaluate_formula_only_creates (RT := int_runtime) "=SUM(A1:B3)" grid_0_5_0)).
  reflexivity.
Defined.

(** ** Aggregate formulas: failures and trailing text *)

Lemma string_app_assoc (a b c : string) : (a +:+ b) +:+ c = a +:+ (b +:+ c).
Proof.
  induction a as [|x a IH]; [reflexivity|].
  change (String x ((a +:+ b) +:+ c) = String x (a +:+ (b +:+ c))). now rewrite IH.
Qed.

(** X5. When a cell of a well-formed range holds a text that is not empty
    and that [float] does not read, every aggregate function returns the
    error text that names it, and the cells of the range have been
    created all the same. *)
Theorem aggregate_non_numeric_cell `{RT : Runtime} (name range_str : string)
    (x y rc : Z * Z) (t : string) (g : grid) :
  name ∈ aggregate_names -> well_formed_range range_str = true ->
  range_bounds range_str = Some (x, y) -> within x y rc ->
  g !! rc = Some t -> nonempty t = true -> float_of_str t = None ->
  evaluate_formula (String "=" (name +:+ "(" +:+ range_str +:+ ")")) g =
    (Returned (Some ("ERROR: Invalid " +:+ name +:+ " range")), resolved x y g).
Proof.
  intros Hn Hwf Hb Hw Hg Ht Hf.
  rewrite evaluate_call by (assumption || apply well_formed_range_no_lf, Hwf).
  unfold try_except. rewrite (aggregate_bounds _ _ _ _ g Hb).
  assert (He : float_or_zero (cell_text (resolved x y g) rc) = Raised ValueError).
  { unfold cell_text. rewrite lookup_resolved, Hg.
    change (default EmptyString (Some t)) with t.
    unfold float_or_zero. rewrite Ht, Hf. reflexivity. }
  destruct (values_of_raises _ _ _ _ (proj2 (elem_of_cells_between x y rc) Hw) He)
    as (e' & ->).
  reflexivity.
Qed.

Lemma aggregate_non_numeric_cell_witness :
  evaluate_formula (RT := int_runtime) (String "=" ("MAX" +:+ "(" +:+ "A1:B2" +:+ ")"))
    (<[(1, 0) := "n/a"]> ∅) =
    (Returned (Some ("ERROR: Invalid " +:+ "MAX" +:+ " range")),
     resolved (0, 0) (1, 1) (<[(1, 0) := "n/a"]> ∅)).
Proof.
  apply (aggregate_non_numeric_cell (RT := int_runtime) "MAX" "A1:B2" (0, 0) (1, 1)
           (1, 0) "n/a"); try reflexivity.
  - unfold aggregate_names. set_solver.
  - unfold within. cbn. lia.
Defined.

(** X6. When the text between the parentheses has no line feed and does
    not decode to two corners, every aggregate function returns the error
    text that names it; an end that does decode has been looked up before
    the failure, so that its cell now exists with the empty text if it
    was absent. *)
Theorem aggregate_malformed_range_effect `{RT : Runtime} (name range_str : string)
    (g : grid) :
  name ∈ aggregate_names -> all_chars not_lf range_str = true ->
  range_bounds range_str = None ->
  evaluate_formula (String "=" (name +:+ "(" +:+ range_str +:+ ")")) g =
    (Returned (Some ("ERROR: Invalid " +:+ name +:+ " range")),
     ends_touched range_str g) /\
  (forall a b rc, split_on ":" range_str = [a; b] -> decode a = Some rc ->
     g !! rc = None -> ends_touched range_str g !! rc = Some "").
Proof.
  intros Hn Hl Hb. split.
  - rewrite evaluate_call by assumption. unfold try_except.
    destruct (aggregate_failure name _ g Hb) as (e & ->). reflexivity.
  - intros a b rc Hs Ha Hg. unfold ends_touched. rewrite Hs, Ha. cbn [touched].
    destruct (decode b) as [rc'|]; cbn [touched];
      rewrite !lookup_materialize, Hg, decide_True by reflexivity; reflexivity.
Qed.

Lemma aggregate_malformed_range_effect_witness :
  evaluate_formula (RT := int_runtime) (String "=" ("SUM" +:+ "(" +:+ "A1:b2" +:+ ")")) ∅ =
    (Returned (Some ("ERROR: Invalid " +:+ "SUM" +:+ " range")),
     ends_touched "A1:b2" ∅) /\
  ends_touched "A1:b2" ∅ !! (0, 0) = Some "".
Proof.
  destruct (aggregate_malformed_range_effect (RT := int_runtime) "SUM" "A1:b2" ∅)
    as [H1 H2]; try reflexivity.
  - unfold aggregate_names. set_solver.
  - split; [exact H1|]. apply (H2 "A1" "b2"); reflexivity.
Defined.

Lemma upper_prefix_app (p junk : string) :
  all_chars is_upper p = false ->
  upper_prefix (p +:+ junk) = upper_prefix p /\
  skip_upper (p +:+ junk) = skip_upper p +:+ junk.
Proof.
  induction p as [|c p IH]; [discriminate|]. simpl.
  destruct (is_upper c); [|intros _; split; reflexivity].
  intros Hp. destruct (IH Hp) as [-> ->]. split; reflexivity.
Qed.

Lemma skip_upper_snoc (c : ascii) (p : string) :
  is_upper c = false -> exists s, skip_upper (p +:+ String c EmptyString) = s +:+ String c EmptyString.
Proof.
  intros Hc. induction p as [|x p (s & IH)]; simpl.
  - rewrite Hc. exists EmptyString. reflexivity.
  - destruct (is_upper x); [exists s; exact IH|]. exists (String x p). reflexivity.
Qed.

Lemma before_last_absent (c : ascii) (s : string) :
  all_chars (not_char c) s = true -> before_last c s = None.
Proof.
  induction s as [|x s IH]; [reflexivity|]. cbn [all_chars before_last].
  intros [Hx Hs]%andb_prop. rewrite (IH Hs). unfold not_char in Hx.
  destruct (Ascii.eqb x c); [discriminate | reflexivity].
Qed.

Lemma line_prefix_keeps (p : ascii -> bool) (s : string) :
  all_chars p s = true -> all_chars p (line_prefix s) = true.
Proof.
  induction s as [|x s IH]; [reflexivity|]. cbn [all_chars line_prefix].
  intros [Hx Hs]%andb_prop. destruct (Ascii.eqb x "010"); [reflexivity|].
  cbn [all_chars]. rewrite Hx, (IH Hs). reflexivity.
Qed.

Lemma before_last_trailing (s junk : string) :
  all_chars (not_char ")") junk = true ->
  before_last ")" (line_prefix (s +:+ String ")" junk)) =
  before_last ")" (line_prefix (s +:+ ")")).
Proof.
  intros Hj. induction s as [|x s IH]; simpl.
  - rewrite (before_last_absent _ _ (line_prefix_keeps _ _ Hj)). reflexivity.
  - destruct (Ascii.eqb x "010"); [reflexivity|]. simpl. rewrite IH. reflexivity.
Qed.

Lemma match_function_trailing (p junk : string) :
  all_chars (not_char ")") junk = true ->
  match_function ((p +:+ ")") +:+ junk) = match_function (p +:+ ")").
Proof.
  intros Hj. unfold match_function.
  assert (Hp : all_chars is_upper (p +:+ ")") = false).
  { rewrite all_chars_app. cbn. apply andb_false_r. }
  destruct (upper_prefix_app _ junk Hp) as [-> ->].
  destruct (nonempty (upper_prefix (p +:+ ")"))); [|reflexivity].
  destruct (skip_upper_snoc ")" p eq_refl) as (s & ->).
  destruct s as [|c s]; [reflexivity|].
  change ((String c s +:+ ")") +:+ junk) with (String c ((s +:+ ")") +:+ junk)).
  change (String c s +:+ ")") with (String c (s +:+ ")")).
  destruct (ascii_dec c "(") as [->|Hc].
  - rewrite string_app_assoc.
    change (")" +:+ junk) with (String ")" junk).
    rewrite before_last_trailing by exact Hj. reflexivity.
  - destruct c as [[] [] [] [] [] [] [] []]; try reflexivity. contradiction.
Qed.

(** X7. What follows the closing parenthesis of an aggregate formula is
    ignored, as long as it holds no closing parenthesis itself: the
    formula evaluates as if it ended there, so that =SUM(A1:A3)+100
    returns the sum alone. *)
Theorem text_after_aggregate_ignored `{RT : Runtime} (p junk : string) (g : grid) :
  is_aggregate (p +:+ ")") = true ->
  all_chars (not_char ")") junk = true ->
  evaluate_formula (String "=" ((p +:+ ")") +:+ junk)) g =
  evaluate_formula (String "=" (p +:+ ")")) g.
Proof.
  intros Hagg Hj. cbn [evaluate_formula]. rewrite Hagg.
  assert (Hagg' : is_aggregate ((p +:+ ")") +:+ junk) = true).
  { unfold is_aggregate in *. apply existsb_exists in Hagg as (q & Hq & Hpre).
    apply existsb_exists. exists q. split; [exact Hq|].
    apply prefix_app in Hpre as (r & ->). rewrite string_app_assoc.
    apply prefix_append. }
  rewrite Hagg'. unfold handle_special_function.
  rewrite match_function_trailing by exact Hj. reflexivity.
Qed.

Lemma text_after_aggregate_ignored_witness :
  evaluate_formula (RT := int_runtime) (String "=" (("SUM(A1:A3" +:+ ")") +:+ "+100"))
    grid_0_5_0 =
  evaluate_formula (RT := int_runtime) (String "=" ("SUM(A1:A3" +:+ ")")) grid_0_5_0.
Proof. apply (text_after_aggregate_ignored (RT := int_runtime)); reflexivity. Defined.

(** ** Arithmetic formulas and eval *)

Lemma allowed_char_not_upper (c : ascii) : allowed_char c = true -> is_upper c = false.
Proof. destruct c as [[] [] [] [] [] [] [] []]; try discriminate; reflexivity. Qed.

Lemma findall_refs_no_upper (s : string) :
  all_chars (fun c => negb (is_upper c)) s = true -> findall_refs s = [].
Proof.
  induction s as [|c s IH]; [reflexivity|]. cbn [all_chars findall_refs].
  intros [Hc Hs]%andb_prop. apply negb_true_iff in Hc. rewrite Hc. apply IH, Hs.
Qed.

Lemma prefix_upper_first (q s : string) (c : ascii) :
  is_upper c = true ->
  match s with String x _ => is_upper x = false | EmptyString => True end ->
  String.prefix (String c q) s = false.
Proof.
  intros Hc Hs. destruct s as [|x s]; [reflexivity|]. simpl.
  destruct (ascii_dec c x) as [->|]; [congruence | reflexivity].
Qed.

Section Arithmetic.
Context `{RT : Runtime}.

(** X8. A formula made of digits, the four operators, parentheses, dots
    and spaces only is handed to [eval] as it is and leaves the grid
    untouched: the result is what [eval] yields, or the text ERROR:
    Invalid formula with the message of the exception. *)
Theorem evaluate_plain_arithmetic (f1 : string) (g : grid) :
  all_chars allowed_char f1 = true ->
  evaluate_formula (String "=" f1) g =
    (Returned (Some (match py_eval f1 with
                     | inl result => result
                     | inr e => "ERROR: Invalid formula (" +:+ e +:+ ")"
                     end)), g).
Proof.
  intros Hall.
  assert (Hfirst : match f1 with
                   | String x _ => is_upper x = false
                   | EmptyString => True
                   end).
  { destruct f1 as [|x s]; [exact I|]. cbn [all_chars] in Hall.
    apply andb_prop in Hall as [Hx _]. apply allowed_char_not_upper, Hx. }
  assert (Hagg : is_aggregate f1 = false).
  { unfold is_aggregate. cbn [existsb].
    rewrite !prefix_upper_first by (reflexivity || exact Hfirst). reflexivity. }
  assert (Hrefs : findall_refs f1 = []).
  { apply findall_refs_no_upper. apply (all_chars_impl allowed_char); [|exact Hall].
    intros c Hc. rewrite (allowed_char_not_upper c Hc). reflexivity. }
  cbn [evaluate_formula]. rewrite Hagg. unfold bind, replace_cell_references.
  rewrite Hrefs. cbn [replace_loop]. unfold ret.
  rewrite prefix_upper_first by (reflexivity || exact Hfirst).
  rewrite Hall. cbn [negb]. destruct (py_eval f1); reflexivity.
Qed.

End Arithmetic.

Lemma evaluate_plain_arithmetic_witness :
  evaluate_formula (RT := int_runtime) (String "=" "(1+2)*3") grid_0_5_0 =
    (Returned (Some (match py_eval (Runtime := int_runtime) "(1+2)*3" with
                     | inl result => result
                     | inr e => "ERROR: Invalid formula (" +:+ e +:+ ")"
                     end)), grid_0_5_0).
Proof. apply (evaluate_plain_arithmetic (RT := int_runtime)). reflexivity. Defined.

(** X9. [eval] is never applied to a string with a character outside the
    allowed set: two runtimes whose [eval] agree on the strings made of
    allowed characters evaluate every formula alike, in every grid. *)
Theorem eval_only_on_allowed_strings (RT : Runtime) (ev1 ev2 : string -> string + string)
    (formula : string) (g : grid) :
  (forall s, all_chars allowed_char s = true -> ev1 s = ev2 s) ->
  evaluate_formula (RT := with_eval RT ev1) formula g =
  evaluate_formula (RT := with_eval RT ev2) formula g.
Proof.
  intros Hev. destruct formula as [|c f1]; [reflexivity|].
  destruct (ascii_dec c "=") as [-> | Hc].
  2: { rewrite !evaluate_formula_literal by congruence. reflexivity. }
  cbn [evaluate_formula]. destruct (is_aggregate f1); [reflexivity|].
  unfold bind.
  change (replace_cell_references (RT := with_eval RT ev2) f1 g)
    with (replace_cell_references (RT := with_eval RT ev1) f1 g).
  destruct (replace_cell_references (RT := with_eval RT ev1) f1 g) as [[f2|e] g1];
    [|reflexivity].
  destruct (String.prefix "ERROR" f2); [reflexivity|].
  destruct (all_chars allowed_char f2) eqn:Hall; [|reflexivity].
  cbn [negb]. change (py_eval (Runtime := with_eval RT ev1) f2) with (ev1 f2).
  change (py_eval (Runtime := with_eval RT ev2) f2) with (ev2 f2).
  rewrite (Hev f2 Hall). reflexivity.
Qed.

Lemma eval_only_on_allowed_strings_witness :
  evaluate_formula
    (RT := with_eval int_runtime (fun s => if all_chars allowed_char s then inl s else inr s))
    "=A1+1" grid_0_5_0 =
  evaluate_formula (RT := with_eval int_runtime inl) "=A1+1" grid_0_5_0.
Proof.
  apply (eval_only_on_allowed_strings int_runtime). intros s Hs. rewrite Hs. reflexivity.
Defined.

(** ** Validation rules and formulas *)

Lemma float_of_str_formula (s : string) : float_of_str (String "=" s) = None.
Proof.
  unfold float_of_str. cbn [lstrip]. change (is_space "=") with false. cbv iota.
  cbn [rstrip]. change (is_space "=") with false. cbn [andb]. cbv iota.
  cbn [strip_underscores]. change (Ascii.eqb "=" "_") with false.
  change (Ascii.eqb "000" "_") with false. cbn [andb]. cbv iota.
  destruct (strip_underscores "=" (rstrip s)) as [u|]; [|reflexivity].
  reflexivity.
Qed.

Section Validation.
Context `{RT : Runtime}.

(** X10. A cell with a rule of type Number Only or Custom Range rejects
    every text that begins with the equals sign, whatever the bounds: such
    a cell cannot be given a formula.  A cell with a rule of type Text
    Only accepts every such text. *)
Theorem formulas_and_rules (row col : Z) (s cell_id : string)
    (cell_validations : gmap string validation) (rule : validation) :
  get_cell_id row col = Returned cell_id ->
  cell_validations !! cell_id = Some rule ->
  (v_type rule = "Number Only" \/ v_type rule = "Custom Range" ->
   validate_cell_input (Some (row, col, String "=" s)) (Some cell_validations)
     = Returned false) /\
  (v_type rule = "Text Only" ->
   validate_cell_input (Some (row, col, String "=" s)) (Some cell_validations)
     = Returned true).
Proof.
  intros Hid Hrule. unfold validate_cell_input.
  rewrite Hid, Hrule, float_of_str_formula.
  split; [intros [-> | ->] | intros ->]; reflexivity.
Qed.

(** X11. A rule of type Custom Range whose lower or upper bound is a text
    that is not empty and that [float] does not read rejects every text,
    numbers included. *)
Theorem custom_range_malformed_bound (row col : Z) (value cell_id bound : string)
    (cell_validations : gmap string validation) (rule : validation) :
  get_cell_id row col = Returned cell_id ->
  cell_validations !! cell_id = Some rule ->
  v_type rule = "Custom Range" ->
  v_min rule = Some bound \/ v_max rule = Some bound ->
  nonempty bound = true -> float_of_str bound = None ->
  validate_cell_input (Some (row, col, value)) (Some cell_validations) = Returned false.
Proof.
  intros Hid Hrule Hty Hb Hn Hf. unfold validate_cell_input.
  rewrite Hid, Hrule, Hty. cbn [String.eqb Ascii.eqb Bool.eqb].
  assert (Hbad : forall inf, bound_or inf (Some bound) = None)
    by (intros inf; unfold bound_or; rewrite Hn, Hf; reflexivity).
  destruct (float_of_str value); [|reflexivity].
  destruct Hb as [-> | ->]; rewrite ?Hbad; [reflexivity|].
  destruct (bound_or (Lit_inf true) (v_min rule)); reflexivity.
Qed.

End Validation.

Lemma formulas_and_rules_witness :
  validate_cell_input (RT := int_runtime) (Some (0, 0, String "=" "1+2"))
    (Some (<["A1" := number_only]> ∅)) = Returned false.
Proof.
  apply (formulas_and_rules (RT := int_runtime) 0 0 "1+2" "A1"
           (<["A1" := number_only]> ∅) number_only); try reflexivity.
  left. reflexivity.
Defined.

Lemma custom_range_malformed_bound_witness :
  validate_cell_input (RT := int_runtime) (Some (0, 0, "5"))
    (Some (<["A1" := {| v_type := "Custom Range"; v_min := Some "low";
                        v_max := Some "10" |}]> ∅)) = Returned false.
Proof.
  apply (custom_range_malformed_bound (RT := int_runtime) 0 0 "5" "A1" "low"
           (<["A1" := {| v_type := "Custom Range"; v_min := Some "low";
                         v_max := Some "10" |}]> ∅)
           {| v_type := "Custom Range"; v_min := Some "low"; v_max := Some "10" |});
    try reflexivity.
  left. reflexivity.
Defined.

(** ** Addresses: what the decoders accept *)

Lemma digits_prefix_app (t s : string) :
  all_chars is_digit t = true -> no_digit_first s = true ->
  digits_prefix (t +:+ s) = t.
Proof.
  intros Ht Hs. induction t as [|c t IH].
  - destruct s as [|x s]; [reflexivity|]. cbn [no_digit_first] in Hs.
    apply negb_true_iff in Hs.
    change (EmptyString +:+ String x s) with (String x s).
    cbn [digits_prefix]. rewrite Hs. reflexivity.
  - cbn [all_chars] in Ht. apply andb_prop in Ht as [Hc Ht].
    change (String c t +:+ s) with (String c (t +:+ s)).
    cbn [digits_prefix]. rewrite Hc, (IH Ht). reflexivity.
Qed.

Lemma decode_app (a s : string) :
  is_address a = true -> no_digit_first s = true -> decode (a +:+ s) = decode a.
Proof.
  destruct a as [|c t]; [discriminate|]. cbn [is_address].
  intros [[Hc Hn]%andb_prop Hd]%andb_prop Hs.
  change (String c t +:+ s) with (String c (t +:+ s)). cbn [decode].
  rewrite (digits_prefix_app t s Hd Hs), (digits_prefix_all t Hd). reflexivity.
Qed.

Lemma all_chars_upper_or_digit_address (a : string) :
  is_address a = true -> all_chars (fun c => is_upper c || is_digit c) a = true.
Proof.
  destruct a as [|c t]; [discriminate|]. cbn [is_address all_chars].
  intros [[Hc Hn]%andb_prop Hd]%andb_prop. rewrite Hc. cbn.
  apply (all_chars_impl is_digit); [|exact Hd]. intros x ->. apply orb_true_r.
Qed.

(** X12. The ends of a range are matched at their start only: text after
    the digits of either end is ignored, as long as it does not go on
    with a digit and holds no colon, so that A1x:B2y resolves as A1:B2. *)
Theorem get_cells_in_range_trailing_text (a b s1 s2 : string) (g : grid) :
  is_address a = true -> is_address b = true ->
  no_digit_first s1 = true -> no_digit_first s2 = true ->
  all_chars (not_char ":") s1 = true -> all_chars (not_char ":") s2 = true ->
  get_cells_in_range ((a +:+ s1) +:+ ":" +:+ (b +:+ s2)) g =
  get_cells_in_range (a +:+ ":" +:+ b) g.
Proof.
  intros Ha Hb H1 H2 C1 C2.
  destruct (is_address_decode a Ha) as (x & Hx).
  destruct (is_address_decode b Hb) as (y & Hy).
  rewrite (get_cells_in_range_bounds _ x y g (range_bounds_addresses a b x y Ha Hb Hx Hy)).
  apply get_cells_in_range_bounds. unfold range_bounds.
  change ((a +:+ s1) +:+ ":" +:+ (b +:+ s2)) with ((a +:+ s1) +:+ String ":" (b +:+ s2)).
  rewrite split_on_app
    by (rewrite all_chars_app, (is_address_no_colon a Ha), C1; reflexivity).
  rewrite split_on_no_sep
    by (rewrite all_chars_app, (is_address_no_colon b Hb), C2; reflexivity).
  rewrite (decode_app a s1 Ha H1), (decode_app b s2 Hb H2), Hx, Hy. reflexivity.
Qed.

Lemma get_cells_in_range_trailing_text_witness :
  get_cells_in_range (("A1" +:+ "x") +:+ ":" +:+ ("B2" +:+ "y")) ∅ =
  get_cells_in_range ("A1" +:+ ":" +:+ "B2") ∅.
Proof. apply get_cells_in_range_trailing_text; reflexivity. Defined.

Lemma is_digit_cases (c : ascii) :
  is_digit c = true ->
  (c = "0" \/ c = "1" \/ c = "2" \/ c = "3" \/ c = "4" \/
   c = "5" \/ c = "6" \/ c = "7" \/ c = "8" \/ c = "9")%char.
Proof. destruct c as [[] [] [] [] [] [] [] []]; try discriminate; intros _; tauto. Qed.

Lemma digits_uint (ds : string) :
  all_chars is_digit ds = true ->
  exists u, NilEmpty.string_of_uint u = ds.
Proof.
  induction ds as [|c ds IH]; [exists Decimal.Nil; reflexivity|].
  cbn [all_chars]. intros [Hc (u & <-)%IH]%andb_prop.
  destruct (is_digit_cases c Hc) as [-> | [-> | [-> | [-> | [-> | [-> | [-> | [-> | [-> | ->]]]]]]]]];
    [exists (Decimal.D0 u) | exists (Decimal.D1 u) | exists (Decimal.D2 u)
     | exists (Decimal.D3 u) | exists (Decimal.D4 u) | exists (Decimal.D5 u)
     | exists (Decimal.D6 u) | exists (Decimal.D7 u) | exists (Decimal.D8 u)
     | exists (Decimal.D9 u)]; reflexivity.
Qed.

Lemma str_int_of_uint (u : Decimal.uint) :
  str_int (Z.of_N (Pos.of_uint u)) = NilZero.string_of_uint (Decimal.unorm u).
Proof.
  unfold str_int. change (Z.of_N (Pos.of_uint u)) with (Z.of_int (Decimal.Pos u)).
  rewrite DecimalZ.to_of. reflexivity.
Qed.

Lemma str_int_int_of_str (ds : string) :
  canonical_digits ds = true -> str_int (int_of_str ds) = ds.
Proof.
  destruct ds as [|c t]; [discriminate|]. unfold canonical_digits.
  intros [Hz Hd]%andb_prop. destruct (digits_uint _ Hd) as (u & Hu).
  unfold int_of_str. rewrite <- Hu, int_digits_of_uint, str_int_of_uint.
  destruct u as [|u|u|u|u|u|u|u|u|u|u]; try discriminate;
    injection Hu as <- <-; try reflexivity.
  destruct u; [reflexivity | discriminate ..].
Qed.

(** X13. Decoding an address and encoding the coordinate gives the
    address back when its number is written without leading zeros: for a
    capital letter followed by such digits, [get_cell_id] of the decoded
    row and column is the address itself, whose column is in [0,25]. *)
Theorem get_cell_id_decode (c : ascii) (ds : string) :
  is_upper c = true -> canonical_digits ds = true ->
  exists row col,
    decode (String c ds) = Some (row, col) /\
    0 <= col <= 25 /\
    get_cell_id row col = Returned (String c ds).
Proof.
  intros Hc Hds. assert (Hd : all_chars is_digit ds = true).
  { destruct ds; [discriminate|]. unfold canonical_digits in Hds.
    now apply andb_prop in Hds as [_ ?]. }
  exists (int_of_str ds - 1), (ord c - 65). unfold decode.
  rewrite (digits_prefix_all ds Hd), Hc.
  assert (Hn : nonempty ds = true) by (destruct ds; [discriminate | reflexivity]).
  rewrite Hn. split; [reflexivity|].
  assert (Hr : 65 <= ord c <= 90) by (unfold is_upper in Hc; lia).
  split; [lia|]. rewrite get_cell_id_latin1 by lia.
  replace (65 + (ord c - 65)) with (ord c) by lia.
  replace (int_of_str ds - 1 + 1) with (int_of_str ds) by lia.
  rewrite (str_int_int_of_str ds Hds). unfold ord. rewrite N2Z.id, ascii_N_embedding.
  reflexivity.
Qed.

Lemma get_cell_id_decode_witness :
  exists row col,
    decode (String "C" "120") = Some (row, col) /\
    0 <= col <= 25 /\
    get_cell_id row col = Returned (String "C" "120").
Proof. apply get_cell_id_decode; reflexivity. Defined.

(** ** Saved cell ids *)

Lemma lstrip_no_space (s : string) :
  match s with String c _ => is_space c = false | EmptyString => True end ->
  lstrip s = s.
Proof. destruct s as [|c s]; [reflexivity|]. cbn [lstrip]. intros ->. reflexivity. Qed.

Lemma rstrip_no_space (s : string) :
  all_chars (fun c => negb (is_space c)) s = true -> rstrip s = s.
Proof.
  induction s as [|c s IH]; [reflexivity|]. cbn [all_chars rstrip].
  intros [Hc Hs]%andb_prop. apply negb_true_iff in Hc. rewrite Hc, (IH Hs).
  reflexivity.
Qed.

Lemma strip_underscores_none (prev : ascii) (s : string) :
  Ascii.eqb prev "_" = false -> all_chars (not_char "_") s = true ->
  strip_underscores prev s = Some s.
Proof.
  revert prev; induction s as [|c s IH]; intros prev Hp; cbn [strip_underscores all_chars].
  - intros _. rewrite Hp. reflexivity.
  - intros [Hc Hs]%andb_prop. unfold not_char in Hc. apply negb_true_iff in Hc.
    rewrite Hc, Hp. cbn [andb]. rewrite (IH c Hc Hs). reflexivity.
Qed.

Lemma is_digit_plain (c : ascii) :
  is_digit c = true ->
  is_space c = false /\ not_char "_" c = true /\ Ascii.eqb c "-" = false /\
  Ascii.eqb c "+" = false.
Proof.
  intros Hc.
  destruct (is_digit_cases c Hc) as [-> | [-> | [-> | [-> | [-> | [-> | [-> | [-> | [-> | ->]]]]]]]]];
    repeat split.
Qed.

Lemma py_int_digits (ds : string) :
  nonempty ds = true -> all_chars is_digit ds = true ->
  py_int ds = Some (int_of_str ds) /\ py_int (String "-" ds) = Some (- int_of_str ds).
Proof.
  intros Hn Hd.
  assert (Hsp : all_chars (fun c => negb (is_space c)) ds = true).
  { apply (all_chars_impl is_digit); [|exact Hd]. intros c Hc.
    destruct (is_digit_plain c Hc) as (-> & _). reflexivity. }
  assert (Hu : all_chars (not_char "_") ds = true).
  { apply (all_chars_impl is_digit); [|exact Hd]. intros c Hc.
    now destruct (is_digit_plain c Hc) as (_ & ? & _). }
  destruct ds as [|c t]; [discriminate|].
  assert (Hc : is_digit c = true) by (cbn [all_chars] in Hd; now apply andb_prop in Hd).
  destruct (is_digit_plain c Hc) as (Hc1 & Hc2 & Hc3 & Hc4).
  split; unfold py_int.
  - rewrite lstrip_no_space by exact Hc1. rewrite (rstrip_no_space _ Hsp).
    assert (Hsign : split_sign (String c t) = (false, String c t)).
    { clear -Hc3 Hc4. destruct c as [[] [] [] [] [] [] [] []]; try reflexivity; discriminate. }
    rewrite Hsign, strip_underscores_none by (reflexivity || exact Hu).
    rewrite Hn, Hd. reflexivity.
  - rewrite lstrip_no_space by reflexivity.
    assert (Hr : rstrip (String "-" (String c t)) = String "-" (String c t)).
    { apply rstrip_no_space. cbn [all_chars]. cbn [all_chars] in Hsp.
      rewrite Hsp. reflexivity. }
    rewrite Hr. cbn [split_sign].
    rewrite strip_underscores_none by (reflexivity || exact Hu).
    rewrite Hn, Hd. reflexivity.
Qed.

Lemma str_int_digits (n : Z) :
  (0 <= n -> nonempty (str_int n) = true /\ all_chars is_digit (str_int n) = true) /\
  (n < 0 -> str_int n = String "-" (str_int (- n))).
Proof.
  split.
  - intros Hn. split; [apply nonempty_str_int|].
    pose proof (digits_prefix_str_int n Hn) as Hp.
    assert (H : forall s, digits_prefix s = s -> all_chars is_digit s = true).
    { induction s as [|c s IH]; [reflexivity|]. cbn [digits_prefix all_chars].
      destruct (is_digit c); [|discriminate]. intros [= E]. now rewrite (IH E). }
    apply H, Hp.
  - intros Hn. destruct n as [|p|p]; try lia.
    change (- Z.neg p) with (Z.pos p). rewrite str_int_pos.
    unfold str_int. cbn [Z.to_int NilZero.string_of_int]. unfold NilZero.string_of_uint.
    pose proof (Unsigned.to_uint_nonnil p) as Hnn.
    destruct (Pos.to_uint p); [contradiction | reflexivity ..].
Qed.

Lemma py_int_str_int (n : Z) : py_int (str_int n) = Some n.
Proof.
  destruct (str_int_digits n) as [Hpos Hneg].
  destruct (Z_lt_le_dec n 0) as [Hn | Hn].
  - rewrite (Hneg Hn). destruct (str_int_digits (- n)) as [Hpos' _].
    destruct Hpos' as [H1 H2]; [lia|].
    destruct (py_int_digits _ H1 H2) as [_ ->].
    rewrite int_of_str_str_int by lia. f_equal. lia.
  - destruct (Hpos Hn) as [H1 H2]. destruct (py_int_digits _ H1 H2) as [-> _].
    rewrite int_of_str_str_int by lia. reflexivity.
Qed.

(** X14. The id that [save_file] writes for a cell is read back by
    [open_file] as the same row and column, for every row and for every
    column whose character exists, those beyond Z included; for such a
    column beyond Z the pattern of [get_cell_from_id] does not read the
    id. *)
Theorem open_cell_id_get_cell_id (row col : Z) :
  0 <= 65 + col < 256 ->
  exists cell_id,
    get_cell_id row col = Returned cell_id /\
    open_cell_id cell_id = Some (row, col) /\
    (25 < col -> decode cell_id = None).
Proof.
  intros Hc. eexists. split; [apply get_cell_id_latin1; lia|].
  cbn [open_cell_id]. rewrite py_int_str_int, ord_ascii_of_N by lia.
  split; [cbn; f_equal; f_equal; lia|].
  intros Hbig. cbn [decode].
  assert (Hu : is_upper (ascii_of_N (Z.to_N (65 + col))) = false)
    by (unfold is_upper; rewrite ord_ascii_of_N by lia; lia).
  rewrite Hu. reflexivity.
Qed.

Lemma open_cell_id_get_cell_id_witness :
  exists cell_id,
    get_cell_id 49 26 = Returned cell_id /\
    open_cell_id cell_id = Some (49, 26) /\
    (25 < 26 -> decode cell_id = None).
Proof. apply (open_cell_id_get_cell_id 49 26). lia. Defined.

(** ** Table data: reading, writing back, sorting again *)

Lemma write_data_lookup (t : table) (data : list (list string)) (g : grid)
    (i j : nat) (row_data : list string) (cell : string) :
  Forall (fun rd => length rd = Z.to_nat (cols t)) data ->
  data !! i = Some row_data -> row_data !! j = Some cell ->
  write_data t 0 data g !! (start_row t + Z.of_nat i + 1, start_col t + Z.of_nat j)
    = Some cell.
Proof.
  intros Hall Hi Hj. rewrite (lookup_write_data t _ 0 data g _ _ Hall).
  pose proof (lookup_lt_Some _ _ _ Hi) as Hi'.
  pose proof (lookup_lt_Some _ _ _ Hj) as Hj'.
  rewrite Forall_forall in Hall.
  rewrite (Hall row_data) in Hj' by (apply list_elem_of_lookup; eauto).
  rewrite decide_True by lia.
  replace (Z.to_nat (start_row t + Z.of_nat i + 1 - start_row t - 0 - 1)) with i by lia.
  rewrite Hi. cbn.
  replace (Z.to_nat (start_col t + Z.of_nat j - start_col t)) with j by lia.
  exact Hj.
Qed.

Lemma read_row_lookup (g : grid) (t : table) (row : Z) (j : nat) :
  read_row g t row !! j =
  if decide (Z.of_nat j < cols t)
  then Some (cell_text g (start_row t + row + 1, start_col t + Z.of_nat j))
  else None.
Proof.
  unfold read_row, py_range. rewrite list_lookup_fmap.
  destruct (decide (Z.of_nat j < cols t)).
  - rewrite lookup_seqZ_lt by lia. reflexivity.
  - rewrite lookup_seqZ_ge by lia. reflexivity.
Qed.

Lemma read_data_write_data (t : table) (data : list (list string)) (g : grid) :
  length data = Z.to_nat (rows t - 1) ->
  Forall (fun row_data => length row_data = Z.to_nat (cols t)) data ->
  read_data (write_data t 0 data g) t = data.
Proof.
  intros Hlen Hall. apply list_eq. intros i. unfold read_data, py_range.
  rewrite list_lookup_fmap.
  destruct (decide (i < length data)%nat) as [Hi | Hi].
  - rewrite lookup_seqZ_lt by lia. cbn.
    destruct (lookup_lt_is_Some_2 data i Hi) as [rd Hrd]. rewrite Hrd. f_equal.
    apply list_eq. intros j. rewrite read_row_lookup.
    pose proof (proj1 (Forall_forall _ _) Hall rd
                  (proj2 (list_elem_of_lookup _ _) (ex_intro _ i Hrd))) as Hl.
    destruct (decide (Z.of_nat j < cols t)) as [Hj | Hj].
    + cbv beta in Hl.
      destruct (lookup_lt_is_Some_2 rd j ltac:(lia)) as [cell Hcell].
      rewrite Hcell. unfold cell_text.
      replace (start_row t + (0 + Z.of_nat i) + 1) with (start_row t + Z.of_nat i + 1) by lia.
      rewrite (write_data_lookup t data g i j rd cell Hall Hrd Hcell). reflexivity.
    + cbv beta in Hl. symmetry. apply lookup_ge_None. lia.
  - rewrite lookup_seqZ_ge by lia. cbn. symmetry. apply lookup_ge_None. lia.
Qed.

(** X15. [get_table_data] after [update_table_data]: when the data has
    one row for each data row of the table and one text for each of its
    columns, reading the table back returns the data that was written,
    and no cell outside the data rows has been touched. *)
Theorem get_table_data_update_table_data (t : table) (data : list (list string))
    (g : grid) :
  length data = Z.to_nat (rows t - 1) ->
  Forall (fun row_data => length row_data = Z.to_nat (cols t)) data ->
  read_data (write_data t 0 data g) t = data /\
  (forall r c, ~ (start_row t + 1 <= r < start_row t + rows t /\
                  start_col t <= c < start_col t + cols t) ->
               write_data t 0 data g !! (r, c) = g !! (r, c)).
Proof.
  intros Hlen Hall. split; [apply read_data_write_data; assumption|].
  intros r c Hout. rewrite (lookup_write_data t _ 0 data g r c Hall), Hlen.
  rewrite decide_False; [reflexivity | lia].
Qed.

Lemma get_table_data_update_table_data_witness :
  read_data (write_data table_3_2 0 [["b"; "1"]; ["a"; "2"]] grid_table) table_3_2
    = [["b"; "1"]; ["a"; "2"]] /\
  (forall r c, ~ (start_row table_3_2 + 1 <= r < start_row table_3_2 + rows table_3_2 /\
                  start_col table_3_2 <= c < start_col table_3_2 + cols table_3_2) ->
               write_data table_3_2 0 [["b"; "1"]; ["a"; "2"]] grid_table !! (r, c)
                 = grid_table !! (r, c)).
Proof.
  apply get_table_data_update_table_data; [reflexivity | repeat constructor].
Defined.

(** X16. [update_table_data] after [get_table_data]: writing back what
    was read leaves the text of every cell as it was; the cells of the
    data rows that were absent now exist with the empty text, and no
    other cell is touched. *)
Theorem update_table_data_get_table_data (t : table) (g : grid) :
  let g' := write_data t 0 (read_data g t) g in
  (forall rc, cell_text g' rc = cell_text g rc) /\
  (forall r c, start_row t + 1 <= r < start_row t + rows t ->
               start_col t <= c < start_col t + cols t ->
               g' !! (r, c) = Some (cell_text g (r, c))) /\
  (forall r c, ~ (start_row t + 1 <= r < start_row t + rows t /\
                  start_col t <= c < start_col t + cols t) ->
               g' !! (r, c) = g !! (r, c)).
Proof.
  intros g'. destruct (read_data_shape g t) as [Hlen Hall].
  assert (Hin : forall r c, start_row t + 1 <= r < start_row t + rows t ->
                  start_col t <= c < start_col t + cols t ->
                  g' !! (r, c) = Some (cell_text g (r, c))).
  { intros r c Hr Hc.
    destruct (read_data_lookup g t (Z.to_nat (r - start_row t - 1))
                (Z.to_nat (c - start_col t))) as (rd & Hrd & Hcell); [lia | lia |].
    pose proof (write_data_lookup t _ g _ _ _ _ Hall Hrd Hcell) as H.
    replace (start_row t + Z.of_nat (Z.to_nat (r - start_row t - 1)) + 1) with r in * by lia.
    replace (start_col t + Z.of_nat (Z.to_nat (c - start_col t))) with c in * by lia.
    exact H. }
  assert (Hout : forall r c, ~ (start_row t + 1 <= r < start_row t + rows t /\
                  start_col t <= c < start_col t + cols t) ->
                  g' !! (r, c) = g !! (r, c)).
  { intros r c Hn. unfold g'. rewrite (lookup_write_data t _ 0 _ g r c Hall), Hlen.
    rewrite decide_False; [reflexivity | lia]. }
  split; [|split; assumption].
  intros [r c]. unfold cell_text at 1.
  destruct (decide (start_row t + 1 <= r < start_row t + rows t /\
                    start_col t <= c < start_col t + cols t)) as [[Hr Hc] | Hn].
  - rewrite (Hin r c Hr Hc). reflexivity.
  - rewrite (Hout r c Hn). reflexivity.
Qed.

Lemma update_table_data_get_table_data_witness :
  write_data table_3_2 0 (read_data grid_table table_3_2) grid_table !! (2, 1)
  = Some (cell_text grid_table (2, 1)).
Proof.
  apply (proj1 (proj2 (update_table_data_get_table_data table_3_2 grid_table)));
    cbn; lia.
Defined.

Section SortAgain.
Context {A : Type} (key : A -> string).

Lemma ltb_irrefl (a : string) : String.ltb a a = false.
Proof.
  rewrite ltb_leb. assert (H : String.le a a) by reflexivity.
  unfold String.le in H. destruct (String.leb a a); [reflexivity | contradiction].
Qed.

Lemma insert_by_head (x y : A) (l : list A) :
  key_le key x y -> insert_by key x (y :: l) = x :: y :: l.
Proof.
  intros H. cbn [insert_by]. rewrite ltb_leb. unfold key_le, String.le in H.
  destruct (String.leb (key x) (key y)); [reflexivity | contradiction].
Qed.

Lemma sort_by_sorted (l : list A) : Sorted (key_le key) l -> sort_by key l = l.
Proof.
  induction 1 as [|x l Hl IH Hx]; [reflexivity|].
  unfold sort_by in *. cbn [foldr]. rewrite IH.
  destruct Hx as [|y l' Hxy]; [reflexivity|]. apply insert_by_head, Hxy.
Qed.

Lemma filter_insert_by (k : string) (x : A) (l : list A) :
  filter (fun z => key z = k) (insert_by key x l) = filter (fun z => key z = k) (x :: l).
Proof.
  induction l as [|y r IH]; [reflexivity|]. cbn [insert_by].
  destruct (String.ltb (key y) (key x)) eqn:E; [|reflexivity].
  assert (Hne : key y <> key x).
  { intros Heq. rewrite Heq, ltb_irrefl in E. discriminate. }
  rewrite filter_cons, IH, !filter_cons.
  destruct (decide (key y = k)), (decide (key x = k)); try reflexivity; congruence.
Qed.

Lemma filter_sort_by (k : string) (l : list A) :
  filter (fun z => key z = k) (sort_by key l) = filter (fun z => key z = k) l.
Proof.
  induction l as [|x l IH]; [reflexivity|].
  unfold sort_by in *. cbn [foldr]. rewrite filter_insert_by, !filter_cons, IH.
  reflexivity.
Qed.

End SortAgain.

Lemma sort_table_data (tables : list table) (current_row current_col : Z)
    (g : grid) (t : table) :
  List.find (in_table current_row current_col) tables = Some t ->
  read_data (sort_table tables current_row current_col g) t =
  sort_by (pivot (current_col - start_col t)) (read_data g t).
Proof.
  intros Hfind. unfold sort_table. rewrite Hfind.
  destruct (read_data_shape g t) as [Hlen Hall].
  pose proof (sort_by_Permutation (pivot (current_col - start_col t)) (read_data g t))
    as Hperm.
  apply read_data_write_data.
  - rewrite Hperm. exact Hlen.
  - rewrite Hperm. exact Hall.
Qed.

(** X17. Sorting a table a second time changes nothing: with the same
    current cell, [sort_table] applied to the grid it produced returns
    that grid. *)
Theorem sort_table_twice (tables : list table) (current_row current_col : Z) (g : grid) :
  sort_table tables current_row current_col (sort_table tables current_row current_col g)
  = sort_table tables current_row current_col g.
Proof.
  destruct (List.find (in_table current_row current_col) tables) as [t|] eqn:Hfind.
  2: { unfold sort_table. rewrite Hfind. reflexivity. }
  pose proof (sort_table_data tables current_row current_col g t Hfind) as Hread.
  set (g1 := sort_table tables current_row current_col g) in *.
  set (key := pivot (current_col - start_col t)) in *.
  unfold sort_table at 1. rewrite Hfind. fold key. rewrite Hread.
  rewrite sort_by_sorted
    by (apply StronglySorted_Sorted, StronglySorted_sort_by).
  destruct (read_data_shape g t) as [Hlen Hall].
  pose proof (sort_by_Permutation key (read_data g t)) as Hperm.
  assert (Hall' : Forall (fun rd => length rd = Z.to_nat (cols t))
                    (sort_by key (read_data g t))) by (rewrite Hperm; exact Hall).
  apply map_eq. intros [r c].
  rewrite (lookup_write_data t _ 0 _ g1 r c Hall').
  destruct (decide (start_row t + 0 + 1 <= r <
                      start_row t + 0 + 1 + Z.of_nat (length (sort_by key (read_data g t))) /\
                    start_col t <= c < start_col t + Z.of_nat (Z.to_nat (cols t))))
    as [Hin | Hout]; [|reflexivity].
  unfold g1, sort_table. rewrite Hfind. fold key.
  rewrite (lookup_write_data t _ 0 _ g r c Hall'), decide_True by exact Hin.
  reflexivity.
Qed.

(** X18. The sort is stable: among the data rows of the table, those
    with the same text in the pivot column come back in the order in
    which they were. *)
Theorem sort_table_stable (tables : list table) (current_row current_col : Z)
    (g : grid) (t : table) (k : string) :
  List.find (in_table current_row current_col) tables = Some t ->
  let key := pivot (current_col - start_col t) in
  filter (fun row_data => key row_data = k)
    (read_data (sort_table tables current_row current_col g) t) =
  filter (fun row_data => key row_data = k) (read_data g t).
Proof.
  intros Hfind key. rewrite (sort_table_data _ _ _ _ _ Hfind). apply filter_sort_by.
Qed.

Lemma sort_table_stable_witness :
  let key := pivot (0 - start_col table_3_2) in
  filter (fun row_data => key row_data = "2")
    (read_data (sort_table [table_3_2] 1 0 grid_table) table_3_2) =
  filter (fun row_data => key row_data = "2") (read_data grid_table table_3_2).
Proof. apply (sort_table_stable [table_3_2] 1 0 grid_table table_3_2 "2"). reflexivity. Defined.

(** ** Copy, cut and paste *)

Lemma paste_cell_lookup (R C : Z) (first : clip) (base : Z * Z) (g : grid)
    (cell : clip) (k : Z * Z) :
  paste_cell R C first base g cell !! k =
  if decide (k = paste_target (clip_row first, clip_col first) base
                   (clip_row cell, clip_col cell)
             /\ in_sheet R C k)
  then Some (clip_text cell) else g !! k.
Proof.
  unfold paste_cell, paste_target, in_sheet. cbn [fst snd]. cbv zeta.
  destruct k as [kr kc].
  destruct ((0 <=? fst base + (clip_row cell - clip_row first))
            && (fst base + (clip_row cell - clip_row first) <? R)
            && (0 <=? snd base + (clip_col cell - clip_col first))
            && (snd base + (clip_col cell - clip_col first) <? C)) eqn:Hin.
  - destruct (decide _) as [[Heq Hs]|Hn].
    + rewrite Heq. apply lookup_insert_eq.
    + rewrite lookup_insert_ne; [reflexivity|].
      intros Heq. apply Hn. split; [congruence|].
      inversion Heq; subst. cbn [fst snd]. lia.
  - destruct (decide _) as [[Heq Hs]|Hn]; [|reflexivity].
    inversion Heq; subst. cbn [fst snd] in Hs. lia.
Qed.

Lemma paste_loop_miss (R C : Z) (first : clip) (base : Z * Z) (cells : list clip)
    (g : grid) (k : Z * Z) :
  (forall cell, cell ∈ cells ->
     ~ (k = paste_target (clip_row first, clip_col first) base
              (clip_row cell, clip_col cell) /\ in_sheet R C k)) ->
  fold_left (paste_cell R C first base) cells g !! k = g !! k.
Proof.
  revert g. induction cells as [|c r IH]; intros g Hmiss; [reflexivity|].
  cbn [fold_left]. rewrite IH.
  - rewrite paste_cell_lookup, decide_False; [reflexivity|].
    apply Hmiss. left.
  - intros cell Hcell. apply Hmiss. right. exact Hcell.
Qed.

Lemma paste_loop_hit (R C : Z) (first : clip) (base : Z * Z) (cells : list clip)
    (g : grid) (k : Z * Z) (t : string) :
  (exists cell, cell ∈ cells /\
     k = paste_target (clip_row first, clip_col first) base
           (clip_row cell, clip_col cell) /\ in_sheet R C k) ->
  (forall cell, cell ∈ cells ->
     k = paste_target (clip_row first, clip_col first) base
           (clip_row cell, clip_col cell) ->
     clip_text cell = t) ->
  fold_left (paste_cell R C first base) cells g !! k = Some t.
Proof.
  induction cells as [|c r IH] using rev_ind; intros Hex Hall.
  - destruct Hex as (cell & Hcell & _). inversion Hcell.
  - rewrite fold_left_app. cbn [fold_left]. rewrite paste_cell_lookup.
    destruct (decide _) as [[Heq Hs]|Hn].
    + f_equal. apply Hall; [|exact Heq]. apply elem_of_app. right. left.
    + apply IH.
      * destruct Hex as (cell & Hcell & Heq & Hs).
        apply elem_of_app in Hcell as [Hcell|Hcell]; [eauto|].
        apply list_elem_of_singleton in Hcell. subst cell. tauto.
      * intros cell Hcell. apply Hall. apply elem_of_app. left. exact Hcell.
Qed.

Lemma elem_of_selectedItems (selection : list (Z * Z)) (g : grid) (rc : Z * Z) :
  rc ∈ selectedItems selection g <-> rc ∈ selection /\ is_Some (g !! rc).
Proof. unfold selectedItems. rewrite list_elem_of_filter. tauto. Qed.

Lemma elem_of_copy_cells (selection : list (Z * Z)) (g : grid) (cell : clip) :
  cell ∈ copy_cells selection g <->
  (clip_row cell, clip_col cell) ∈ selectedItems selection g /\
  clip_text cell = cell_text g (clip_row cell, clip_col cell).
Proof.
  unfold copy_cells. rewrite list_elem_of_fmap. split.
  - intros ([r c] & -> & Hin). cbn. split; [exact Hin | reflexivity].
  - intros [Hin Ht]. exists (clip_row cell, clip_col cell). split; [|exact Hin].
    destruct cell as [r c t]. cbn in *. subst t. reflexivity.
Qed.

Lemma cell_text_present (g : grid) (rc : Z * Z) :
  is_Some (g !! rc) -> Some (cell_text g rc) = g !! rc.
Proof. intros [t Ht]. unfold cell_text. rewrite Ht. reflexivity. Qed.

Lemma paste_target_inj (first base rc rc' : Z * Z) :
  paste_target first base rc = paste_target first base rc' -> rc = rc'.
Proof.
  destruct rc, rc'. unfold paste_target. cbn [fst snd]. intros Heq.
  inversion Heq. f_equal; lia.
Qed.

(** X19. [paste_cells] after [copy_cells]: every copied cell whose
    target lies within the sheet appears at the target, that is at its
    own position moved by the distance from the first copied cell to the
    place of pasting, with the text it had when it was copied, also where
    the copied and the target cells overlap; no other cell changes, and a
    copied cell whose target lies outside the sheet is dropped. *)
Theorem paste_cells_copy_cells (selection selection' : list (Z * Z))
    (current_row current_col rowCount columnCount : Z) (g g' : grid)
    (first base : Z * Z) :
  head (selectedItems selection g) = Some first ->
  paste_base selection' current_row current_col g' = Some base ->
  let pasted :=
    paste_cells (Some (copy_cells selection g)) selection' current_row current_col
      rowCount columnCount g' in
  (forall rc, rc ∈ selection -> is_Some (g !! rc) ->
     in_sheet rowCount columnCount (paste_target first base rc) ->
     pasted !! paste_target first base rc = g !! rc) /\
  (forall k,
     (forall rc, rc ∈ selection -> is_Some (g !! rc) ->
        in_sheet rowCount columnCount (paste_target first base rc) ->
        k <> paste_target first base rc) ->
     pasted !! k = g' !! k).
Proof.
  intros Hfirst Hbase pasted. subst pasted. unfold paste_cells. rewrite Hbase.
  destruct (copy_cells selection g) as [|c0 cs] eqn:Hcopy.
  { unfold copy_cells in Hcopy.
    destruct (selectedItems selection g); [discriminate Hfirst | discriminate Hcopy]. }
  rewrite <- Hcopy.
  assert (Hc0 : (clip_row c0, clip_col c0) = first).
  { unfold copy_cells in Hcopy. destruct (selectedItems selection g) as [|f r];
      [discriminate|]. cbn in Hfirst, Hcopy. inversion Hfirst; subst f.
    inversion Hcopy. destruct first. reflexivity. }
  split.
  - intros rc Hrc Hsome Hin. rewrite <- (cell_text_present g rc Hsome).
    apply paste_loop_hit.
    + exists {| clip_row := fst rc; clip_col := snd rc; clip_text := cell_text g rc |}.
      split; [|split].
      * apply elem_of_copy_cells. cbn [clip_row clip_col clip_text].
        destruct rc. split; [apply elem_of_selectedItems; auto | reflexivity].
      * rewrite Hc0. cbn [clip_row clip_col]. destruct rc. reflexivity.
      * exact Hin.
    + intros cell Hcell Hk. rewrite Hc0 in Hk. apply paste_target_inj in Hk.
      apply elem_of_copy_cells in Hcell as [_ ->]. rewrite Hk. reflexivity.
  - intros k Hk. apply paste_loop_miss. intros cell Hcell [Heq Hin].
    apply elem_of_copy_cells in Hcell as [Hsel _].
    apply elem_of_selectedItems in Hsel as [Hsel Hsome].
    rewrite Hc0 in Heq. apply (Hk _ Hsel Hsome); [|exact Heq].
    rewrite <- Heq. exact Hin.
Qed.

Lemma paste_cells_copy_cells_witness :
  let pasted :=
    paste_cells (Some (copy_cells selection_2_2 grid_clip)) [] 1 1 3 2 grid_clip in
  (forall rc, rc ∈ selection_2_2 -> is_Some (grid_clip !! rc) ->
     in_sheet 3 2 (paste_target (0, 0) (1, 1) rc) ->
     pasted !! paste_target (0, 0) (1, 1) rc = grid_clip !! rc) /\
  (forall k,
     (forall rc, rc ∈ selection_2_2 -> is_Some (grid_clip !! rc) ->
        in_sheet 3 2 (paste_target (0, 0) (1, 1) rc) ->
        k <> paste_target (0, 0) (1, 1) rc) ->
     pasted !! k = grid_clip !! k).
Proof.
  apply (paste_cells_copy_cells selection_2_2 [] 1 1 3 2 grid_clip grid_clip (0, 0) (1, 1));
    reflexivity.
Defined.

Lemma cut_lookup (items : list (Z * Z)) (g : grid) (k : Z * Z) :
  fold_left (fun g' it => <[it := EmptyString]> g') items g !! k =
  if decide (k ∈ items) then Some EmptyString else g !! k.
Proof.
  revert g. induction items as [|it r IH]; intros g; [reflexivity|].
  cbn [fold_left]. rewrite IH. destruct (decide (k ∈ r)) as [Hr|Hr].
  - rewrite decide_True; [reflexivity | right; exact Hr].
  - destruct (decide (k = it)) as [->|Hne].
    + rewrite lookup_insert_eq, decide_True; [reflexivity | left].
    + rewrite lookup_insert_ne by congruence.
      rewrite decide_False; [reflexivity|].
      intros Hin. apply elem_of_cons in Hin as [?|?]; contradiction.
Qed.

Lemma selectedItems_ext (selection : list (Z * Z)) (g g' : grid) :
  (forall rc, rc ∈ selection -> is_Some (g' !! rc) <-> is_Some (g !! rc)) ->
  selectedItems selection g' = selectedItems selection g.
Proof.
  unfold selectedItems. induction selection as [|rc r IH]; intros Hsame; [reflexivity|].
  rewrite !filter_cons. rewrite IH by (intros ? ?; apply Hsame; right; assumption).
  pose proof (Hsame rc ltac:(left)) as Hrc.
  destruct (decide (is_Some (g' !! rc))), (decide (is_Some (g !! rc))); tauto.
Qed.

(** X20. [cut_cells] followed by [paste_cells] with the selection left
    where it is: when the selected items lie within the sheet, the cut
    empties each of them and the paste brings the grid back to what it was
    before the cut. *)
Theorem paste_cells_cut_cells (selection : list (Z * Z))
    (current_row current_col rowCount columnCount : Z) (g : grid) :
  (forall rc, rc ∈ selection -> is_Some (g !! rc) -> in_sheet rowCount columnCount rc) ->
  (forall rc, rc ∈ selection -> is_Some (g !! rc) ->
     snd (cut_cells selection g) !! rc = Some EmptyString) /\
  paste_cells (Some (fst (cut_cells selection g))) selection current_row current_col
    rowCount columnCount (snd (cut_cells selection g)) = g.
Proof.
  intros Hin. unfold cut_cells. cbn [fst snd].
  set (g1 := fold_left _ (selectedItems selection g) g).
  assert (Hg1 : forall k, g1 !! k =
            if decide (k ∈ selectedItems selection g) then Some EmptyString else g !! k)
    by (intros k; apply cut_lookup).
  split.
  { intros rc Hrc Hsome. rewrite Hg1, decide_True; [reflexivity|].
    apply elem_of_selectedItems. auto. }
  assert (Hsel : selectedItems selection g1 = selectedItems selection g).
  { apply selectedItems_ext. intros rc Hrc. rewrite Hg1.
    destruct (decide _) as [Hi|Hi]; [|reflexivity].
    apply elem_of_selectedItems in Hi as [_ Hi]. split; [auto | eauto]. }
  unfold paste_cells, paste_base. rewrite Hsel.
  destruct (copy_cells selection g) as [|c0 cs] eqn:Hcopy.
  { unfold copy_cells in Hcopy. subst g1.
    destruct (selectedItems selection g); [reflexivity | discriminate Hcopy]. }
  rewrite <- Hcopy.
  destruct (selectedItems selection g) as [|first rest] eqn:Hitems.
  { unfold copy_cells in Hcopy. rewrite Hitems in Hcopy. discriminate Hcopy. }
  assert (Hc0 : (clip_row c0, clip_col c0) = first).
  { unfold copy_cells in Hcopy. rewrite Hitems in Hcopy. inversion Hcopy.
    destruct first. reflexivity. }
  assert (Hid : forall rc, paste_target first first rc = rc).
  { intros [r c]. unfold paste_target. cbn [fst snd]. f_equal; lia. }
  apply map_eq. intros k.
  destruct (decide (k ∈ selectedItems selection g)) as [Hk|Hk].
  - pose proof Hk as Hk'. apply elem_of_selectedItems in Hk' as [Hk1 Hk2].
    rewrite <- (cell_text_present g k Hk2). apply paste_loop_hit.
    + exists {| clip_row := fst k; clip_col := snd k; clip_text := cell_text g k |}.
      split; [|split].
      * apply elem_of_copy_cells. cbn [clip_row clip_col clip_text].
        destruct k. split; [exact Hk | reflexivity].
      * rewrite Hc0. cbn [clip_row clip_col]. rewrite Hid. destruct k. reflexivity.
      * apply Hin; assumption.
    + intros cell Hcell Heq. rewrite Hc0, Hid in Heq.
      apply elem_of_copy_cells in Hcell as [_ ->]. rewrite Heq. reflexivity.
  - rewrite paste_loop_miss.
    + rewrite Hg1, decide_False; [reflexivity | rewrite <- Hitems; exact Hk].
    + intros cell Hcell [Heq _]. rewrite Hc0, Hid in Heq.
      apply elem_of_copy_cells in Hcell as [Hsel' _]. apply Hk. rewrite Heq.
      exact Hsel'.
Qed.

Lemma paste_cells_cut_cells_witness :
  (forall rc, rc ∈ selection_2_2 -> is_Some (grid_clip !! rc) ->
     snd (cut_cells selection_2_2 grid_clip) !! rc = Some EmptyString) /\
  paste_cells (Some (fst (cut_cells selection_2_2 grid_clip))) selection_2_2 0 0
    2 2 (snd (cut_cells selection_2_2 grid_clip)) = grid_clip.
Proof.
  apply paste_cells_cut_cells. intros rc Hrc _. unfold in_sheet.
  repeat (apply elem_of_cons in Hrc as [->|Hrc]; [cbn; lia|]).
  inversion Hrc.
Defined.

(** ** Saving and opening *)

Lemma open_cell_id_cell_key (rc : Z * Z) :
  0 <= 65 + snd rc < 256 -> open_cell_id (cell_key rc) = Some rc.
Proof.
  intros Hc. destruct rc as [row col]. unfold cell_key. cbn [fst snd] in *.
  cbn [open_cell_id]. rewrite py_int_str_int, ord_ascii_of_N by lia.
  cbn. f_equal. f_equal; lia.
Qed.

Lemma dict_set_fresh {A} (k : string) (v : A) (d : list (string * A)) :
  k ∉ d.*1 -> dict_set k v d = d ++ [(k, v)].
Proof.
  induction d as [|[k' v'] r IH]; intros Hk; [reflexivity|].
  cbn [dict_set]. cbn in Hk. apply not_elem_of_cons in Hk as [Hne Hr].
  destruct (String.eqb k' k) eqn:E; [apply String.eqb_eq in E; congruence|].
  cbn. rewrite IH by exact Hr. reflexivity.
Qed.

Lemma elem_of_saved (bv : Z * Z -> bool) (g : grid) (todo : list (Z * Z))
    (rc : Z * Z) (t : string) :
  (rc, t) ∈ saved bv g todo <->
  rc ∈ todo /\ g !! rc = Some t /\ nonempty t || bv rc = true.
Proof.
  unfold saved. rewrite list_elem_of_omap. split.
  - intros (rc' & Hin & Hsome). destruct (g !! rc') as [t'|] eqn:Hg; [|discriminate].
    destruct (nonempty t' || bv rc') eqn:Hs; [|discriminate].
    inversion Hsome; subst. auto.
  - intros (Hin & Hg & Hs). exists rc. split; [exact Hin|]. rewrite Hg, Hs. reflexivity.
Qed.

Lemma saved_cons (bv : Z * Z -> bool) (g : grid) (rc : Z * Z) (r : list (Z * Z)) :
  saved bv g (rc :: r) =
  match g !! rc with
  | Some t => if nonempty t || bv rc then (rc, t) :: saved bv g r else saved bv g r
  | None => saved bv g r
  end.
Proof.
  unfold saved. cbn. destruct (g !! rc) as [t|]; [|reflexivity].
  destruct (nonempty t || bv rc); reflexivity.
Qed.

Lemma save_loop_saved (bv : Z * Z -> bool) (g : grid) (todo : list (Z * Z))
    (cells : list (string * string)) :
  NoDup todo ->
  (forall rc, rc ∈ todo -> 0 <= 65 + snd rc < 256) ->
  (forall rc, rc ∈ todo -> cell_key rc ∉ cells.*1) ->
  save_loop bv g todo cells =
  Returned (cells ++ map (fun e => (cell_key (fst e), snd e)) (saved bv g todo)).
Proof.
  revert cells. induction todo as [|rc r IH]; intros cells Hnd Hcol Hfresh.
  - cbn. rewrite app_nil_r. reflexivity.
  - apply NoDup_cons in Hnd as [Hrc Hnd].
    assert (Hr : forall rc', rc' ∈ r -> 0 <= 65 + snd rc' < 256)
      by (intros; apply Hcol; right; assumption).
    cbn [save_loop]. unfold save_cell. rewrite saved_cons.
    destruct (g !! rc) as [t|] eqn:Hg.
    2: { apply IH; [exact Hnd | exact Hr |]. intros; apply Hfresh; right; assumption. }
    destruct (nonempty t || bv rc) eqn:Hs.
    2: { apply IH; [exact Hnd | exact Hr |]. intros; apply Hfresh; right; assumption. }
    rewrite get_cell_id_latin1 by (specialize (Hcol rc ltac:(left)); lia).
    change (String (ascii_of_N (Z.to_N (65 + snd rc))) (str_int (fst rc + 1)))
      with (cell_key rc).
    rewrite dict_set_fresh by (apply Hfresh; left).
    rewrite IH; [| exact Hnd | exact Hr |].
    + cbn [map fst snd]. rewrite <- app_assoc. reflexivity.
    + intros rc' Hrc'. rewrite fmap_app. cbn. rewrite elem_of_app.
      intros [Hin|Hin]; [exact (Hfresh rc' ltac:(right; exact Hrc') Hin)|].
      apply list_elem_of_singleton in Hin.
      assert (Some rc' = Some rc) as [= ->].
      { rewrite <- (open_cell_id_cell_key rc'), <- (open_cell_id_cell_key rc), Hin;
          [reflexivity | apply Hcol; left | apply Hr; exact Hrc']. }
      contradiction.
Qed.

Lemma open_cells_saved (l : list ((Z * Z) * string)) (g : grid) :
  (forall e, e ∈ l -> 0 <= 65 + snd (fst e) < 256) ->
  open_cells (map (fun e => (cell_key (fst e), snd e)) l) g =
  Some (fold_left (fun g' e => <[fst e := snd e]> g') l g).
Proof.
  revert g. induction l as [|[rc t] r IH]; intros g Hcol; [reflexivity|].
  cbn [map open_cells fst snd fold_left].
  rewrite open_cell_id_cell_key by (apply (Hcol (rc, t)); left).
  destruct rc as [row col]. apply IH. intros; apply Hcol; right; assumption.
Qed.

Lemma lookup_fold_insert (l : list ((Z * Z) * string)) (g : grid) (rc : Z * Z)
    (t : string) :
  (forall e e', e ∈ l -> e' ∈ l -> fst e = fst e' -> snd e = snd e') ->
  (fold_left (fun g' e => <[fst e := snd e]> g') l g) !! rc = Some t <->
  (rc, t) ∈ l \/ ((rc ∉ l.*1) /\ g !! rc = Some t).
Proof.
  induction l as [|[rc' t'] r IH] using rev_ind; intros Hfun.
  - cbn. split; [intros; right; split; [apply not_elem_of_nil | assumption]|].
    intros [Hin|[_ Hg]]; [inversion Hin | exact Hg].
  - rewrite fold_left_app. cbn [fold_left fst snd].
    assert (Hfun' : forall e e', e ∈ r -> e' ∈ r -> fst e = fst e' -> snd e = snd e').
    { intros e e' He He'. apply Hfun; apply elem_of_app; left; assumption. }
    specialize (IH Hfun'). rewrite fmap_app, !elem_of_app. cbn.
    rewrite !list_elem_of_singleton.
    destruct (decide (rc = rc')) as [->|Hne].
    + rewrite lookup_insert_eq. split.
      * intros [= ->]. left. right. reflexivity.
      * intros [[Hin|[= ->]]|[Hno _]]; [| reflexivity | tauto].
        f_equal. symmetry.
        apply (Hfun (rc', t) (rc', t')); [| |reflexivity];
          apply elem_of_app; [left; exact Hin | right; left].
    + rewrite lookup_insert_ne by congruence. rewrite IH. split.
      * intros [Hin|[Hno Hg]]; [left; left; exact Hin|].
        right. split; [|exact Hg]. intros [?|?]; [contradiction | congruence].
      * intros [[Hin|[= -> ->]]|[Hno Hg]]; [left; exact Hin | congruence |].
        right. split; [tauto | exact Hg].
Qed.

Lemma elem_of_sheet_cells (rowCount columnCount : Z) (rc : Z * Z) :
  rc ∈ sheet_cells rowCount columnCount <-> in_sheet rowCount columnCount rc.
Proof.
  unfold sheet_cells, in_sheet, py_range. destruct rc as [r c].
  rewrite list_elem_of_In, in_flat_map. split.
  - intros (row & Hrow & Hin). apply in_map_iff in Hin as (col & [= <- <-] & Hcol).
    apply list_elem_of_In, elem_of_seqZ in Hrow, Hcol. cbn. lia.
  - cbn. intros [Hr Hc]. exists r. split.
    + apply list_elem_of_In, elem_of_seqZ. lia.
    + apply in_map_iff. exists c. split; [reflexivity|].
      apply list_elem_of_In, elem_of_seqZ. lia.
Qed.

(** X21. Saving a sheet and opening what was saved: with at most 191
    columns, which keeps the column characters within the alphabet of the
    model, [save_file] writes the cells of the sheet without an error,
    and [open_file] restores from them exactly the items of the sheet that
    have a text or a valid background, each at its own row and column
    with its own text.  What [json.load] reads is taken to be the entries
    that [json.dump] wrote, in their order. *)
Theorem open_cells_save_cells (background_valid : Z * Z -> bool)
    (rowCount columnCount : Z) (g : grid) :
  columnCount <= 191 ->
  exists cells opened,
    save_cells background_valid rowCount columnCount g = Returned cells /\
    open_cells cells ∅ = Some opened /\
    forall rc t,
      opened !! rc = Some t <->
      g !! rc = Some t /\ in_sheet rowCount columnCount rc /\
      (t <> EmptyString \/ background_valid rc = true).
Proof.
  intros Hcols. unfold save_cells.
  assert (Hcol : forall rc, rc ∈ sheet_cells rowCount columnCount -> 0 <= 65 + snd rc < 256).
  { intros rc Hrc. apply elem_of_sheet_cells in Hrc. unfold in_sheet in Hrc. lia. }
  eexists _, _. split; [|split].
  - apply save_loop_saved; [| exact Hcol |].
    + apply StronglySorted_coord_lt_NoDup, StronglySorted_row_major;
        apply StronglySorted_seqZ.
    + intros rc _. apply not_elem_of_nil.
  - cbn [app]. apply open_cells_saved.
    intros [rc t] He. apply elem_of_saved in He as [Hin _]. apply Hcol, Hin.
  - intros rc t. rewrite lookup_fold_insert.
    + rewrite elem_of_saved, elem_of_sheet_cells, lookup_empty.
      assert (Hne : nonempty t || background_valid rc = true <->
                    (t <> EmptyString \/ background_valid rc = true)).
      { rewrite orb_true_iff. destruct t; cbn; intuition congruence. }
      rewrite Hne. intuition congruence.
    + intros [rc1 t1] [rc2 t2] H1 H2. cbn. intros <-.
      apply elem_of_saved in H1 as (_ & H1 & _).
      apply elem_of_saved in H2 as (_ & H2 & _). congruence.
Qed.

Lemma open_cells_save_cells_witness :
  exists cells opened,
    save_cells (fun _ => false) 2 2 grid_clip = Returned cells /\
    open_cells cells ∅ = Some opened /\
    forall rc t,
      opened !! rc = Some t <->
      grid_clip !! rc = Some t /\ in_sheet 2 2 rc /\
      (t <> EmptyString \/ (fun _ : Z * Z => false) rc = true).
Proof. apply (open_cells_save_cells (fun _ => false) 2 2 grid_clip). lia. Defined.

(** ** Creating a table *)

Lemma lookup_fold_row (f : Z -> string) (r0 c0 : Z) (cs : list Z) (g : grid) (r c : Z) :
  (fold_left (fun g' col => <[(r0, c0 + col) := f col]> g') cs g) !! (r, c) =
  if decide (r = r0 /\ c - c0 ∈ cs) then Some (f (c - c0)) else g !! (r, c).
Proof.
  induction cs as [|col cs IH] using rev_ind.
  - cbn. rewrite decide_False; [reflexivity|]. intros [_ H]. inversion H.
  - rewrite fold_left_app. cbn [fold_left].
    destruct (decide ((r, c) = (r0, c0 + col))) as [Heq|Hne].
    + inversion Heq; subst. rewrite lookup_insert_eq, decide_True.
      * f_equal. f_equal. lia.
      * split; [reflexivity|]. apply elem_of_app. right.
        replace (c0 + col - c0) with col by lia. left.
    + rewrite lookup_insert_ne by congruence. rewrite IH.
      destruct (decide (r = r0 /\ c - c0 ∈ cs)) as [[-> Hin]|Hn].
      * rewrite decide_True; [reflexivity|]. split; [reflexivity|].
        apply elem_of_app. left. exact Hin.
      * rewrite decide_False; [reflexivity|]. intros [-> Hin].
        apply elem_of_app in Hin as [Hin|Hin]; [tauto|].
        apply list_elem_of_singleton in Hin. apply Hne. f_equal. lia.
Qed.

Lemma lookup_fold_rows (t : string) (r0 c0 : Z) (rs cs : list Z) (g : grid) (r c : Z) :
  fold_left
    (fun g' row => fold_left (fun g'' col => <[(r0 + row + 1, c0 + col) := t]> g'') cs g')
    rs g !! (r, c) =
  if decide (r - r0 - 1 ∈ rs /\ c - c0 ∈ cs) then Some t else g !! (r, c).
Proof.
  induction rs as [|row rs IH] using rev_ind.
  - cbn. rewrite decide_False; [reflexivity|]. intros [H _]. inversion H.
  - rewrite fold_left_app. cbn [fold_left].
    rewrite (lookup_fold_row (fun _ => t)), IH.
    destruct (decide (r = r0 + row + 1 /\ c - c0 ∈ cs)) as [[-> Hin]|Hn].
    + rewrite decide_True; [reflexivity|]. split; [|exact Hin].
      apply elem_of_app. right. replace (r0 + row + 1 - r0 - 1) with row by lia. left.
    + destruct (decide (r - r0 - 1 ∈ rs /\ c - c0 ∈ cs)) as [[Hr Hc]|Hn'].
      * rewrite decide_True; [reflexivity|]. split; [|exact Hc].
        apply elem_of_app. left. exact Hr.
      * rewrite decide_False; [reflexivity|]. intros [Hr Hc].
        apply elem_of_app in Hr as [Hr|Hr]; [tauto|].
        apply list_elem_of_singleton in Hr. apply Hn. split; [lia | exact Hc].
Qed.

Lemma elem_of_py_range (lo hi k : Z) : k ∈ py_range lo hi <-> lo <= k < hi.
Proof. unfold py_range. rewrite elem_of_seqZ. lia. Qed.

Lemma lookup_create_header (start_row start_col cols : Z) (g : grid) (r c : Z) :
  create_header start_row start_col cols g !! (r, c) =
  if decide (r = start_row /\ start_col <= c < start_col + cols)
  then Some ("Header " +:+ str_int (c - start_col + 1))
  else g !! (r, c).
Proof.
  unfold create_header.
  rewrite (lookup_fold_row (fun col => "Header " +:+ str_int (col + 1))).
  destruct (decide (r = start_row /\ c - start_col ∈ py_range 0 cols)) as [[-> H]|Hn].
  - apply elem_of_py_range in H. rewrite decide_True by lia. reflexivity.
  - rewrite decide_False; [reflexivity|]. intros [-> H]. apply Hn.
    split; [reflexivity|]. apply elem_of_py_range. lia.
Qed.

Lemma lookup_create_data (start_row start_col rows cols : Z) (g : grid) (r c : Z) :
  create_data start_row start_col rows cols g !! (r, c) =
  if decide (start_row + 1 <= r < start_row + rows /\ start_col <= c < start_col + cols)
  then Some "Data"
  else g !! (r, c).
Proof.
  unfold create_data. rewrite lookup_fold_rows.
  destruct (decide (r - start_row - 1 ∈ py_range 0 (rows - 1)
                    /\ c - start_col ∈ py_range 0 cols)) as [[H1 H2]|Hn].
  - apply elem_of_py_range in H1, H2. rewrite decide_True by lia. reflexivity.
  - rewrite decide_False; [reflexivity|]. intros [H1 H2]. apply Hn.
    split; apply elem_of_py_range; lia.
Qed.

(** X22. [create_table] with one of the three styles registers the table
    after those the sheet has and overwrites the cells of its rectangle,
    whatever they held: the first row with Header 1, Header 2 and so on,
    every further row with Data.  The header row is written for any
    number of rows, and no cell outside the rectangle changes. *)
Theorem create_table_cells (start_row start_col rows cols : Z) (style : string)
    (tables : list table) (g : grid) :
  style ∈ table_styles ->
  exists g',
    create_table start_row start_col rows cols style tables g =
      Some (tables ++ [{| start_row := start_row; start_col := start_col;
                          rows := rows; cols := cols |}], g') /\
    (forall c, start_col <= c < start_col + cols ->
       g' !! (start_row, c) = Some ("Header " +:+ str_int (c - start_col + 1))) /\
    (forall r c, start_row + 1 <= r < start_row + rows ->
       start_col <= c < start_col + cols ->
       g' !! (r, c) = Some "Data") /\
    (forall r c,
       ~ ((r = start_row \/ start_row + 1 <= r < start_row + rows) /\
          start_col <= c < start_col + cols) ->
       g' !! (r, c) = g !! (r, c)).
Proof.
  intros Hstyle. eexists. split; [|split; [|split]].
  - unfold create_table.
    assert (Hs : existsb (String.eqb style) table_styles = true).
    { apply existsb_exists. exists style. split; [|apply String.eqb_refl].
      apply list_elem_of_In. exact Hstyle. }
    rewrite Hs. reflexivity.
  - intros c Hc. rewrite lookup_create_data, decide_False by lia.
    rewrite lookup_create_header, decide_True by lia. reflexivity.
  - intros r c Hr Hc. rewrite lookup_create_data, decide_True by lia. reflexivity.
  - intros r c Hn. rewrite lookup_create_data, decide_False by lia.
    rewrite lookup_create_header, decide_False by lia. reflexivity.
Qed.

Lemma create_table_cells_witness :
  exists g',
    create_table 0 0 3 2 "Striped" [] grid_table =
      Some ([] ++ [{| start_row := 0; start_col := 0; rows := 3; cols := 2 |}], g') /\
    (forall c, 0 <= c < 0 + 2 ->
       g' !! (0, c) = Some ("Header " +:+ str_int (c - 0 + 1))) /\
    (forall r c, 0 + 1 <= r < 0 + 3 -> 0 <= c < 0 + 2 -> g' !! (r, c) = Some "Data") /\
    (forall r c, ~ ((r = 0 \/ 0 + 1 <= r < 0 + 3) /\ 0 <= c < 0 + 2) ->
       g' !! (r, c) = grid_table !! (r, c)).
Proof.
  apply (create_table_cells 0 0 3 2 "Striped" [] grid_table).
  right. left.
Defined.

Lemma find_snoc {A} (f : A -> bool) (l : list A) (x : A) :
  List.find f l = None -> f x = true -> List.find f (l ++ [x]) = Some x.
Proof.
  intros Hl Hx. induction l as [|y r IH]; cbn in *; [rewrite Hx; reflexivity|].
  destruct (f y); [discriminate | apply IH, Hl].
Qed.

Lemma write_data_read_data (t : table) (g : grid) :
  (forall r c, start_row t + 1 <= r < start_row t + rows t ->
               start_col t <= c < start_col t + cols t -> is_Some (g !! (r, c))) ->
  write_data t 0 (read_data g t) g = g.
Proof.
  intros Hpresent. destruct (read_data_shape g t) as [Hlen Hall].
  apply map_eq. intros [r c].
  rewrite (lookup_write_data t _ 0 _ g r c Hall), Hlen.
  destruct (decide _) as [[Hr Hc]|Hn]; [|reflexivity].
  destruct (read_data_lookup g t (Z.to_nat (r - start_row t - 0 - 1))
              (Z.to_nat (c - start_col t))) as (rd & Hrd & Hcell); [lia | lia |].
  rewrite Hrd. cbn. rewrite Hcell.
  replace (start_row t + Z.of_nat (Z.to_nat (r - start_row t - 0 - 1)) + 1) with r by lia.
  replace (start_col t + Z.of_nat (Z.to_nat (c - start_col t))) with c by lia.
  apply cell_text_present, Hpresent; lia.
Qed.

Lemma Sorted_same_key {A} (key : A -> string) (k : string) (l : list A) :
  Forall (fun x => key x = k) l -> Sorted (key_le key) l.
Proof.
  induction 1 as [|x l Hx Hl IH]; constructor; [exact IH|].
  destruct Hl as [|y l' Hy _]; constructor.
  unfold key_le. rewrite Hx, Hy. reflexivity.
Qed.

(** X23. [sort_table] right after [create_table], with the current cell
    in the new table and in no table registered before it, leaves the
    grid as [create_table] made it: the data rows all hold the same
    text. *)
Theorem sort_table_create_table (start_row start_col rows cols : Z) (style : string)
    (tables tables' : list table) (g g' : grid) (current_row current_col : Z) :
  create_table start_row start_col rows cols style tables g = Some (tables', g') ->
  List.find (in_table current_row current_col) tables = None ->
  start_row <= current_row < start_row + rows ->
  start_col <= current_col < start_col + cols ->
  sort_table tables' current_row current_col g' = g'.
Proof.
  rename start_row into r0, start_col into c0, rows into nr, cols into nc.
  unfold create_table. destruct (existsb _ _); [|discriminate].
  intros [= <- <-] Hfind Hr Hc.
  set (t := {| start_row := r0; start_col := c0; rows := nr; cols := nc |}).
  set (g' := create_data _ _ _ _ _).
  unfold sort_table. rewrite (find_snoc _ tables t Hfind).
  2: { unfold in_table, t. cbn. lia. }
  cbv zeta. rewrite sort_by_sorted.
  - apply write_data_read_data. intros r c Hr' Hc'. unfold g'.
    rewrite lookup_create_data, decide_True by (cbn in Hr', Hc'; lia). eauto.
  - apply (Sorted_same_key _ "Data"). apply Forall_forall. intros rd Hrd.
    unfold read_data in Hrd. apply list_elem_of_fmap in Hrd as (row & -> & Hrow).
    apply elem_of_py_range in Hrow. unfold pivot.
    pose proof (read_row_lookup g' t row (Z.to_nat (current_col - start_col t))) as Hl.
    rewrite decide_True in Hl by (cbn; lia).
    apply (nth_lookup_Some _ _ EmptyString) in Hl. rewrite Hl.
    unfold cell_text, g'. rewrite lookup_create_data, decide_True by (cbn in *; lia).
    reflexivity.
Qed.

Lemma sort_table_create_table_witness :
  sort_table [{| start_row := 0; start_col := 0; rows := 3; cols := 2 |}] 1 1
    (create_data 0 0 3 2 (create_header 0 0 2 grid_table))
  = create_data 0 0 3 2 (create_header 0 0 2 grid_table).
Proof.
  apply (sort_table_create_table 0 0 3 2 "Simple" [] _ grid_table _ 1 1);
    [reflexivity | reflexivity | lia | lia].
Defined.

(** ** Content of a workbook *)


(** ** References replaced one after the other *)

Lemma append_cons (c : ascii) (a b : string) : String c a +:+ b = String c (a +:+ b).
Proof. reflexivity. Qed.

Lemma prefix_cons (a b : ascii) (s t : string) :
  String.prefix (String a s) (String b t) =
  if Ascii.eqb a b then String.prefix s t else false.
Proof.
  cbn [String.prefix]. destruct (ascii_dec a b) as [->|Hne].
  - rewrite Ascii.eqb_refl. reflexivity.
  - apply Ascii.eqb_neq in Hne. rewrite Hne. reflexivity.
Qed.

Lemma prefix_empty (s : string) : String.prefix EmptyString s = true.
Proof. destruct s; reflexivity. Qed.

Lemma prefix_app_cases (a b rest : string) :
  String.prefix a (b +:+ rest) = true ->
  String.prefix a b = true \/ String.prefix b a = true.
Proof.
  revert b. induction a as [|x a IH]; intros b H.
  - left. apply prefix_empty.
  - destruct b as [|y b]; [right; reflexivity|].
    rewrite append_cons, prefix_cons in H. rewrite !prefix_cons.
    rewrite (Ascii.eqb_sym y x).
    destruct (Ascii.eqb x y); [apply IH, H | discriminate].
Qed.

Lemma replace_from_skip (s old new rest : string) :
  replace_from (String.length s) old new (s +:+ rest) = replace_from O old new rest.
Proof.
  induction s as [|c s IH]; [reflexivity|].
  rewrite append_cons. cbn [String.length replace_from]. exact IH.
Qed.

Lemma prefix_split (old s : string) :
  String.prefix old s = true -> exists rest, s = old +:+ rest.
Proof.
  revert s. induction old as [|c old IH]; intros s H.
  - exists s. reflexivity.
  - destruct s as [|x s]; [discriminate|]. rewrite prefix_cons in H.
    destruct (Ascii.eqb_spec c x) as [->|]; [|discriminate].
    destruct (IH s H) as (rest & ->). exists rest. reflexivity.
Qed.

Lemma replace_from_match (c : ascii) (old new rest : string) :
  replace_from O (String c old) new (String c old +:+ rest) =
  new +:+ replace_from O (String c old) new rest.
Proof.
  rewrite append_cons. cbn [replace_from].
  rewrite <- append_cons, prefix_append.
  cbn [String.length Nat.pred]. rewrite replace_from_skip. reflexivity.
Qed.

Lemma replace_from_plain (c : ascii) (old new p rest : string) :
  is_upper c = true -> no_capital p = true ->
  replace_from O (String c old) new (p +:+ rest) =
  p +:+ replace_from O (String c old) new rest.
Proof.
  intros Hc. induction p as [|x p IH]; intros Hp; [reflexivity|].
  cbn [no_capital all_chars] in Hp. apply andb_prop in Hp as [Hx Hp].
  rewrite !append_cons. cbn [replace_from].
  rewrite <- append_cons, prefix_upper_first;
    [| exact Hc | rewrite append_cons; apply negb_true_iff, Hx].
  f_equal. apply IH, Hp.
Qed.

Lemma digits_no_capital (d : string) : all_chars is_digit d = true -> no_capital d = true.
Proof.
  apply all_chars_impl. intros c Hc. unfold is_digit, is_upper in *.
  apply negb_true_iff. lia.
Qed.

Lemma is_address_inv (r : string) :
  is_address r = true ->
  exists c d, r = String c d /\ is_upper c = true /\ all_chars is_digit d = true.
Proof.
  destruct r as [|c d]; [discriminate|]. cbn [is_address].
  intros [[Hc _]%andb_prop Hd]%andb_prop. eauto.
Qed.

Lemma replace_from_other (old new r rest : string) :
  is_address old = true -> is_address r = true ->
  String.prefix old (r +:+ rest) = false ->
  replace_from O old new (r +:+ rest) = r +:+ replace_from O old new rest.
Proof.
  intros (c0 & d0 & -> & Hc0 & _)%is_address_inv (c & d & -> & Hc & Hd)%is_address_inv Hpre.
  rewrite !append_cons in *. cbn [replace_from]. rewrite Hpre. f_equal.
  apply replace_from_plain; [exact Hc0 | apply digits_no_capital, Hd].
Qed.

Lemma replace_flat (old new : string) (ps : list piece) :
  is_address old = true ->
  (forall p, Plain p ∈ ps -> no_capital p = true) ->
  (forall r, Ref r ∈ ps ->
     is_address r = true /\
     (String.prefix old r = true \/ String.prefix r old = true -> r = old)) ->
  replace old new (flat ps) = flat (map (resolve_one old new) ps).
Proof.
  intros Hold. unfold replace.
  induction ps as [|p ps IH]; intros Hplain Href; [reflexivity|].
  assert (IH' : replace_from O old new (flat ps) = flat (map (resolve_one old new) ps)).
  { apply IH; intros; [apply Hplain | apply Href]; right; assumption. }
  cbn [flat map]. destruct p as [p|r]; cbn [piece_text resolve_one].
  - destruct (is_address_inv _ Hold) as (c0 & d0 & -> & Hc0 & _).
    rewrite replace_from_plain; [| exact Hc0 | apply Hplain; left].
    cbn [flat piece_text]. rewrite IH'. reflexivity.
  - destruct (Href r ltac:(left)) as [Hr Hfree].
    destruct (String.eqb_spec r old) as [->|Hne].
    + destruct (is_address_inv _ Hold) as (c0 & d0 & -> & _).
      rewrite replace_from_match. cbn [flat piece_text]. rewrite IH'. reflexivity.
    + rewrite replace_from_other; [| exact Hold | exact Hr |].
      * cbn [flat piece_text]. rewrite IH'. reflexivity.
      * destruct (String.prefix old (r +:+ flat ps)) eqn:Hpre; [|reflexivity].
        apply prefix_app_cases in Hpre. apply Hfree in Hpre. contradiction.
Qed.

Lemma resolve_all_plain (value : string -> string) (ps : list piece) :
  (forall r, Ref r ∉ ps) -> map (resolve_all value) ps = ps.
Proof.
  induction ps as [|p ps IH]; intros Hno; [reflexivity|]. cbn [map].
  rewrite IH by (intros r Hr; apply (Hno r); right; exact Hr).
  destruct p as [p|r]; [reflexivity|]. exfalso. apply (Hno r). left.
Qed.

Lemma resolve_all_resolve_one (value : string -> string) (a : string) (p : piece) :
  resolve_all value (resolve_one a (value a) p) = resolve_all value p.
Proof.
  destruct p as [p|r]; [reflexivity|]. cbn [resolve_one].
  destruct (String.eqb_spec r a) as [->|]; reflexivity.
Qed.

Lemma elem_of_resolve_one (a new : string) (ps : list piece) (q : piece) :
  q ∈ map (resolve_one a new) ps ->
  (q ∈ ps /\ q <> Ref a) \/ q = Plain new.
Proof.
  intros (p & -> & Hp)%list_elem_of_fmap. destruct p as [p|r]; cbn [resolve_one].
  - left. split; [exact Hp | discriminate].
  - destruct (String.eqb_spec r a) as [->|Hne]; [right; reflexivity|].
    left. split; [exact Hp | congruence].
Qed.

(** Replacing the references one after the other, in any order and with
    repetitions, replaces each of them where it stands. *)
Lemma fold_replace_flat (value : string -> string) (refs : list string) (ps : list piece) :
  (forall r, r ∈ refs -> is_address r = true /\ no_capital (value r) = true) ->
  prefix_free refs ->
  (forall p, Plain p ∈ ps -> no_capital p = true) ->
  (forall r, Ref r ∈ ps -> r ∈ refs) ->
  fold_left (fun f r => replace r (value r) f) refs (flat ps) =
  flat (map (resolve_all value) ps).
Proof.
  revert ps. induction refs as [|a rest IH]; intros ps Hrefs Hfree Hplain Href.
  - cbn [fold_left]. rewrite resolve_all_plain; [reflexivity|].
    intros r Hr. apply Href in Hr. inversion Hr.
  - cbn [fold_left]. destruct (Hrefs a ltac:(left)) as [Ha Hva].
    rewrite replace_flat; [| exact Ha | exact Hplain |].
    + rewrite IH.
      * rewrite map_map. f_equal. apply map_ext. intros p.
        apply resolve_all_resolve_one.
      * intros r Hr. apply Hrefs. right. exact Hr.
      * intros x y Hx Hy. apply Hfree; right; assumption.
      * intros p [[Hp _]| [= ->]]%elem_of_resolve_one; [apply Hplain, Hp | exact Hva].
      * intros r [[Hr Hne]| [=]]%elem_of_resolve_one.
        apply Href, elem_of_cons in Hr as [->|Hr]; [congruence | exact Hr].
    + intros r Hr. apply Href in Hr. split; [apply Hrefs, Hr|].
      intros [Hp|Hp]; [symmetry|]; apply Hfree; auto; left.
Qed.

Lemma digits_prefix_drop (t : string) :
  digits_prefix t +:+ drop_chars (String.length (digits_prefix t)) t = t.
Proof.
  induction t as [|c t IH]; [reflexivity|]. cbn [digits_prefix].
  destruct (is_digit c); [|reflexivity].
  rewrite append_cons. cbn [String.length drop_chars]. rewrite IH. reflexivity.
Qed.

Lemma flat_pieces (s : string) (k : nat) : flat (pieces k s) = drop_chars k s.
Proof.
  revert k. induction s as [|c t IH]; intros k; [destruct k; reflexivity|].
  destruct k as [|k]; cbn [pieces drop_chars]; [|apply IH].
  destruct (is_upper c && nonempty (digits_prefix t)); cbn [flat piece_text].
  - rewrite IH, append_cons, digits_prefix_drop. reflexivity.
  - rewrite IH. destruct t; reflexivity.
Qed.

Lemma substitute_pieces (value : string -> string) (s : string) (k : nat) :
  substitute value k s = flat (map (resolve_all value) (pieces k s)).
Proof.
  revert k. induction s as [|c t IH]; intros k; [reflexivity|].
  destruct k as [|k]; cbn [pieces substitute]; [|apply IH].
  destruct (is_upper c && nonempty (digits_prefix t));
    cbn [map resolve_all flat piece_text]; rewrite IH; reflexivity.
Qed.

Lemma pieces_refs (s : string) (k : nat) (r : string) :
  Ref r ∈ pieces k s -> r ∈ findall_refs s.
Proof.
  revert k. induction s as [|c t IH]; intros k; [intros H; inversion H|].
  assert (Hsub : r ∈ findall_refs t -> r ∈ findall_refs (String c t)).
  { cbn [findall_refs]. destruct (is_upper c && nonempty (digits_prefix t));
      [right; assumption | trivial]. }
  destruct k as [|k]; cbn [pieces]; [|intros H; apply Hsub, (IH k), H].
  cbn [findall_refs]. destruct (is_upper c && nonempty (digits_prefix t)).
  - intros [[= ->]|H]%elem_of_cons; [left | right; apply (IH _ H)].
  - intros [[=]|H]%elem_of_cons. apply (IH _ H).
Qed.

Lemma pieces_plain (s : string) (k : nat) (p : string) :
  capitals_begin_refs s = true -> Plain p ∈ pieces k s -> no_capital p = true.
Proof.
  revert k. induction s as [|c t IH]; intros k; [intros _ H; inversion H|].
  cbn [capitals_begin_refs]. intros [Hc Ht]%andb_prop.
  destruct k as [|k]; cbn [pieces]; [|apply IH, Ht].
  destruct (is_upper c) eqn:Hu; cbn [negb orb andb] in *.
  - rewrite Hc. intros [[=]|H]%elem_of_cons. apply (IH _ Ht H).
  - intros [[= ->]|H]%elem_of_cons; [|apply (IH _ Ht H)].
    cbn. rewrite Hu. reflexivity.
Qed.

Lemma digits_prefix_digits (t : string) : all_chars is_digit (digits_prefix t) = true.
Proof.
  induction t as [|c t IH]; [reflexivity|]. cbn [digits_prefix].
  destruct (is_digit c) eqn:E; [|reflexivity]. cbn [all_chars]. rewrite E. exact IH.
Qed.

Lemma findall_refs_address (s r : string) : r ∈ findall_refs s -> is_address r = true.
Proof.
  induction s as [|c t IH]; [intros H; inversion H|]. cbn [findall_refs].
  destruct (is_upper c && nonempty (digits_prefix t)) eqn:E; [|exact IH].
  intros [->|H]%elem_of_cons; [|apply IH, H].
  apply andb_prop in E as [Hc Hn]. cbn [is_address].
  rewrite Hc, Hn, digits_prefix_digits. reflexivity.
Qed.

(** On a formula whose capitals all begin references, none of which is
    the beginning of a longer one, replacing the references one after the
    other is replacing them all at once. *)
Lemma fold_replace_substitute (value : string -> string) (formula : string) :
  capitals_begin_refs formula = true ->
  prefix_free (findall_refs formula) ->
  (forall r, r ∈ findall_refs formula -> no_capital (value r) = true) ->
  fold_left (fun f r => replace r (value r) f) (findall_refs formula) formula =
  substitute value O formula.
Proof.
  intros Hcap Hfree Hlow. rewrite substitute_pieces.
  rewrite <- (fold_replace_flat value (findall_refs formula) (pieces O formula)).
  - rewrite flat_pieces. destruct formula; reflexivity.
  - intros r Hr. split; [apply (findall_refs_address _ _ Hr) | apply Hlow, Hr].
  - exact Hfree.
  - intros p. apply pieces_plain, Hcap.
  - intros r. apply pieces_refs.
Qed.

Lemma no_capital_flat (ps : list piece) :
  (forall p, p ∈ ps -> exists s, p = Plain s /\ no_capital s = true) ->
  no_capital (flat ps) = true.
Proof.
  induction ps as [|p ps IH]; intros Hall; [reflexivity|].
  cbn [flat]. unfold no_capital. rewrite all_chars_app.
  destruct (Hall p ltac:(left)) as (s & -> & Hs). cbn [piece_text].
  unfold no_capital in Hs. rewrite Hs. apply IH. intros; apply Hall; right; assumption.
Qed.

Lemma no_capital_substitute (value : string -> string) (formula : string) :
  capitals_begin_refs formula = true ->
  (forall r, r ∈ findall_refs formula -> no_capital (value r) = true) ->
  no_capital (substitute value O formula) = true.
Proof.
  intros Hcap Hlow. rewrite substitute_pieces. apply no_capital_flat.
  intros q (p & -> & Hp)%list_elem_of_fmap. destruct p as [p|r]; cbn [resolve_all].
  - exists p. split; [reflexivity | apply (pieces_plain _ _ _ Hcap Hp)].
  - eexists. split; [reflexivity|]. apply Hlow, (pieces_refs _ _ _ Hp).
Qed.

Lemma capitals_begin_refs_not_aggregate (formula : string) :
  capitals_begin_refs formula = true -> is_aggregate formula = false.
Proof.
  intros Hcap. destruct (is_aggregate formula) eqn:Hagg; [|reflexivity].
  unfold is_aggregate in Hagg. apply existsb_exists in Hagg as (p & Hp & Hpre).
  apply prefix_split in Hpre as (rest & ->).
  cbn in Hp. destruct Hp as [<-|[<-|[<-|[<-|[<-|[]]]]]]; discriminate Hcap.
Qed.

Section Numeric.
Context `{RT : Runtime}.

Lemma replace_loop_numeric (refs : list string) (formula : string) (g : grid) :
  (forall r, r ∈ refs ->
     exists rc, decode r = Some rc /\ is_Some (float_of_str (cell_text g rc))) ->
  replace_loop refs formula g =
  (Returned (fold_left (fun f r => replace r (cell_value g r) f) refs formula), g).
Proof.
  revert formula. induction refs as [|a rest IH]; intros formula Hnum; [reflexivity|].
  destruct (Hnum a ltac:(left)) as (rc & Hd & l & Hl).
  rewrite replace_loop_step, Hd, Hl.
  rewrite (materialize_present _ g rc (numeric_cell_present _ _ _ Hl)).
  rewrite IH by (intros; apply Hnum; right; assumption).
  assert (Hv : cell_value g a = float_str (float_of_lit l))
    by (unfold cell_value; rewrite Hd, Hl; reflexivity).
  cbn [fold_left]. rewrite Hv. reflexivity.
Qed.

Lemma referenced_cells_numeric (formula : string) (g : grid) :
  (forall cell_ref rc, cell_ref ∈ findall_refs formula -> decode cell_ref = Some rc ->
     is_Some (float_of_str (cell_text g rc))) ->
  forall r, r ∈ findall_refs formula ->
    exists rc, decode r = Some rc /\ is_Some (float_of_str (cell_text g rc)).
Proof.
  intros Hnum r Hr.
  destruct (is_address_decode _ (findall_refs_address _ _ Hr)) as (rc & Hd).
  exists rc. split; [exact Hd | apply (Hnum r rc Hr Hd)].
Qed.

Lemma cell_value_lower (formula : string) (g : grid) :
  (forall cell_ref rc, cell_ref ∈ findall_refs formula -> decode cell_ref = Some rc ->
     is_Some (float_of_str (cell_text g rc))) ->
  forall r, r ∈ findall_refs formula -> no_capital (cell_value g r) = true.
Proof.
  intros Hnum r Hr.
  destruct (referenced_cells_numeric _ _ Hnum r Hr) as (rc & Hd & l & Hl).
  unfold cell_value. rewrite Hd, Hl. apply float_str_lower.
Qed.

(** X25. When every capital of a formula begins a reference, no
    reference is the beginning of a longer one, and every referenced cell
    holds a number, [replace_cell_references] returns the formula with
    each reference replaced, where it stands, by the text of the value of
    its cell, and leaves the grid as it is. *)
Theorem replace_cell_references_substitutes (formula : string) (g : grid) :
  capitals_begin_refs formula = true ->
  prefix_free (findall_refs formula) ->
  (forall cell_ref rc, cell_ref ∈ findall_refs formula -> decode cell_ref = Some rc ->
     is_Some (float_of_str (cell_text g rc))) ->
  replace_cell_references formula g =
    (Returned (substitute (cell_value g) O formula), g).
Proof.
  intros Hcap Hfree Hnum. unfold replace_cell_references.
  rewrite replace_loop_numeric by (apply referenced_cells_numeric, Hnum).
  rewrite fold_replace_substitute; [reflexivity | exact Hcap | exact Hfree |].
  apply cell_value_lower, Hnum.
Qed.

(** X26. Under the same conditions [evaluate_formula] leaves the grid as
    it is and hands to [eval] the formula with every reference replaced
    by the value of its cell: the result is what [eval] yields, or the
    text ERROR: Invalid formula with the message of the exception; when a
    value brings in a character that is not allowed, as the letters of
    inf, nan or an exponent do, the result is the text ERROR: Invalid
    characters in formula. *)
Theorem evaluate_formula_with_references (formula : string) (g : grid) :
  capitals_begin_refs formula = true ->
  prefix_free (findall_refs formula) ->
  (forall cell_ref rc, cell_ref ∈ findall_refs formula -> decode cell_ref = Some rc ->
     is_Some (float_of_str (cell_text g rc))) ->
  let replaced := substitute (cell_value g) O formula in
  evaluate_formula (String "=" formula) g =
    (Returned
       (Some (if all_chars allowed_char replaced
              then match py_eval replaced with
                   | inl result => result
                   | inr e => "ERROR: Invalid formula (" +:+ e +:+ ")"
                   end
              else "ERROR: Invalid characters in formula")), g).
Proof.
  intros Hcap Hfree Hnum replaced. cbn [evaluate_formula].
  rewrite (capitals_begin_refs_not_aggregate _ Hcap).
  unfold bind, replace_cell_references.
  rewrite replace_loop_numeric by (apply referenced_cells_numeric, Hnum).
  rewrite fold_replace_substitute;
    [| exact Hcap | exact Hfree | apply cell_value_lower, Hnum].
  fold replaced.
  pose proof (no_capital_substitute (cell_value g) _ Hcap (cell_value_lower _ _ Hnum))
    as Hlow.
  fold replaced in Hlow.
  rewrite prefix_upper_first; [| reflexivity |].
  - destruct (all_chars allowed_char replaced); cbn [negb]; [|reflexivity].
    destruct (py_eval replaced); reflexivity.
  - destruct replaced as [|x s]; [exact I|]. cbn in Hlow.
    apply andb_prop in Hlow as [Hx _]. apply negb_true_iff, Hx.
Qed.

End Numeric.

Lemma replace_cell_references_substitutes_witness :
  @replace_cell_references int_runtime "A1+B2*A1" grid_A1_B2 =
    (Returned "2.0+3.0*2.0", grid_A1_B2).
Proof.
  apply (@replace_cell_references_substitutes int_runtime "A1+B2*A1" grid_A1_B2).
  - reflexivity.
  - intros a b Ha Hb.
    repeat (apply elem_of_cons in Ha as [->|Ha]);
      repeat (apply elem_of_cons in Hb as [->|Hb]);
      try (inversion Ha); try (inversion Hb);
      (reflexivity || discriminate).
  - intros cell_ref rc Hin.
    repeat (apply elem_of_cons in Hin as [->|Hin]); try (inversion Hin);
      intros [= <-]; eexists; reflexivity.
Defined.

Lemma evaluate_formula_with_references_witness :
  @evaluate_formula int_runtime "=A1+B2*A1" grid_A1_B2 =
    (Returned (Some "ERROR: Invalid formula (eval is not part of this runtime)"),
     grid_A1_B2).
Proof.
  apply (@evaluate_formula_with_references int_runtime "A1+B2*A1" grid_A1_B2).
  - reflexivity.
  - intros a b Ha Hb.
    repeat (apply elem_of_cons in Ha as [->|Ha]);
      repeat (apply elem_of_cons in Hb as [->|Hb]);
      try (inversion Ha); try (inversion Hb);
      (reflexivity || discriminate).
  - intros cell_ref rc Hin.
    repeat (apply elem_of_cons in Hin as [->|Hin]); try (inversion Hin);
      intros [= <-]; eexists; reflexivity.
Defined.

(** ** Saving a workbook *)

Lemma save_cells_returns (bv : Z * Z -> bool) (rows cols : Z) (g : grid) :
  cols <= 191 -> exists cells, save_cells bv rows cols g = Returned cells.
Proof.
  intros Hcols. eexists. unfold save_cells. apply save_loop_saved.
  - apply StronglySorted_coord_lt_NoDup, StronglySorted_row_major;
      apply StronglySorted_seqZ.
  - intros rc Hrc. apply elem_of_sheet_cells in Hrc. unfold in_sheet in Hrc. lia.
  - intros rc _. apply not_elem_of_nil.
Qed.

Lemma save_tabs_last (tabs : list (string * Sheet)) (last : option (string * sheet_data))
    (tab : string * Sheet) (named : string * sheet_data) :
  (forall t, t ∈ tabs -> columnCount (snd t) <= 191) ->
  save_sheet tab = Returned named ->
  save_tabs (tabs ++ [tab]) last = Returned (Some named).
Proof.
  revert last. induction tabs as [|[n s] r IH]; intros last Hcols Htab.
  - cbn. rewrite Htab. reflexivity.
  - cbn [app save_tabs]. unfold save_sheet at 1.
    destruct (save_cells_returns (valid_background s) (rowCount s) (columnCount s) (items s))
      as (cells & ->); [apply (Hcols (n, s)); left|].
    apply IH; [|exact Htab]. intros; apply Hcols; right; assumption.
Qed.

(** X27. [save_file] writes one sheet only, the last tab of the
    workbook, under its name and with its cells, tables and rules: the
    entry is assigned behind the loop over the tabs, so that what the
    loop collected for the tabs before the last one is dropped.  The
    sheets have at most 191 columns each, which keeps the column
    characters within the alphabet of the model. *)
Theorem save_file_last_sheet (tabs : list (string * Sheet)) (sheet_name : string)
    (sheet : Sheet) :
  (forall t, t ∈ tabs -> columnCount (snd t) <= 191) ->
  columnCount sheet <= 191 ->
  exists cells,
    save_cells (valid_background sheet) (rowCount sheet) (columnCount sheet)
      (items sheet) = Returned cells /\
    save_file (tabs ++ [(sheet_name, sheet)]) =
      Some [(sheet_name,
             {| saved_cells := cells;
                saved_tables := tables sheet;
                saved_validations := cell_validations sheet |})].
Proof.
  intros Htabs Hsheet.
  destruct (save_cells_returns (valid_background sheet) (rowCount sheet)
              (columnCount sheet) (items sheet) Hsheet) as (cells & Hcells).
  exists cells. split; [exact Hcells|]. unfold save_file.
  rewrite (save_tabs_last tabs None (sheet_name, sheet)
             (sheet_name, {| saved_cells := cells;
                             saved_tables := tables sheet;
                             saved_validations := cell_validations sheet |}) Htabs);
    [reflexivity|].
  unfold save_sheet. rewrite Hcells. reflexivity.
Qed.

Lemma save_file_last_sheet_witness :
  exists cells,
    save_cells (valid_background sheet_table) (rowCount sheet_table)
      (columnCount sheet_table) (items sheet_table) = Returned cells /\
    save_file ([("Sheet1", sheet_clip)] ++ [("Sheet2", sheet_table)]) =
      Some [("Sheet2",
             {| saved_cells := cells;
                saved_tables := tables sheet_table;
                saved_validations := cell_validations sheet_table |})].
Proof.
  apply (save_file_last_sheet [("Sheet1", sheet_clip)] "Sheet2" sheet_table).
  - intros t Ht. apply list_elem_of_singleton in Ht. subst t. cbn. lia.
  - cbn. lia.
Defined.
